(** * Vertex animation textures: a shallow embedding of
      [Blender/vertex_animation.py]

    The add-on bakes the per-frame vertex offsets and normals of a mesh
    into image textures.  This development embeds

    - [float_to_bytes] and [write_output_image]   (16-bit quantizer),
    - [create_export_mesh_object]                 (atlas UV generator),
    - [create_and_save_image]                     (chunked image builder),
    - [get_vertex_data]                           (offset normalizer),
    - [OBJECT_OT_ProcessAnimMeshes.execute]       (the operator),

    and states the properties of the specification over them.  Its last
    part, from [Further properties] on, proves more of the same
    functions and of [frame_range], [get_per_frame_mesh_data],
    [bake_vertex_data], [export_mesh] and the unit settings.

    Conventions.
    - A Python [int] is a [Z]; [//] and [%] are [Z.div] and [Z.modulo]
      (floor-based, like Python's) behind an explicit
      [ZeroDivisionError].
    - A Python [float] is an IEEE-754 binary64 number.  It is modelled by
      the rational it denotes, and a float operation is the exact rational
      operation followed by a rounding [rnd].  The development is
      parametric in [rnd] (class [PyFloat]) and assumes only what rounding
      to nearest guarantees (class [PyFloatLaws]); [binary64] is the
      rounding of IEEE-754 itself, [exact_arith] is real arithmetic.  An
      [int] operand of a float operation is converted exactly (true below
      [2^53]).  Infinities and NaN are not modelled: a product that
      would overflow is outside the model, and so is the
      [OverflowError] of [int] on it ([int_defined]).
    - A Python exception is a [Raise] of the [result] monad.
    - [mathutils.Vector] arithmetic is host code, taken through the
      interface [Mathutils] and its laws [MathutilsLaws].
    - Effects on the host (frame changes, saved images, reports) are
      events appended to the log of a [World].
    - Host functions whose result the add-on only passes on
      ([bpy.path.abspath], the UVs of a new UV layer, the single
      precision in which Blender keeps a UV) are taken through the
      interface [Bpy].  Assigning the pixels of an image raises
      [ValueError] unless there are four values for each pixel. *)

From Stdlib Require Import ZArith QArith Qpower Qround Qabs List Bool.
From Stdlib Require Import Strings.String Strings.Ascii DecimalString.
From Stdlib Require Import DecimalZ DecimalPos.
From Stdlib Require Import Lia Lqa Psatz.
Import ListNotations.

Local Open Scope Z_scope.

(** ** Python run-time model *)

Module Py.

Inductive exn : Type :=
| ZeroDivisionError
| IndexError
| ValueError.

Inductive result (A : Type) : Type :=
| Ok (a : A)
| Raise (e : exn).
Arguments Ok {A} a.
Arguments Raise {A} e.

Definition bind {A B} (m : result A) (k : A -> result B) : result B :=
  match m with
  | Ok a => k a
  | Raise e => Raise e
  end.

(** [for x in xs: s = body(s, x)], stopping at the first exception. *)
Fixpoint for_each {A S} (xs : list A) (body : S -> A -> result S) (s : S)
  : result S :=
  match xs with
  | [] => Ok s
  | x :: xs' => bind (body s x) (for_each xs' body)
  end.

(** [a // b] and [a % b] on integers. *)
Definition floordiv (a b : Z) : result Z :=
  if b =? 0 then Raise ZeroDivisionError else Ok (a / b).

Definition mod_ (a b : Z) : result Z :=
  if b =? 0 then Raise ZeroDivisionError else Ok (a mod b).

(** [len(range(start, stop, step))]; [range] raises on a zero step. *)
Definition range_len (start stop step : Z) : result Z :=
  if step =? 0 then Raise ValueError
  else if 0 <? step
       then Ok (if start <? stop then (stop - start - 1) / step + 1 else 0)
       else Ok (if stop <? start then (start - stop - 1) / (- step) + 1 else 0).

(** [list(range(start, stop, step))]. *)
Definition range3 (start stop step : Z) : result (list Z) :=
  bind (range_len start stop step) (fun n =>
    Ok (map (fun k => start + Z.of_nat k * step) (seq 0 (Z.to_nat n)))).

(** [list(range(n))]. *)
Definition range (n : Z) : list Z :=
  map Z.of_nat (seq 0 (Z.to_nat n)).

(** [xs[start:stop]]: a negative bound counts from the end, and both
    bounds are clipped to the list. *)
Definition slice_bound (len i : Z) : Z :=
  if i <? 0 then Z.max (i + len) 0 else Z.min i len.

Definition slice {A} (xs : list A) (start stop : Z) : list A :=
  let len := Z.of_nat (List.length xs) in
  let lo := slice_bound len start in
  let hi := slice_bound len stop in
  firstn (Z.to_nat (hi - lo)) (skipn (Z.to_nat lo) xs).

(** [xs[i]] at a position [i >= 0]. *)
Definition getitem {A} (xs : list A) (i : nat) : result A :=
  match nth_error xs i with
  | Some x => Ok x
  | None => Raise IndexError
  end.

(** [xs[i] = x] at a position [i >= 0]. *)
Fixpoint setitem {A} (xs : list A) (i : nat) (x : A) : result (list A) :=
  match xs, i with
  | [], _ => Raise IndexError
  | _ :: xs', O => Ok (x :: xs')
  | y :: xs', S i' => bind (setitem xs' i' x) (fun r => Ok (y :: r))
  end.

(** The elements of a [bpy] collection with their [index]. *)
Definition indexed {A} (xs : list A) : list (nat * A) :=
  combine (seq 0 (List.length xs)) xs.

(** [str(n)]. *)
Definition str (n : Z) : string := NilZero.string_of_int (Z.to_int n).

End Py.

Import Py.

Notation "x <- m ;; k" := (Py.bind m (fun x => k))
  (at level 61, m at next level, right associativity).
Notation "' p <- m ;; k" := (Py.bind m (fun x => match x with p => k end))
  (at level 61, p pattern, m at next level, right associativity).

(** ** Floating point *)

Local Open Scope Q_scope.

(** A rational is representable when it is [m * 2^e] with a 53-bit
    significand and an exponent of the binary64 range. *)
Definition representable (x : Q) : Prop :=
  exists m e : Z,
    (Z.abs m < 2 ^ 53)%Z /\ (-1074 <= e <= 971)%Z /\ x == inject_Z m * 2 ^ e.

Definition min_normal : Q := 2 ^ (-1022)%Z.
Definition max_finite : Q := 2 ^ 1023%Z.
Definition unit_roundoff : Q := 2 ^ (-53)%Z.

(** Rounding to a float. *)
Class PyFloat : Type := {
  rnd : Q -> Q
}.

(** What the development assumes of the rounding: it is monotone, exact
    on floats, and of relative error at most [2^-53] on the normal
    range.  Rounding to nearest has these properties. *)
Class PyFloatLaws (F : PyFloat) : Prop := {
  rnd_mono : forall x y, x <= y -> rnd x <= rnd y;
  rnd_exact : forall x, representable x -> rnd x == x;
  rnd_rel : forall x,
      min_normal <= Qabs x <= max_finite ->
      Qabs (rnd x - x) <= Qabs x * unit_roundoff
}.

Definition Qltb (x y : Q) : bool := negb (Qle_bool y x).

(** [int(x)]: truncation towards zero. *)
Definition int (x : Q) : Z := Z.quot (Qnum x) (Zpos (Qden x)).

(** Rounding to the nearest integer, ties to even. *)
Definition round_half_even (x : Q) : Z :=
  let f := Qfloor x in
  let r := x - inject_Z f in
  if Qltb r 0.5 then f
  else if Qltb 0.5 r then (f + 1)%Z
  else if Z.even f then f else (f + 1)%Z.

Section Float.
Context {F : PyFloat}.

Definition fadd (x y : Q) : Q := rnd (x + y).
Definition fsub (x y : Q) : Q := rnd (x - y).
Definition fmul (x y : Q) : Q := rnd (x * y).

(** [x / y] for a literal divisor, which is not zero. *)
Definition fdiv (x y : Q) : Q := rnd (x / y).

(** [x / y] in general. *)
Definition truediv (x y : Q) : result Q :=
  if Qeq_bool y 0 then Raise ZeroDivisionError else Ok (fdiv x y).

(** [round(x, 2)]: the float nearest to [x] rounded to two decimals. *)
Definition round2 (x : Q) : Q :=
  fdiv (inject_Z (round_half_even (x * 100))) 100.

End Float.

(** ** Vectors *)

Definition Vec3 : Type := Q * Q * Q.

Definition vzero : Vec3 := (0, 0, 0).

Definition veq (a b : Vec3) : Prop :=
  let '(ax, ay, az) := a in
  let '(bx, by_, bz) := b in
  ax == bx /\ ay == by_ /\ az == bz.

(** The operations of [mathutils.Vector] the add-on uses: [a - b],
    [a.length] and [a / s] for a scalar [s <> 0]. *)
Class Mathutils : Type := {
  vsub : Vec3 -> Vec3 -> Vec3;
  vlength : Vec3 -> Q;
  vdiv : Vec3 -> Q -> Vec3
}.

(** What the development assumes of them: a vector minus itself is
    zero, the zero vector has length zero, and it stays zero when
    divided. *)
Class MathutilsLaws (V : Mathutils) : Prop := {
  vsub_diag : forall a, veq (vsub a a) vzero;
  vlength_zero : forall a, veq a vzero -> vlength a == 0;
  vdiv_zero : forall a s, veq a vzero -> ~ s == 0 -> veq (vdiv a s) vzero
}.

(** [a / s]. *)
Definition vtruediv {V : Mathutils} (a : Vec3) (s : Q) : result Vec3 :=
  if Qeq_bool s 0 then Raise ZeroDivisionError else Ok (vdiv a s).

(** ** Host data *)

Local Open Scope string_scope.
Local Open Scope Z_scope.

Record MeshVertex : Type := {
  co : Vec3;
  normal : Vec3
}.

Record UVLayer : Type := {
  uv_name : string;
  uv_data : list (Q * Q)
}.

(** A mesh: its vertices, the vertex index of each loop, its UV layers
    (one UV per loop).  The [index] of a vertex or of a loop is its
    position in the collection. *)
Record Mesh : Type := {
  vertices : list MeshVertex;
  loops : list Z;
  uv_layers : list UVLayer
}.

(** The functions of the host the add-on calls and passes on:
    [bpy.path.abspath], the UV that [uv_layers.new()] gives a loop of a
    mesh, and the single-precision float in which Blender keeps a
    coordinate of a UV. *)
Class Bpy : Type := {
  abspath : string -> string;
  default_uv : Mesh -> nat -> Q * Q;
  single : Q -> Q
}.

Record SceneObject : Type := {
  ob_name : string;
  ob_type : string;
  ob_data : Mesh;
  ob_modifiers : list string
}.

Record Scene : Type := {
  frame_start : Z;
  frame_end : Z;
  frame_step : Z;
  unit_system : string;
  scale_length : Q;
  display_device : string;
  output_dir : string;
  scale_factor : Q
}.

Record ChunkImage : Type := {
  img_name : string;
  img_width : Z;
  img_height : Z;
  img_pixels : list Q;
  img_scaled : option (Z * Z)
}.

Inductive report : Type :=
| ModifierNotAllowed (mod_type : string)
| SceneUnitNotMetric
| VertexCountExceeded (vertex_count : Z)
| FrameCountExceeded (frame_count : Z).

Inductive event : Type :=
| EvReportError (r : report)
| EvFrameSet (frame : Z)
| EvSaveRender (path : string) (image : ChunkImage)
| EvExportFbx (path : string).

Record World : Type := {
  scene : Scene;
  selected_objects : list SceneObject;
  active_object : SceneObject;
  log : list event
}.

Definition set_units (sc : Scene) (system : string) (scale : Q) : Scene :=
  {| frame_start := frame_start sc; frame_end := frame_end sc;
     frame_step := frame_step sc;
     unit_system := system; scale_length := scale;
     display_device := display_device sc; output_dir := output_dir sc;
     scale_factor := scale_factor sc |}.

Definition set_display_device (sc : Scene) (device : string) : Scene :=
  {| frame_start := frame_start sc; frame_end := frame_end sc;
     frame_step := frame_step sc;
     unit_system := unit_system sc; scale_length := scale_length sc;
     display_device := device; output_dir := output_dir sc;
     scale_factor := scale_factor sc |}.

Definition set_scale_factor (sc : Scene) (s : Q) : Scene :=
  {| frame_start := frame_start sc; frame_end := frame_end sc;
     frame_step := frame_step sc;
     unit_system := unit_system sc; scale_length := scale_length sc;
     display_device := display_device sc; output_dir := output_dir sc;
     scale_factor := s |}.

Definition with_scene (w : World) (sc : Scene) : World :=
  {| scene := sc; selected_objects := selected_objects w;
     active_object := active_object w; log := log w |}.

Definition emit (w : World) (e : event) : World :=
  {| scene := scene w; selected_objects := selected_objects w;
     active_object := active_object w; log := log w ++ [e] |}.

(** An operation on the host: it ends in a value or an exception, and
    leaves a world behind in both cases. *)
Definition op (A : Type) : Type := World -> result A * World.

Definition ret {A} (a : A) : op A := fun w => (Ok a, w).

Definition bind_op {A B} (m : op A) (k : A -> op B) : op B :=
  fun w =>
    match m w with
    | (Ok a, w') => k a w'
    | (Raise e, w') => (Raise e, w')
    end.

Definition lift {A} (r : result A) : op A := fun w => (r, w).

Definition get_scene : op Scene := fun w => (Ok (scene w), w).

Definition put_scene (sc : Scene) : op unit :=
  fun w => (Ok tt, with_scene w sc).

Definition tell (e : event) : op unit := fun w => (Ok tt, emit w e).

Notation "x <~ m ;; k" := (bind_op m (fun x => k))
  (at level 61, m at next level, right associativity).
Notation "' p <~ m ;; k" := (bind_op m (fun x => match x with p => k end))
  (at level 61, p pattern, m at next level, right associativity).
Notation "m ;;; k" := (bind_op m (fun _ => k))
  (at level 61, right associativity).

(** [for x in xs: body(x)] on the host. *)
Fixpoint for_each_op {A} (xs : list A) (body : A -> op unit) : op unit :=
  match xs with
  | [] => ret tt
  | x :: xs' => body x ;;; for_each_op xs' body
  end.

(** ** The add-on *)

Section VertexAnimation.

(** The module global [chunk_width]. *)
Variable chunk_width : Z.

(** The combined, evaluated mesh of the selected objects at a frame: the
    body of the loop of [get_per_frame_mesh_data], which is the host's. *)
Variable evaluated_mesh : list SceneObject -> Z -> Mesh.

Context {F : PyFloat} {V : Mathutils} {host : Bpy}.

(** [frame_range], lines 143-145. *)
Definition frame_range (sc : Scene) : result (list Z) :=
  range3 (frame_start sc) (frame_end sc) (frame_step sc).

Definition frame_count_of (sc : Scene) : result Z :=
  range_len (frame_start sc) (frame_end sc) (frame_step sc).

(** [get_per_frame_mesh_data], lines 41-59. *)
Definition get_per_frame_mesh_data (objects : list SceneObject)
  : op (list Mesh) :=
  sc <~ get_scene ;;
  frames <~ lift (frame_range sc) ;;
  for_each_op frames (fun i => tell (EvFrameSet i)) ;;;
  ret (map (evaluated_mesh objects) frames).

(** [export_mesh], lines 62-72. *)
Definition export_mesh (name : string) : op unit :=
  sc <~ get_scene ;;
  tell (EvExportFbx (abspath (output_dir sc) ++ name ++ ".fbx")%string).

(** Line 93: the pixel width of the current chunk or remainder. *)
Definition current_pixel_width
    (texture_size chunks remainder chunk_number : Z) : Z :=
  if chunk_number <? chunks then texture_size else remainder.

(** The body of the loop over [me.loops], lines 89-100: the UV of a loop
    at vertex [vertex_index]. *)
Definition loop_uv (texture_size chunks remainder vertex_index : Z)
  : result (Q * Q) :=
  chunk_number <- floordiv vertex_index texture_size ;;
  index_in_chunk <- mod_ vertex_index texture_size ;;
  let current_pixel_width :=
    current_pixel_width texture_size chunks remainder chunk_number in
  pixel_center_offset <- truediv 1.5 (inject_Z current_pixel_width) ;;
  let scale_factor := fsub 1 (fmul 2 pixel_center_offset) in
  t <- truediv (inject_Z index_in_chunk)
               (inject_Z (current_pixel_width - 1)) ;;
  let u_coord :=
    fadd (fadd (inject_Z chunk_number) (fmul scale_factor t))
         pixel_center_offset in
  Ok (u_coord, fdiv 128 255).

(** A layer made by [me.uv_layers.new()]: one UV for each loop, the
    host's. *)
Definition new_uv_layer (me : Mesh) : UVLayer :=
  {| uv_name := "UVMap";
     uv_data := map (default_uv me) (seq 0 (List.length (loops me))) |}.

(** The UV a layer keeps when [(u, v)] is assigned to it, line 100. *)
Definition store_uv (uv : Q * Q) : Q * Q :=
  (single (fst uv), single (snd uv)).

(** [create_export_mesh_object], lines 75-104; the object it returns is
    the mesh it has written the UVs to. *)
Definition create_export_mesh_object (me : Mesh) : result Mesh :=
  let texture_size := chunk_width in
  let layers :=
    (uv_layers me
       ++ repeat (new_uv_layer me) (2 - List.length (uv_layers me)))%list in
  uv_layer <- getitem layers 1 ;;
  let max_vertex_index := Z.of_nat (List.length (vertices me)) in
  chunks <- floordiv max_vertex_index texture_size ;;
  remainder <- mod_ max_vertex_index texture_size ;;
  data <- for_each (indexed (loops me))
            (fun data '(loop_index, vertex_index) =>
               uv <- loop_uv texture_size chunks remainder vertex_index ;;
               setitem data loop_index (store_uv uv))
            (uv_data uv_layer) ;;
  layers <- setitem layers 1
              {| uv_name := "vertex_anim"; uv_data := data |} ;;
  Ok {| vertices := vertices me; loops := loops me; uv_layers := layers |}.

(** The body of the loops over [me.vertices], lines 119-122 and
    131-137. *)
Definition scan_vertex (original : list MeshVertex)
    (max_offset_length : Q) (iv : nat * MeshVertex) : result Q :=
  let '(index, v) := iv in
  o <- getitem original index ;;
  let offset_length := vlength (vsub (co v) (co o)) in
  Ok (if Qltb max_offset_length offset_length
      then offset_length else max_offset_length).

Definition encode_vertex (original : list MeshVertex)
    (max_offset_length : Q) (acc : list Q * list Q) (iv : nat * MeshVertex)
  : result (list Q * list Q) :=
  let '(offsets, normals) := acc in
  let '(index, v) := iv in
  o <- getitem original index ;;
  offset <- vtruediv (vsub (co v) (co o)) max_offset_length ;;
  let '(x, y, z) := offset in
  let offsets :=
    (offsets ++ [fmul (fadd x 1) 0.5; fmul (fadd (- y) 1) 0.5;
                 fmul (fadd z 1) 0.5; 1%Q])%list in
  let '(x, y, z) := normal v in
  let normals :=
    (normals ++ [fmul (fadd x 1) 0.5; fmul (fadd y 1) 0.5;
                 fmul (fadd z 1) 0.5; 1%Q])%list in
  Ok (offsets, normals).

(** [get_vertex_data], lines 110-140.  The removal of the meshes
    without users, lines 138-139, does not touch the result and is left
    out. *)
Definition get_vertex_data (meshes : list Mesh) : op (list Q * list Q) :=
  first <~ lift (getitem meshes 0) ;;
  let original := vertices first in
  max_offset_length <~ lift
    (for_each (rev meshes)
       (fun m me => for_each (indexed (vertices me)) (scan_vertex original) m)
       0%Q) ;;
  let max_offset_length :=
    if Qeq_bool max_offset_length 0 then 1%Q else max_offset_length in
  sc <~ get_scene ;;
  put_scene (set_scale_factor sc max_offset_length) ;;;
  lift
    (for_each (rev meshes)
       (fun acc me =>
          for_each (indexed (vertices me))
            (encode_vertex original max_offset_length) acc)
       ([], [])).

(** [float_to_bytes], lines 156-161, for a value whose product with
    65535 is finite. *)
Definition float_to_bytes (float_value : Q) : Z * Z :=
  let int_value := int (fmul float_value 65535) in
  let high_byte := Z.land (Z.shiftr int_value 8) 255 in
  let low_byte := Z.land int_value 255 in
  (high_byte, low_byte).

(** One chunk of [create_and_save_image]: the body of the loop over
    [i], lines 176-209. *)
Definition chunk_image (byte_list : list Q) (name_postfix : string)
    (width height chunk_count remainder_width : Z) (padding : list Q)
    (i : Z) : ChunkImage :=
  let chunk_bytes :=
    fold_left
      (fun chunk_bytes y =>
         let start_index := (y * width + i * chunk_width) * 4 in
         let end_index :=
           if i =? chunk_count
           then start_index + remainder_width * 4
           else start_index + chunk_width * 4 in
         ((chunk_bytes ++ padding)
            ++ slice byte_list start_index end_index) ++ padding)%list
      (range height) [] in
  let chunk_img_width :=
    if negb (i =? chunk_count)
    then chunk_width + 2 else remainder_width + 2 in
  let target_width := Z.max 32 chunk_img_width in
  let target_height := Z.max 32 height in
  {| img_name := (name_postfix ++ "_part" ++ str i)%string;
     img_width := chunk_img_width;
     img_height := height;
     img_pixels := chunk_bytes;
     img_scaled :=
       if (chunk_img_width <? 32) || (height <? 32)
       then Some (target_width, target_height) else None |}.

(** [chunk_image.pixels = chunk_bytes], line 198: the host takes four
    values for each pixel of the image, no more and no fewer. *)
Definition set_pixels (image : ChunkImage) : result unit :=
  if Z.of_nat (List.length (img_pixels image))
     =? 4 * img_width image * img_height image
  then Ok tt else Raise ValueError.

(** [create_and_save_image], lines 164-209. *)
Definition create_and_save_image (byte_list : list Q)
    (name_postfix : string) (size : Z * Z) (output_dir : string)
  : op unit :=
  let '(width, height) := size in
  chunk_count <~ lift (floordiv width chunk_width) ;;
  remainder_width <~ lift (mod_ width chunk_width) ;;
  let padding := [fdiv 127 255; fdiv 127 255; fdiv 127 255; 1%Q] in
  for_each_op
    (range (chunk_count + (if remainder_width =? 0 then 0 else 1)))
    (fun i =>
       let image :=
         chunk_image byte_list name_postfix width height
                     chunk_count remainder_width padding i in
       lift (set_pixels image) ;;;
       tell (EvSaveRender
               (output_dir ++ name_postfix
                  ++ "_part" ++ str i ++ ".png")%string
               image)).

(** The conversion loop of [write_output_image], lines 241-246. *)
Definition byte_planes (pixel_list : list Q) : list Q * list Q :=
  fold_left
    (fun '(high_bytes_list, low_bytes_list) pixel =>
       let '(high_byte, low_byte) := float_to_bytes pixel in
       (high_bytes_list ++ [fdiv (inject_Z high_byte) 255],
        low_bytes_list ++ [fdiv (inject_Z low_byte) 255])%list)
    pixel_list ([], []).

(** [write_output_image], lines 239-252. *)
Definition write_output_image (pixel_list : list Q) (name : string)
    (size : Z * Z) (output_dir : string) : op unit :=
  let '(high_bytes_list, low_bytes_list) := byte_planes pixel_list in
  create_and_save_image high_bytes_list (name ++ "_high")%string
    size output_dir ;;;
  create_and_save_image low_bytes_list (name ++ "_low")%string
    size output_dir.

(** [bake_vertex_data], lines 148-153. *)
Definition bake_vertex_data (offsets normals : list Q) (size : Z * Z)
    (name : string) : op unit :=
  sc <~ get_scene ;;
  let output_dir := abspath (output_dir sc) in
  write_output_image offsets (name ++ "_position")%string
    size output_dir ;;;
  write_output_image normals (name ++ "_normal")%string
    size output_dir.

(** [store_unit_settings], [set_metric_units] and
    [reset_unit_settings], lines 257-269. *)
Definition store_unit_settings : op (string * Q) :=
  sc <~ get_scene ;;
  ret (unit_system sc, scale_length sc).

Definition set_metric_units : op unit :=
  sc <~ get_scene ;;
  put_scene (set_units sc "METRIC" (rnd 0.01)).

Definition reset_unit_settings (original_settings : string * Q) : op unit :=
  sc <~ get_scene ;;
  put_scene (set_units sc (fst original_settings) (snd original_settings)).

Definition allowed_modifiers : list string :=
  ["ARMATURE"; "CAST"; "CURVE"; "DISPLACE"; "HOOK";
   "LAPLACIANDEFORM"; "LATTICE"; "MESH_DEFORM"; "MESH_SEQUENCE_CACHE";
   "SHRINKWRAP"; "SIMPLE_DEFORM"; "SMOOTH";
   "CORRECTIVE_SMOOTH"; "LAPLACIANSMOOTH";
   "SURFACE_DEFORM"; "WARP"; "WAVE"].

Definition is_in (s : string) (xs : list string) : bool :=
  existsb (String.eqb s) xs.

Inductive status : Type :=
| FINISHED
| CANCELLED.

(** [OBJECT_OT_ProcessAnimMeshes.execute], lines 293-356. *)
Definition execute : op status :=
  original_settings <~ store_unit_settings ;;
  set_metric_units ;;;
  units <~ get_scene ;;
  objects <~ (fun w =>
    (Ok (filter (fun ob => String.eqb (ob_type ob) "MESH")
                (selected_objects w)), w)) ;;
  let vertex_count :=
    fold_right Z.add 0
      (map (fun ob => Z.of_nat (List.length (vertices (ob_data ob))))
           objects) in
  frame_count <~ lift (frame_count_of units) ;;
  match find (fun t => negb (is_in t allowed_modifiers))
             (flat_map ob_modifiers objects) with
  | Some mod_type =>
      tell (EvReportError (ModifierNotAllowed mod_type)) ;;;
      ret CANCELLED
  | None =>
  if negb (String.eqb (unit_system units) "METRIC")
     || negb (Qeq_bool (round2 (scale_length units)) (rnd 0.01))
  then
    tell (EvReportError SceneUnitNotMetric) ;;;
    ret CANCELLED
  else if 2048 <? vertex_count then
    tell (EvReportError (VertexCountExceeded vertex_count)) ;;;
    ret CANCELLED
  else if 1024 <? frame_count then
    tell (EvReportError (FrameCountExceeded frame_count)) ;;;
    ret CANCELLED
  else
    sc <~ get_scene ;;
    let current_display_device := display_device sc in
    put_scene (set_display_device sc "None") ;;;
    myname <~ (fun w => (Ok (ob_name (active_object w)), w)) ;;
    meshes <~ get_per_frame_mesh_data objects ;;
    export_mesh_data <~ lift (getitem meshes 0) ;;
    obj <~ lift (create_export_mesh_object export_mesh_data) ;;
    '(offsets, normals) <~ get_vertex_data meshes ;;
    let texture_size := (vertex_count, frame_count) in
    bake_vertex_data offsets normals texture_size myname ;;;
    export_mesh myname ;;;
    sc <~ get_scene ;;
    put_scene (set_display_device sc current_display_device) ;;;
    reset_unit_settings original_settings ;;;
    ret FINISHED
  end.

End VertexAnimation.

(** The value the module gives the global. *)
Definition chunk_width : Z := 128.

(** ** Instances *)

Local Open Scope Q_scope.

(** Real arithmetic: no rounding at all. *)
Instance exact_arith : PyFloat := {| rnd := fun x => x |}.

(** [floor (log2 x)] for [x > 0]. *)
Definition ilog2 (x : Q) : Z :=
  let k := (Z.log2 (Qnum x) - Z.log2 (Zpos (Qden x)))%Z in
  if Qle_bool (2 ^ k) x then k else (k - 1)%Z.

(** Rounding of [x > 0] to 53 significant bits, ties to even, with the
    gradual underflow of binary64: the unit in the last place is
    [2^(ilog2 x - 52)], and [2^-1074] at least. *)
Definition round_pos (x : Q) : Q :=
  let e := Z.max (ilog2 x - 52) (-1074) in
  inject_Z (round_half_even (x / 2 ^ e)) * 2 ^ e.

Definition round_binary64 (x : Q) : Q :=
  if Qeq_bool x 0 then 0
  else if Qltb x 0 then - round_pos (- x)
  else round_pos x.

(** IEEE-754 binary64, rounding to nearest, ties to even (without the
    overflow to infinity). *)
Instance binary64 : PyFloat := {| rnd := round_binary64 |}.

(** A square root rounded down to a multiple of [2^-53]. *)
Definition Qsqrt (x : Q) : Q :=
  Z.sqrt (Qfloor (x * inject_Z (4 ^ 53))) # (2 ^ 53).

(** Vectors over the rationals, with the Euclidean length through
    [Qsqrt]. *)
Instance exact_vectors : Mathutils := {|
  vsub := fun '(ax, ay, az) '(bx, by_, bz) => (ax - bx, ay - by_, az - bz);
  vlength := fun '(ax, ay, az) => Qsqrt (ax * ax + ay * ay + az * az);
  vdiv := fun '(ax, ay, az) s => (ax / s, ay / s, az / s)
|}.

(** IEEE-754 binary32, rounding to nearest, ties to even: 24
    significant bits, and [2^-149] at least for the unit in the last
    place. *)
Definition round_pos32 (x : Q) : Q :=
  let e := Z.max (ilog2 x - 23) (-149) in
  inject_Z (round_half_even (x / 2 ^ e)) * 2 ^ e.

Definition round_binary32 (x : Q) : Q :=
  if Qeq_bool x 0 then 0
  else if Qltb x 0 then - round_pos32 (- x)
  else round_pos32 x.

Local Close Scope Q_scope.

(** A host for the examples: a file saved in [/home/user/vat/], whose
    new UV layers give the corners of a triangle [(0,0)], [(1,0)],
    [(1,1)], and which keeps UVs in binary32. *)
Definition blender : Bpy := {|
  abspath := fun path =>
    if String.prefix "//" path
    then ("/home/user/vat/"
            ++ String.substring 2 (String.length path - 2) path)%string
    else path;
  default_uv := fun _ i =>
    match (i mod 3)%nat with
    | 0%nat => (0, 0)%Q
    | 1%nat => (1, 0)%Q
    | _ => (1, 1)%Q
    end;
  single := round_binary32
|}.

(** ** Specification-side definitions *)

(** The 16-bit code [float_to_bytes] splits: its local [int_value]. *)
Definition int_value {F : PyFloat} (v : Q) : Z := int (fmul v 65535).

(** What the specification asks of the quantizer: [floor (v * 65535)]
    clamped to 16 bits, then split. *)
Definition clamp16 (n : Z) : Z := Z.max 0 (Z.min 65535 n).

Definition quantizer_spec (v : Q) : Z * Z :=
  let n := clamp16 (Qfloor (v * 65535)) in
  (Z.land (Z.shiftr n 8) 255, Z.land n 255).

(** [[f x for x in xs]], stopping at the first exception. *)
Fixpoint map_result {A B} (f : A -> result B) (xs : list A)
  : result (list B) :=
  match xs with
  | [] => Ok []
  | x :: xs' => y <- f x ;; ys <- map_result f xs' ;; Ok (y :: ys)
  end.

(** The invariants of a [bpy] mesh the add-on relies on: a UV layer has
    one entry per loop. *)
Definition uv_layers_wf (me : Mesh) : Prop :=
  Forall (fun l => List.length (uv_data l) = List.length (loops me))
         (uv_layers me).

(** The layers of a mesh after [create_export_mesh_object] has made sure
    there are two of them. *)
Definition two_layers {host : Bpy} (me : Mesh) : list UVLayer :=
  (uv_layers me
     ++ repeat (new_uv_layer me) (2 - List.length (uv_layers me)))%list.

(** A mesh of [n] vertices at the origin whose loops visit the given
    vertex indices; it has no UV layer yet. *)
Definition plain_mesh (n : nat) (loop_vertices : list Z) : Mesh :=
  {| vertices := repeat {| co := vzero; normal := vzero |} n;
     loops := loop_vertices;
     uv_layers := [] |}.

(** The images an operation has saved, in order. *)
Definition saved_images (evs : list event) : list ChunkImage :=
  flat_map (fun e => match e with
                     | EvSaveRender _ image => [image]
                     | _ => []
                     end) evs.

(** The width of a chunk without its two padding pixels. *)
Definition logical_width (image : ChunkImage) : Z := img_width image - 2.

Definition sum_widths (images : list ChunkImage) : Z :=
  fold_right Z.add 0 (map logical_width images).

(** Row [y] of an image, four floats a pixel. *)
Definition image_row (image : ChunkImage) (y : Z) : list Q :=
  slice (img_pixels image)
        (y * img_width image * 4) ((y + 1) * img_width image * 4).

(** The pixels of the columns [[a, b)] of row [y] of a plane. *)
Definition plane_columns (byte_list : list Q) (width y a b : Z) : list Q :=
  slice byte_list ((y * width + a) * 4) ((y * width + b) * 4).

(** The RGBA padding pixel, line 173. *)
Definition padding_pixel {F : PyFloat} : list Q :=
  [fdiv 127 255; fdiv 127 255; fdiv 127 255; 1%Q].

(** The pixel of one vertex in the offset plane and in the normal
    plane, for the scale [s] and the rest position [o] of the vertex. *)
Definition offset_pixel {F : PyFloat} {V : Mathutils}
    (s : Q) (o v : MeshVertex) : list Q :=
  let '(x, y, z) := vdiv (vsub (co v) (co o)) s in
  [fmul (fadd x 1) 0.5; fmul (fadd (- y) 1) 0.5; fmul (fadd z 1) 0.5; 1%Q].

Definition normal_pixel {F : PyFloat} (v : MeshVertex) : list Q :=
  let '(x, y, z) := normal v in
  [fmul (fadd x 1) 0.5; fmul (fadd y 1) 0.5; fmul (fadd z 1) 0.5; 1%Q].

(** The row of a frame in the offset plane and in the normal plane. *)
Definition offset_row {F : PyFloat} {V : Mathutils}
    (s : Q) (original : list MeshVertex) (me : Mesh) : list Q :=
  flat_map (fun '(o, v) => offset_pixel s o v)
           (combine original (vertices me)).

Definition normal_row {F : PyFloat} (me : Mesh) : list Q :=
  flat_map normal_pixel (vertices me).

(** Row [r] of a plane of [n] pixels a row. *)
Definition plane_row (plane : list Q) (n r : nat) : list Q :=
  firstn (4 * n) (skipn (r * (4 * n)) plane).

(** The number of vertices of a mesh. *)
Definition vertex_count_of (me : Mesh) : nat := List.length (vertices me).

(** A frame fits the rest frame when it has no more vertices. *)
Definition fits (original : list MeshVertex) (me : Mesh) : Prop :=
  (vertex_count_of me <= List.length original)%nat.

(** A plane of RGBA pixels whose colour channels all are [0.5]. *)
Inductive mid_grey : list Q -> Prop :=
| mid_grey_nil : mid_grey []
| mid_grey_pixel (r g b : Q) (rest : list Q) :
    (r == 0.5)%Q -> (g == 0.5)%Q -> (b == 0.5)%Q ->
    mid_grey rest -> mid_grey (r :: g :: b :: 1%Q :: rest).

(** Every frame has the vertex positions of the frame [first]. *)
Definition static_sequence (first : Mesh) (meshes : list Mesh) : Prop :=
  Forall (fun me => map co (vertices me) = map co (vertices first)) meshes.

(** The vertices of all the frames together. *)
Definition total_vertices (meshes : list Mesh) : nat :=
  fold_right Nat.add 0%nat (map vertex_count_of meshes).

(** A world with nothing selected and an empty log. *)
Definition blank_scene : Scene :=
  {| frame_start := 1; frame_end := 3; frame_step := 1;
     unit_system := "NONE"; scale_length := 1%Q;
     display_device := "sRGB"; output_dir := "//";
     scale_factor := 1%Q |}.

Definition blank_world : World :=
  {| scene := blank_scene; selected_objects := [];
     active_object := {| ob_name := "Cube"; ob_type := "MESH";
                         ob_data := plain_mesh 0 []; ob_modifiers := [] |};
     log := [] |}.

(** The mesh objects among the selected ones, and their vertices. *)
Definition mesh_objects (w : World) : list SceneObject :=
  filter (fun ob => String.eqb (ob_type ob) "MESH") (selected_objects w).

Definition total_vertex_count (objects : list SceneObject) : Z :=
  fold_right Z.add 0
    (map (fun ob => Z.of_nat (List.length (vertices (ob_data ob)))) objects).

(** The events of sampling, encoding and export. *)
Definition is_work (e : event) : bool :=
  match e with
  | EvReportError _ => false
  | EvFrameSet _ | EvSaveRender _ _ | EvExportFbx _ => true
  end.

(** The rounding error analysis of the UV formula: a bound [delta] on
    the relative error of one operation, and the magnitudes between
    which it applies. *)
Definition delta : Q := 0.000000000000001.
Definition tiny : Q := 0.000000000000000000000000000001.
Definition huge : Q := 1000000000000000000000000000000.

Definition safe (x : Q) : Prop := (x == 0 \/ (tiny <= x /\ x <= huge))%Q.

(** The largest vertex count the analysis covers, [2^32]. *)
Definition count_bound : Q := 4294967296.

(** The [u_coord] of line 99 for the chunk number [K], the pixel width
    [Wq], the denominator [D = Wq - 1] and the index in the chunk [I]. *)
Definition u_of {F : PyFloat} (K Wq D I : Q) : Q :=
  fadd (fadd K (fmul (fsub 1 (fmul 2 (fdiv 1.5 Wq))) (fdiv I D)))
       (fdiv 1.5 Wq).

(** A mesh of one vertex at [(x, 0, 0)], and a world whose selection is
    one mesh object of 2049 vertices. *)
Definition point_mesh (x : Q) : Mesh :=
  {| vertices := [{| co := (x, 0%Q, 0%Q); normal := (0%Q, 0%Q, 1%Q) |}];
     loops := [];
     uv_layers := [] |}.

Definition crowded_world : World :=
  {| scene := blank_scene;
     selected_objects :=
       [{| ob_name := "Crowd"; ob_type := "MESH";
           ob_data := plain_mesh 2049 []; ob_modifiers := ["ARMATURE"] |}];
     active_object := {| ob_name := "Crowd"; ob_type := "MESH";
                         ob_data := plain_mesh 2049 [];
                         ob_modifiers := ["ARMATURE"] |};
     log := [] |}.

(** The values [int (v * 65535)] is defined for: the product is a
    finite float.  Beyond them Python's [int] raises [OverflowError]. *)
Definition int_defined (v : Q) : Prop :=
  (Qabs (v * 65535) <= max_finite)%Q.

(** ** Definitions for the further properties *)


(** The size of a saved image, after the scaling of lines 205-206. *)
Definition final_size (image : ChunkImage) : Z * Z :=
  match img_scaled image with
  | Some size => size
  | None => (img_width image, img_height image)
  end.

(** The lengths of the offsets of the frames [ms] from the rest
    positions [original], in the order [get_vertex_data] scans them. *)
Definition offset_lengths {V : Mathutils}
    (original : list MeshVertex) (ms : list Mesh) : list Q :=
  flat_map (fun me => map (fun '(o, v) => vlength (vsub (co v) (co o)))
                          (combine original (vertices me))) ms.

(** The number of chunks of a plane [width] pixels wide. *)
Definition chunk_total (chunk_width width : Z) : Z :=
  width / chunk_width + (if width mod chunk_width =? 0 then 0 else 1).

(** The events of saving one plane, and of baking the two pairs of
    planes: one image for each chunk. *)
Definition plane_events {F : PyFloat} (chunk_width : Z) (byte_list : list Q)
    (name_postfix output_dir : string) (width height : Z) : list event :=
  map (fun i =>
         EvSaveRender
           (output_dir ++ name_postfix ++ "_part" ++ str i ++ ".png")%string
           (chunk_image chunk_width byte_list name_postfix width height
              (width / chunk_width) (width mod chunk_width) padding_pixel i))
      (range (chunk_total chunk_width width)).

Definition image_events {F : PyFloat} (chunk_width : Z) (pixel_list : list Q)
    (name output_dir : string) (width height : Z) : list event :=
  (plane_events chunk_width (fst (byte_planes pixel_list))
     (name ++ "_high") output_dir width height
   ++ plane_events chunk_width (snd (byte_planes pixel_list))
        (name ++ "_low") output_dir width height)%list.

Definition bake_events {F : PyFloat} (chunk_width : Z)
    (offsets normals : list Q) (name output_dir : string)
    (width height : Z) : list event :=
  (image_events chunk_width offsets (name ++ "_position")
     output_dir width height
   ++ image_events chunk_width normals (name ++ "_normal")
        output_dir width height)%list.

(** The pixel in column [x] of row [y] of a plane [width] pixels wide,
    and of an image: four floats. *)
Definition plane_pixel (plane : list Q) (width x y : Z) : list Q :=
  slice plane ((y * width + x) * 4) ((y * width + x) * 4 + 4).


(** The settings of a scene: all of it but the scale factor. *)
Definition settings (sc : Scene) : Z * Z * Z * string * Q * string * string :=
  (frame_start sc, frame_end sc, frame_step sc,
   unit_system sc, scale_length sc, display_device sc, output_dir sc).

(** What the helpers of the operator leave of a world: the settings of
    the scene; they append events of work to the log.  (Nothing is said
    of the selection, which [export_mesh] changes for the exporter.) *)
Definition untouched (w w' : World) : Prop :=
  settings (scene w') = settings (scene w) /\
  exists evs, log w' = (log w ++ evs)%list /\
              Forall (fun e => is_work e = true) evs.

Definition helper {A} (m : op A) : Prop :=
  forall w, untouched w (snd (m w)).

(** The scene after [set_metric_units], and after the display device
    is set to [None]. *)
Definition metric_scene {F : PyFloat} (sc : Scene) : Scene :=
  set_units sc "METRIC" (rnd 0.01).

Definition working_scene {F : PyFloat} (sc : Scene) : Scene :=
  set_display_device (metric_scene sc) "None".

(** The modifier [execute] rejects, if there is one. *)
Definition rejected_modifier (w : World) : option string :=
  find (fun t => negb (is_in t allowed_modifiers))
       (flat_map ob_modifiers (mesh_objects w)).

(** The work of [execute] once the checks have passed, lines 338-356. *)
Definition execute_work {F : PyFloat} {V : Mathutils} {host : Bpy}
    (chunk_width : Z)
    (evaluated_mesh : list SceneObject -> Z -> Mesh)
    (objects : list SceneObject) (vertex_count frame_count : Z)
    (current_display_device : string) (original_settings : string * Q)
  : op status :=
  myname <~ (fun w => (Ok (ob_name (active_object w)), w)) ;;
  meshes <~ get_per_frame_mesh_data evaluated_mesh objects ;;
  export_mesh_data <~ lift (getitem meshes 0) ;;
  obj <~ lift (create_export_mesh_object chunk_width export_mesh_data) ;;
  ' (offsets, normals) <~ get_vertex_data meshes ;;
  let texture_size := (vertex_count, frame_count) in
  bake_vertex_data chunk_width offsets normals texture_size myname ;;;
  export_mesh myname ;;;
  sc <~ get_scene ;;
  put_scene (set_display_device sc current_display_device) ;;;
  reset_unit_settings original_settings ;;;
  ret FINISHED.

(** The checks of [execute], lines 305-330, after the units have been
    set: the report of the first check that fails. *)
Definition failed_check {F : PyFloat} (w : World) (frame_count : Z)
  : option report :=
  match rejected_modifier w with
  | Some mod_type => Some (ModifierNotAllowed mod_type)
  | None =>
      if negb (Qeq_bool (round2 (rnd 0.01)) (rnd 0.01))
      then Some SceneUnitNotMetric
      else if 2048 <? total_vertex_count (mesh_objects w)
           then Some (VertexCountExceeded (total_vertex_count (mesh_objects w)))
           else if 1024 <? frame_count
                then Some (FrameCountExceeded frame_count)
                else None
  end.

(** A world whose frame range is empty. *)
Definition still_world : World :=
  with_scene blank_world
    {| frame_start := 5; frame_end := 5; frame_step := 1;
       unit_system := "IMPERIAL"; scale_length := 1%Q;
       display_device := "sRGB"; output_dir := "//";
       scale_factor := 1%Q |}.

(** A world whose selection is one mesh object of two vertices, and the
    mesh of the object at a frame: the second vertex moves with the
    frame. *)
Definition moving_mesh (frame : Z) : Mesh :=
  {| vertices := [{| co := (0, 0, 0)%Q; normal := (0, 0, 1)%Q |};
                  {| co := (inject_Z frame - 1, 0, 0)%Q;
                     normal := (0, 0, 1)%Q |}];
     loops := [0; 1; 1];
     uv_layers := [] |}.

Definition moving_world : World :=
  {| scene := blank_scene;
     selected_objects :=
       [{| ob_name := "Arm"; ob_type := "MESH";
           ob_data := moving_mesh 1; ob_modifiers := ["ARMATURE"] |};
        {| ob_name := "Lamp"; ob_type := "LIGHT";
           ob_data := plain_mesh 0 []; ob_modifiers := [] |}];
     active_object := {| ob_name := "Arm"; ob_type := "MESH";
                         ob_data := moving_mesh 1;
                         ob_modifiers := ["ARMATURE"] |};
     log := [] |}.

(** The largest chunk width and chunk number the analysis of the pixel
    columns covers, [2^12] and [2^20]. *)
Definition width_bound : Q := 4096.
Definition chunk_bound : Q := 1048576.



(** * Properties *)

Local Close Scope string_scope.
Local Open Scope Q_scope.

(** ** Rounding to the nearest integer *)

Lemma Qltb_spec (x y : Q) : Qltb x y = true <-> x < y.
Proof.
  unfold Qltb. rewrite negb_true_iff. split.
  - intros E. apply Qnot_le_lt. intros H. apply Qle_bool_iff in H. congruence.
  - intros H. destruct (Qle_bool y x) eqn:E; [|reflexivity].
    apply Qle_bool_iff in E. lra.
Qed.

Lemma Qltb_comp (x x' y y' : Q) : x == x' -> y == y' -> Qltb x y = Qltb x' y'.
Proof. intros Hx Hy. unfold Qltb. now rewrite Hx, Hy. Qed.

Lemma round_half_even_comp (x y : Q) :
  x == y -> round_half_even x = round_half_even y.
Proof.
  intros E. unfold round_half_even. rewrite (Qfloor_comp _ _ E).
  rewrite (Qltb_comp (x - inject_Z (Qfloor y)) (y - inject_Z (Qfloor y))
             0.5 0.5) by (rewrite ?E; reflexivity).
  rewrite (Qltb_comp 0.5 0.5 (x - inject_Z (Qfloor y))
             (y - inject_Z (Qfloor y))) by (rewrite ?E; reflexivity).
  reflexivity.
Qed.

Lemma round_half_even_cases (x : Q) :
  (round_half_even x = Qfloor x /\ x - inject_Z (Qfloor x) <= 0.5) \/
  (round_half_even x = (Qfloor x + 1)%Z /\ 0.5 <= x - inject_Z (Qfloor x)).
Proof.
  unfold round_half_even.
  destruct (Qltb (x - inject_Z (Qfloor x)) 0.5) eqn:E1.
  - apply Qltb_spec in E1. left. split; [reflexivity | lra].
  - destruct (Qltb 0.5 (x - inject_Z (Qfloor x))) eqn:E2.
    + apply Qltb_spec in E2. right. split; [reflexivity | lra].
    + assert (H1 : ~ x - inject_Z (Qfloor x) < 0.5)
        by (intros H; apply Qltb_spec in H; congruence).
      assert (H2 : ~ 0.5 < x - inject_Z (Qfloor x))
        by (intros H; apply Qltb_spec in H; congruence).
      destruct (Z.even (Qfloor x)); [left | right];
        (split; [reflexivity | lra]).
Qed.

Lemma round_half_even_err (x : Q) :
  Qabs (inject_Z (round_half_even x) - x) <= 0.5.
Proof.
  pose proof (Qfloor_le x) as Hf. pose proof (Qlt_floor x) as Hc.
  rewrite inject_Z_plus in Hc. change (inject_Z 1) with 1 in Hc.
  apply Qabs_Qle_condition.
  destruct (round_half_even_cases x) as [[-> H]|[-> H]].
  - lra.
  - rewrite inject_Z_plus. change (inject_Z 1) with 1. lra.
Qed.

Lemma round_half_even_Z (k : Z) : round_half_even (inject_Z k) = k.
Proof.
  unfold round_half_even. rewrite Qfloor_Z.
  assert (E : Qltb (inject_Z k - inject_Z k) 0.5 = true).
  { apply Qltb_spec. lra. }
  now rewrite E.
Qed.

Lemma round_half_even_mono (x y : Q) :
  x <= y -> (round_half_even x <= round_half_even y)%Z.
Proof.
  intros Hxy.
  pose proof (Qfloor_resp_le x y Hxy) as Hf.
  destruct (Z.eq_dec (Qfloor x) (Qfloor y)) as [E|E].
  - unfold round_half_even. rewrite E.
    set (f := Qfloor y) in *.
    destruct (Qltb (x - inject_Z f) 0.5) eqn:X1.
    + destruct (Qltb (y - inject_Z f) 0.5); [lia|].
      destruct (Qltb 0.5 (y - inject_Z f)); [lia|].
      destruct (Z.even f); lia.
    + assert (Hx1 : ~ x - inject_Z f < 0.5)
        by (intros H; apply Qltb_spec in H; congruence).
      assert (Y1 : Qltb (y - inject_Z f) 0.5 = false).
      { destruct (Qltb (y - inject_Z f) 0.5) eqn:Y; [|reflexivity].
        apply Qltb_spec in Y. exfalso. apply Hx1. lra. }
      rewrite Y1.
      destruct (Qltb 0.5 (x - inject_Z f)) eqn:X2.
      * apply Qltb_spec in X2.
        assert (Y2 : Qltb 0.5 (y - inject_Z f) = true)
          by (apply Qltb_spec; lra).
        rewrite Y2. lia.
      * destruct (Qltb 0.5 (y - inject_Z f)); [destruct (Z.even f); lia|].
        lia.
  - assert (Hlt : (Qfloor x + 1 <= Qfloor y)%Z) by lia.
    destruct (round_half_even_cases x) as [[-> _]|[-> _]];
      destruct (round_half_even_cases y) as [[-> _]|[-> _]]; lia.
Qed.

Lemma Qltb_false (x y : Q) : y <= x -> Qltb x y = false.
Proof.
  intros H. unfold Qltb. apply negb_false_iff. now apply Qle_bool_iff.
Qed.

Lemma round_half_even_near (x : Q) (k : Z) :
  Qabs (x - inject_Z k) < 0.5 -> round_half_even x = k.
Proof.
  intros H. apply Qabs_Qlt_condition in H. destruct H as [Hlo Hhi].
  pose proof (Qfloor_le x) as Hf. pose proof (Qlt_floor x) as Hc.
  rewrite inject_Z_plus in Hc. change (inject_Z 1) with 1 in Hc.
  assert (Hk : (k - 1 <= Qfloor x <= k)%Z).
  { assert (H1 : inject_Z k < inject_Z (Qfloor x + 2)).
    { rewrite inject_Z_plus. change (inject_Z 2) with 2. lra. }
    assert (H2 : inject_Z (Qfloor x) < inject_Z (k + 1)).
    { rewrite inject_Z_plus. change (inject_Z 1) with 1. lra. }
    rewrite <- Zlt_Qlt in H1, H2. lia. }
  unfold round_half_even.
  destruct (Z.eq_dec (Qfloor x) k) as [E|E].
  - rewrite E in *.
    rewrite (proj2 (Qltb_spec _ _)) by lra. reflexivity.
  - assert (E' : Qfloor x = (k - 1)%Z) by lia.
    rewrite E' in *.
    assert (E1 : inject_Z (k - 1) == inject_Z k - 1).
    { unfold Z.sub. rewrite inject_Z_plus, inject_Z_opp. reflexivity. }
    rewrite Qltb_false by lra.
    rewrite (proj2 (Qltb_spec _ _)) by lra. lia.
Qed.


(** ** Rounding to binary64 *)

Lemma pow2_pos (e : Z) : 0 < 2 ^ e.
Proof. apply Qpower_0_lt. reflexivity. Qed.

Lemma pow2_plus (a b : Z) : 2 ^ (a + b) == 2 ^ a * 2 ^ b.
Proof. apply Qpower_plus. discriminate. Qed.

Lemma pow2_le (a b : Z) : (a <= b)%Z -> 2 ^ a <= 2 ^ b.
Proof. intros H. apply Qpower_le_compat_l; [exact H | discriminate]. Qed.

Lemma pow2_lt (a b : Z) : (a < b)%Z -> 2 ^ a < 2 ^ b.
Proof. intros H. apply Qpower_lt_compat_l; [exact H | reflexivity]. Qed.

Lemma pow2_lt_inv (a b : Z) : 2 ^ a < 2 ^ b -> (a < b)%Z.
Proof. intros H. apply (Qpower_lt_compat_l_inv 2); [exact H | reflexivity]. Qed.

Lemma pow2_Z (a : Z) : (0 <= a)%Z -> inject_Z (2 ^ a) == 2 ^ a.
Proof. intros H. apply (Zpower_Qpower 2 a H). Qed.

Lemma Q_num_den (x : Q) : x * inject_Z (Zpos (Qden x)) == inject_Z (Qnum x).
Proof.
  destruct x as [n d]. unfold Qeq, Qmult, inject_Z. simpl. lia.
Qed.

Lemma ilog2_spec (x : Q) :
  0 < x -> 2 ^ ilog2 x <= x /\ x < 2 ^ (ilog2 x + 1).
Proof.
  intros Hx.
  assert (Hn : (0 < Qnum x)%Z).
  { destruct x as [n d]. unfold Qlt in Hx. simpl in *. lia. }
  set (a := Z.log2 (Qnum x)). set (b := Z.log2 (Zpos (Qden x))).
  pose proof (Z.log2_spec (Qnum x) Hn) as [Ha1 Ha2].
  pose proof (Z.log2_spec (Zpos (Qden x)) eq_refl) as [Hb1 Hb2].
  fold a in Ha1, Ha2. fold b in Hb1, Hb2.
  pose proof (Z.log2_nonneg (Qnum x)) as Ha0. fold a in Ha0.
  pose proof (Z.log2_nonneg (Zpos (Qden x))) as Hb0. fold b in Hb0.
  rewrite Zle_Qle, pow2_Z in Ha1, Hb1 by lia.
  rewrite Zlt_Qlt, pow2_Z in Ha2, Hb2 by lia.
  pose proof (Q_num_den x) as Hnd.
  pose proof (pow2_pos b) as Pb. pose proof (pow2_pos (a - b - 1)) as Pk.
  (* x < 2^(a - b + 1) *)
  assert (Hup : x < 2 ^ (a - b + 1)).
  { apply (Qmult_lt_r _ _ (2 ^ b) Pb).
    rewrite <- pow2_plus. replace (a - b + 1 + b)%Z with (Z.succ a) by lia.
    apply Qle_lt_trans with (x * inject_Z (Zpos (Qden x))); [|lra].
    apply Qmult_le_l; assumption. }
  assert (Hlo : 2 ^ (a - b - 1) < x).
  { apply (Qmult_lt_r _ _ (2 ^ (b + 1)) (pow2_pos _)).
    rewrite <- pow2_plus. replace (a - b - 1 + (b + 1))%Z with a by lia.
    apply Qle_lt_trans with (x * inject_Z (Zpos (Qden x))); [lra|].
    apply Qmult_lt_l; [assumption|].
    replace (b + 1)%Z with (Z.succ b) by lia. assumption. }
  unfold ilog2. fold a b.
  destruct (Qle_bool (2 ^ (a - b)) x) eqn:E.
  - apply Qle_bool_iff in E. split; assumption.
  - assert (x < 2 ^ (a - b)).
    { apply Qnot_le_lt. intros H. apply Qle_bool_iff in H. congruence. }
    replace (a - b - 1 + 1)%Z with (a - b)%Z by lia.
    split; [apply Qlt_le_weak|]; assumption.
Qed.

Lemma ilog2_unique (x : Q) (L : Z) :
  2 ^ L <= x -> x < 2 ^ (L + 1) -> ilog2 x = L.
Proof.
  intros H1 H2.
  assert (Hx : 0 < x) by (pose proof (pow2_pos L); lra).
  destruct (ilog2_spec x Hx) as [H3 H4].
  assert (ilog2 x < L + 1)%Z by (apply pow2_lt_inv; lra).
  assert (L < ilog2 x + 1)%Z by (apply pow2_lt_inv; lra).
  lia.
Qed.

Lemma ilog2_mono (x y : Q) : 0 < x -> x <= y -> (ilog2 x <= ilog2 y)%Z.
Proof.
  intros Hx Hxy.
  destruct (ilog2_spec x Hx) as [H1 _].
  destruct (ilog2_spec y ltac:(lra)) as [_ H2].
  assert (ilog2 x < ilog2 y + 1)%Z by (apply pow2_lt_inv; lra).
  lia.
Qed.

Lemma scaled_back (x : Q) (e : Z) : x / 2 ^ e * 2 ^ e == x.
Proof.
  unfold Qdiv. rewrite <- Qmult_assoc, (Qmult_comm (/ _)), Qmult_inv_r.
  - ring.
  - pose proof (pow2_pos e). lra.
Qed.

Lemma round_pos_nonneg (x : Q) : 0 < x -> 0 <= round_pos x.
Proof.
  intros Hx. unfold round_pos.
  set (e := Z.max (ilog2 x - 52) (-1074)).
  pose proof (pow2_pos e) as Pe.
  apply Qmult_le_0_compat; [|lra].
  change 0 with (inject_Z 0). rewrite <- Zle_Qle.
  rewrite <- (round_half_even_Z 0). apply round_half_even_mono.
  apply Qle_shift_div_l; [exact Pe|]. change (inject_Z 0) with 0. lra.
Qed.

Lemma round_pos_exact (x : Q) (m e0 : Z) :
  (0 < m < 2 ^ 53)%Z -> (-1074 <= e0)%Z -> x == inject_Z m * 2 ^ e0 ->
  round_pos x == x.
Proof.
  intros Hm He0 Hx.
  pose proof (pow2_pos e0) as P0.
  assert (Hm1 : 1 <= inject_Z m)
    by (change 1 with (inject_Z 1); rewrite <- Zle_Qle; lia).
  assert (Hm2 : inject_Z m < 2 ^ 53).
  { rewrite <- pow2_Z by lia. rewrite <- Zlt_Qlt. lia. }
  assert (Hpos : 0 < x) by (rewrite Hx; apply Qmult_lt_0_compat; lra).
  destruct (ilog2_spec x Hpos) as [HL _].
  assert (Hlt : x < 2 ^ (53 + e0)).
  { rewrite Hx, pow2_plus. apply Qmult_lt_r; assumption. }
  assert (HL' : (ilog2 x < 53 + e0)%Z) by (apply pow2_lt_inv; lra).
  unfold round_pos.
  set (e := Z.max (ilog2 x - 52) (-1074)).
  assert (Hee : (e <= e0)%Z) by (unfold e; lia).
  assert (Hq : x / 2 ^ e == inject_Z (m * 2 ^ (e0 - e))).
  { rewrite inject_Z_mult, pow2_Z by lia.
    apply Qeq_sym. unfold Qdiv.
    rewrite Hx. replace e0 with ((e0 - e) + e)%Z at 2 by lia.
    rewrite pow2_plus. field. pose proof (pow2_pos e). lra. }
  rewrite (round_half_even_comp _ _ Hq), round_half_even_Z, <- Hq.
  apply scaled_back.
Qed.

Lemma round_pos_rel (x : Q) :
  2 ^ (-1022)%Z <= x ->
  Qabs (round_pos x - x) <= x * 2 ^ (-53)%Z.
Proof.
  intros Hx.
  assert (Hpos : 0 < x) by (pose proof (pow2_pos (-1022)); lra).
  destruct (ilog2_spec x Hpos) as [HL HU].
  assert (HL' : (-1022 < ilog2 x + 1)%Z) by (apply pow2_lt_inv; lra).
  unfold round_pos.
  replace (Z.max (ilog2 x - 52) (-1074)) with (ilog2 x - 52)%Z by lia.
  set (e := (ilog2 x - 52)%Z).
  pose proof (pow2_pos e) as Pe.
  pose proof (round_half_even_err (x / 2 ^ e)) as Herr.
  set (r := round_half_even (x / 2 ^ e)) in *.
  assert (E : inject_Z r * 2 ^ e - x == (inject_Z r - x / 2 ^ e) * 2 ^ e).
  { rewrite <- (scaled_back x e) at 1. ring. }
  rewrite E, Qabs_Qmult, (Qabs_pos (2 ^ e)) by lra.
  apply Qle_trans with (0.5 * 2 ^ e).
  - apply Qmult_le_compat_r; lra.
  - assert (Ee : 0.5 * 2 ^ e == 2 ^ ilog2 x * 2 ^ (-53)%Z).
    { unfold e. replace (ilog2 x - 52)%Z with (ilog2 x + -53 + 1)%Z by lia.
      rewrite !pow2_plus. change (2 ^ 1) with 2. field. }
    rewrite Ee. apply Qmult_le_compat_r; [exact HL|].
    apply Qlt_le_weak, pow2_pos.
Qed.

Lemma round_pos_mono (x y : Q) :
  0 < x -> x <= y -> round_pos x <= round_pos y.
Proof.
  intros Hx Hxy.
  assert (Hy : 0 < y) by lra.
  pose proof (ilog2_mono x y Hx Hxy) as HLm.
  destruct (ilog2_spec x Hx) as [HLx HUx].
  destruct (ilog2_spec y Hy) as [HLy HUy].
  unfold round_pos.
  set (ex := Z.max (ilog2 x - 52) (-1074)).
  set (ey := Z.max (ilog2 y - 52) (-1074)).
  pose proof (pow2_pos ex) as Pex. pose proof (pow2_pos ey) as Pey.
  destruct (Z.eq_dec ex ey) as [E|E].
  - rewrite E. apply Qmult_le_compat_r; [|lra].
    rewrite <- Zle_Qle. apply round_half_even_mono.
    unfold Qdiv. apply Qmult_le_compat_r; [exact Hxy|].
    apply Qlt_le_weak, Qinv_lt_0_compat, Pey.
  - assert (Hlt : (ex + 1 <= ey)%Z) by (unfold ex, ey in *; lia).
    assert (Hey : ey = (ilog2 y - 52)%Z) by (unfold ex, ey in *; lia).
    apply Qle_trans with (2 ^ (52 + ey)).
    + (* the rounding of x stays below the next binade *)
      apply Qle_trans with (2 ^ 53 * 2 ^ ex).
      * apply Qmult_le_compat_r; [|lra].
        rewrite <- (pow2_Z 53) by lia. rewrite <- Zle_Qle.
        rewrite <- (round_half_even_Z (2 ^ 53)).
        apply round_half_even_mono. rewrite (pow2_Z 53) by lia.
        apply Qle_shift_div_r; [exact Pex|].
        rewrite <- pow2_plus.
        apply Qle_trans with (2 ^ (ilog2 x + 1)); [lra|].
        apply pow2_le. unfold ex. lia.
      * rewrite <- pow2_plus. apply pow2_le. lia.
    + rewrite pow2_plus. apply Qmult_le_compat_r; [|lra].
      rewrite <- (pow2_Z 52) by lia. rewrite <- Zle_Qle.
      rewrite <- (round_half_even_Z (2 ^ 52)).
      apply round_half_even_mono. rewrite (pow2_Z 52) by lia.
      apply Qle_shift_div_l; [exact Pey|].
      rewrite <- pow2_plus. replace (52 + ey)%Z with (ilog2 y) by lia.
      exact HLy.
Qed.

Lemma Qeq_bool_false (x : Q) : ~ x == 0 -> Qeq_bool x 0 = false.
Proof.
  intros H. destruct (Qeq_bool x 0) eqn:E; [|reflexivity].
  apply Qeq_bool_eq in E. contradiction.
Qed.

Lemma round_binary64_zero (x : Q) : x == 0 -> round_binary64 x = 0.
Proof.
  intros H. unfold round_binary64. now rewrite (Qeq_eq_bool _ _ H).
Qed.

Lemma round_binary64_pos (x : Q) : 0 < x -> round_binary64 x = round_pos x.
Proof.
  intros H. unfold round_binary64.
  rewrite Qeq_bool_false by lra.
  assert (E : Qltb x 0 = false).
  { destruct (Qltb x 0) eqn:E; [|reflexivity]. apply Qltb_spec in E. lra. }
  now rewrite E.
Qed.

Lemma round_binary64_neg (x : Q) :
  x < 0 -> round_binary64 x = - round_pos (- x).
Proof.
  intros H. unfold round_binary64.
  rewrite Qeq_bool_false by lra.
  assert (E : Qltb x 0 = true) by (apply Qltb_spec; exact H).
  now rewrite E.
Qed.

Lemma Q_sign_cases (x : Q) : x < 0 \/ x == 0 \/ 0 < x.
Proof.
  destruct (Q_dec x 0) as [[H|H]|H]; auto.
Qed.

Lemma round_binary64_mono (x y : Q) :
  x <= y -> round_binary64 x <= round_binary64 y.
Proof.
  intros Hxy.
  destruct (Q_sign_cases x) as [Hx|[Hx|Hx]];
    destruct (Q_sign_cases y) as [Hy|[Hy|Hy]]; try lra;
    rewrite ?(round_binary64_neg x), ?(round_binary64_neg y),
      ?(round_binary64_zero x), ?(round_binary64_zero y),
      ?(round_binary64_pos x), ?(round_binary64_pos y) by assumption.
  - apply Qopp_le_compat. apply round_pos_mono; lra.
  - pose proof (round_pos_nonneg (- x) ltac:(lra)). lra.
  - pose proof (round_pos_nonneg (- x) ltac:(lra)).
    pose proof (round_pos_nonneg y Hy). lra.
  - lra.
  - apply round_pos_nonneg, Hy.
  - apply round_pos_mono; lra.
Qed.

Lemma round_binary64_exact (x : Q) :
  representable x -> round_binary64 x == x.
Proof.
  intros (m & e & Hm & He & Hx).
  pose proof (pow2_pos e) as Pe.
  destruct (Z.lt_trichotomy m 0) as [Hneg|[->|Hpos]].
  - assert (Hm' : inject_Z m < 0)
      by (change 0 with (inject_Z 0); rewrite <- Zlt_Qlt; lia).
    assert (Hx0 : x < 0).
    { rewrite Hx. setoid_replace 0 with (0 * 2 ^ e) by ring.
      apply Qmult_lt_r; assumption. }
    rewrite round_binary64_neg by exact Hx0.
    assert (Hr : round_pos (- x) == - x).
    { apply (round_pos_exact (- x) (- m) e); [lia | lia |].
      rewrite Hx, inject_Z_opp. ring. }
    rewrite Hr. ring.
  - assert (H0 : x == 0) by (rewrite Hx; change (inject_Z 0) with 0; ring).
    rewrite (round_binary64_zero x H0), H0. reflexivity.
  - assert (Hm' : 0 < inject_Z m)
      by (change 0 with (inject_Z 0); rewrite <- Zlt_Qlt; lia).
    assert (Hx0 : 0 < x) by (rewrite Hx; apply Qmult_lt_0_compat; lra).
    rewrite round_binary64_pos by exact Hx0.
    apply (round_pos_exact x m e); [lia | lia | exact Hx].
Qed.

Lemma round_binary64_rel (x : Q) :
  min_normal <= Qabs x <= max_finite ->
  Qabs (round_binary64 x - x) <= Qabs x * unit_roundoff.
Proof.
  intros [Hlo _]. unfold min_normal, unit_roundoff in *.
  pose proof (pow2_pos (-1022)) as P.
  destruct (Q_sign_cases x) as [Hx|[Hx|Hx]].
  - rewrite (Qabs_neg x) in * by lra.
    rewrite round_binary64_neg by exact Hx.
    setoid_replace (- round_pos (- x) - x) with (- (round_pos (- x) - - x))
      by ring.
    rewrite Qabs_opp. now apply round_pos_rel.
  - assert (H0 : Qabs x == 0) by (rewrite Hx; reflexivity).
    rewrite H0 in Hlo. exfalso. apply (Qlt_not_le _ _ P Hlo).
  - rewrite (Qabs_pos x) in * by lra.
    rewrite round_binary64_pos by exact Hx.
    now apply round_pos_rel.
Qed.

(** The two roundings obey the laws. *)
Instance binary64_laws : PyFloatLaws binary64.
Proof.
  split.
  - exact round_binary64_mono.
  - exact round_binary64_exact.
  - exact round_binary64_rel.
Qed.

Instance exact_arith_laws : PyFloatLaws exact_arith.
Proof.
  split.
  - intros x y Hxy; exact Hxy.
  - intros x _; reflexivity.
  - intros x _. cbn [rnd exact_arith].
    setoid_replace (x - x) with 0 by ring.
    apply Qmult_le_0_compat; [apply Qabs_nonneg | discriminate].
Qed.

Instance exact_vectors_laws : MathutilsLaws exact_vectors.
Proof.
  split.
  - intros [[x y] z]. simpl. repeat split; ring.
  - intros [[x y] z] [Hx [Hy Hz]]. cbn [vlength exact_vectors].
    unfold Qsqrt. rewrite Hx, Hy, Hz. reflexivity.
  - intros [[x y] z] s [Hx [Hy Hz]] Hs. simpl.
    rewrite Hx, Hy, Hz. repeat split; unfold Qdiv; ring.
Qed.
(** ** Rounding in general *)

Section FloatFacts.
Context {F : PyFloat} {FL : PyFloatLaws F}.

Lemma rnd_proper (x y : Q) : x == y -> rnd x == rnd y.
Proof.
  intros E. apply Qle_antisym; apply rnd_mono; rewrite E; apply Qle_refl.
Qed.

Lemma representable_Z (k : Z) :
  (Z.abs k < 2 ^ 53)%Z -> representable (inject_Z k).
Proof.
  intros Hk. exists k, 0%Z. repeat split; try lia.
  simpl. ring.
Qed.

Lemma rnd_Z (k : Z) : (Z.abs k < 2 ^ 53)%Z -> rnd (inject_Z k) == inject_Z k.
Proof. intros Hk. apply rnd_exact, representable_Z, Hk. Qed.

Lemma int_nonneg (x : Q) : 0 <= x -> int x = Qfloor x.
Proof.
  destruct x as [n d]. unfold int, Qfloor, Qle. simpl. intros H.
  apply Z.quot_div_nonneg; lia.
Qed.

Lemma int_rnd_between (x : Q) (k : Z) :
  (0 <= k < 2 ^ 53 - 1)%Z -> inject_Z k <= x -> x <= inject_Z (k + 1) ->
  (k <= int (rnd x) <= k + 1)%Z.
Proof.
  intros Hk Hlo Hhi.
  assert (Hk0 : inject_Z k <= rnd x).
  { rewrite <- (rnd_Z k) by lia. apply rnd_mono, Hlo. }
  assert (Hk1 : rnd x <= inject_Z (k + 1)).
  { rewrite <- (rnd_Z (k + 1)) by lia. apply rnd_mono, Hhi. }
  assert (H0 : 0 <= rnd x).
  { apply Qle_trans with (inject_Z k); [|exact Hk0].
    change 0 with (inject_Z 0). rewrite <- Zle_Qle. lia. }
  rewrite int_nonneg by exact H0.
  split.
  - rewrite <- (Qfloor_Z k). apply Qfloor_resp_le, Hk0.
  - rewrite <- (Qfloor_Z (k + 1)). apply Qfloor_resp_le, Hk1.
Qed.

End FloatFacts.

Section RoundingError.
Context {F : PyFloat} {FL : PyFloatLaws F}.

Lemma rnd_zero : rnd 0 == 0.
Proof. apply (rnd_Z 0). simpl. lia. Qed.

Lemma rnd_near (x : Q) :
  safe x -> x * (1 - delta) <= rnd x /\ rnd x <= x * (1 + delta).
Proof.
  intros [Hx | [Hlo Hhi]].
  - rewrite (rnd_proper x 0 Hx), rnd_zero, Hx. split; lra.
  - assert (Hpos : 0 < x) by (unfold tiny in Hlo; lra).
    pose proof (rnd_rel x) as Hr.
    rewrite (Qabs_pos x) in Hr by lra.
    assert (Hmin : min_normal <= tiny)
      by (unfold Qle; vm_compute; discriminate).
    assert (Hmax : huge <= max_finite)
      by (unfold Qle; vm_compute; discriminate).
    assert (Hu : unit_roundoff <= delta)
      by (unfold Qle; vm_compute; discriminate).
    assert (Hu0 : 0 <= unit_roundoff)
      by (unfold Qle; vm_compute; discriminate).
    specialize (Hr ltac:(split; lra)).
    apply Qabs_Qle_condition in Hr.
    assert (Hxd : x * unit_roundoff <= x * delta).
    { apply Qmult_le_l; [exact Hpos | exact Hu]. }
    split; lra.
Qed.

Lemma inv_bounds (D B x : Q) :
  0 < D -> 0 <= x -> x * D <= B -> x <= B * / D.
Proof.
  intros HD Hx H. apply Qle_shift_div_l; assumption.
Qed.

End RoundingError.


Local Open Scope Q_scope.

(** ** Rounding in the UV formula *)

Section Gap.
Context {F : PyFloat} {FL : PyFloatLaws F}.
Variables K Wq D : Q.
Hypothesis HD : D == Wq - 1.
Hypothesis HK : K == 0 \/ 1 <= K.
Hypothesis HKW : K * Wq <= count_bound.
Hypothesis HW4 : 4 <= Wq.
Hypothesis HWN : Wq <= count_bound.

Local Abbreviation g0 := (/ Wq).
Local Abbreviation g1 := (/ D).
Local Abbreviation pco := (rnd (1.5 / Wq)).
Local Abbreviation sf := (rnd (1 - rnd (2 * rnd (1.5 / Wq)))).

Lemma g0_facts : g0 * Wq == 1 /\ 0 < g0 /\ g0 <= 0.25 /\
                 1 <= count_bound * g0 /\ K <= count_bound * g0.
Proof.
  assert (H0 : g0 * Wq == 1).
  { rewrite Qmult_comm. apply Qmult_inv_r. lra. }
  assert (Hp : 0 < g0) by (apply Qinv_lt_0_compat; lra).
  assert (HK0 : 0 <= K) by (destruct HK; lra).
  split; [exact H0|]. split; [exact Hp|]. split; [|split].
  - apply Qle_shift_inv_r; lra.
  - apply (inv_bounds Wq count_bound 1); lra.
  - apply (inv_bounds Wq count_bound K); lra.
Qed.

Lemma g1_facts : g1 * (Wq - 1) == 1 /\ 0 < g1 /\ g1 <= 0.5 /\
                 1 <= count_bound * g1 /\ K <= count_bound * g1.
Proof.
  assert (H0 : g1 * (Wq - 1) == 1).
  { rewrite <- HD, Qmult_comm. apply Qmult_inv_r. lra. }
  assert (Hp : 0 < g1) by (apply Qinv_lt_0_compat; lra).
  assert (HK0 : 0 <= K) by (destruct HK; lra).
  split; [exact H0|]. split; [exact Hp|]. split; [|split].
  - apply Qle_shift_inv_r; lra.
  - apply (inv_bounds D count_bound 1); unfold count_bound in *; lra.
  - apply (inv_bounds D count_bound K); try lra. rewrite HD. lra.
Qed.

Lemma pco_facts :
  (1.5 * g0) * (1 - delta) <= pco <= (1.5 * g0) * (1 + delta).
Proof.
  destruct g0_facts as (H0 & Hp & Hq & H1 & HKg).
  assert (E : 1.5 / Wq == 1.5 * g0) by reflexivity.
  rewrite (rnd_proper _ _ E).
  apply rnd_near. right. unfold tiny, huge, count_bound in *. split; lra.
Qed.

Lemma sf_facts :
  (1 - 2 * pco * (1 + delta)) * (1 - delta) <= sf /\
  sf <= (1 - 2 * pco * (1 - delta)) * (1 + delta) /\
  0.2 <= sf /\ sf <= 1.01.
Proof.
  destruct g0_facts as (H0 & Hp & Hq & H1 & HKg).
  destruct pco_facts as [Hpl Hpu].
  assert (Htp : safe (2 * pco)).
  { right. unfold tiny, huge, delta, count_bound in *. split; lra. }
  apply rnd_near in Htp. destruct Htp as [Htl Htu].
  assert (He : safe (1 - rnd (2 * pco))).
  { right. unfold tiny, huge, delta, count_bound in *. split; lra. }
  apply rnd_near in He. destruct He as [Hel Heu].
  unfold delta in *.
  repeat apply conj; lra.
Qed.

(** The roundings between an index in the chunk and its [u]. *)
Lemma chain (I : Q) :
  (I == 0 \/ 1 <= I) -> I <= Wq - 1 ->
  let tau := I * g1 in
  let t := rnd (I / D) in
  let P := sf * t in
  let q := rnd P in
  let X := K + q in
  let s := rnd X in
  let Y := s + pco in
  (0 <= tau <= 1) /\
  (tau * (1 - delta) <= t <= tau * (1 + delta)) /\
  (0 <= P) /\ (0.2 * t <= P) /\ (P <= 1.01 * t) /\
  (P * (1 - delta) <= q <= P * (1 + delta)) /\
  (X * (1 - delta) <= s <= X * (1 + delta)) /\
  (Y * (1 - delta) <= u_of K Wq D I <= Y * (1 + delta)).
Proof.
  intros HI HIW tau t P q X s Y.
  destruct g0_facts as (H0 & Hp & Hq & H1 & HKg).
  destruct g1_facts as (G0 & Gp & Gq & G1 & GKg).
  destruct pco_facts as [Hpl Hpu].
  destruct sf_facts as (_ & _ & Hsl & Hsu).
  assert (HK0 : 0 <= K) by (destruct HK; lra).
  assert (HI0 : 0 <= I) by (destruct HI; lra).
  assert (Htau : 0 <= tau <= 1).
  { unfold tau. split; [apply Qmult_le_0_compat; lra|].
    rewrite <- G0. rewrite (Qmult_comm g1). apply Qmult_le_r; lra. }
  assert (Htau_safe : safe tau /\ (tau == 0 \/ g1 <= tau)).
  { destruct HI as [E|E].
    - unfold tau. split; [left|left]; rewrite E; ring.
    - assert (g1 <= tau).
      { unfold tau. rewrite <- (Qmult_1_l g1) at 1. apply Qmult_le_r; lra. }
      split; right; [|assumption].
      unfold tiny, huge, count_bound in *. split; lra. }
  destruct Htau_safe as [Hts Htz].
  assert (Ht : tau * (1 - delta) <= t <= tau * (1 + delta)).
  { unfold t. assert (E : I / D == tau) by reflexivity.
    rewrite (rnd_proper _ _ E). now apply rnd_near. }
  assert (Ht0 : 0 <= t) by (unfold delta in *; lra).
  assert (HP0 : 0 <= P) by (apply Qmult_le_0_compat; lra).
  assert (HP1 : 0.2 * t <= P) by (unfold P; apply Qmult_le_compat_r; lra).
  assert (HP2 : P <= 1.01 * t) by (unfold P; apply Qmult_le_compat_r; lra).
  assert (HPs : safe P).
  { destruct Htz as [E|E].
    - left. unfold P, t.
      assert (E' : I / D == 0) by (rewrite <- E; reflexivity).
      rewrite (rnd_proper _ _ E'), rnd_zero. ring.
    - right. unfold tiny, huge, delta, count_bound in *. split; lra. }
  assert (Hq' : P * (1 - delta) <= q <= P * (1 + delta))
    by (now apply rnd_near).
  assert (HXs : safe X).
  { unfold X. destruct HK as [E|E].
    - destruct HPs as [EP|EP].
      + left. unfold q. rewrite (rnd_proper _ _ EP), rnd_zero, E. ring.
      + right. unfold tiny, huge, delta, count_bound in *. split; lra.
    - right. unfold tiny, huge, delta, count_bound in *. split; lra. }
  assert (Hs' : X * (1 - delta) <= s <= X * (1 + delta))
    by (now apply rnd_near).
  assert (HYs : safe Y).
  { right. unfold Y, X in *.
    unfold tiny, huge, delta, count_bound in *. split; lra. }
  assert (Hu : Y * (1 - delta) <= u_of K Wq D I <= Y * (1 + delta))
    by (now apply rnd_near).
  repeat apply conj; try tauto.
Qed.

Variables I1 I2 : Q.
Hypothesis HI1 : I1 == 0 \/ 1 <= I1.
Hypothesis HI12 : I1 + 1 <= I2.
Hypothesis HI2 : I2 <= Wq - 1.

(** In a chunk at least four pixels wide the roundings cannot undo the
    step between two indices, nor carry [u] out of the interval of its
    chunk. *)
Lemma uv_gap :
  u_of K Wq D I1 < u_of K Wq D I2 /\
  K < u_of K Wq D I1 /\ u_of K Wq D I2 < K + 1.
Proof.
  destruct g0_facts as (H0 & Hp & Hq & H1 & HKg).
  destruct g1_facts as (G0 & Gp & Gq & G1 & GKg).
  destruct pco_facts as [Hpl Hpu].
  destruct sf_facts as (Hsl' & Hsu' & Hsl & Hsu).
  assert (HK0 : 0 <= K) by (destruct HK; lra).
  assert (HI2' : I2 == 0 \/ 1 <= I2) by (right; destruct HI1; lra).
  destruct (chain I1 HI1 ltac:(lra))
    as (Ha1 & Hb1 & Hc1 & Hd1 & He1 & Hf1 & Hg1 & Hh1).
  destruct (chain I2 HI2' HI2)
    as (Ha2 & Hb2 & Hc2 & Hd2 & He2 & Hf2 & Hg2 & Hh2).
  cbv zeta in *.
  set (t1 := rnd (I1 / D)) in *.
  set (t2 := rnd (I2 / D)) in *.
  set (q1 := rnd (sf * t1)) in *.
  set (q2 := rnd (sf * t2)) in *.
  set (s1 := rnd (K + q1)) in *.
  set (s2 := rnd (K + q2)) in *.
  assert (Htau : I1 * g1 + g1 <= I2 * g1).
  { setoid_replace (I1 * g1 + g1) with ((I1 + 1) * g1) by ring.
    apply Qmult_le_r; lra. }
  assert (Hdt : 0 <= t2 - t1).
  { unfold delta, count_bound in *. lra. }
  assert (HdP : 0.2 * (t2 - t1) <= sf * t2 - sf * t1).
  { setoid_replace (sf * t2 - sf * t1) with (sf * (t2 - t1)) by ring.
    apply Qmult_le_compat_r; lra. }
  assert (HP2 : sf * t2 <= sf * (1 + delta)).
  { apply Qmult_le_l; unfold delta in *; lra. }
  unfold delta, count_bound in *.
  repeat apply conj; lra.
Qed.

End Gap.
(** ** Quantizer *)

Lemma split_bytes (n : Z) :
  let h := Z.land (Z.shiftr n 8) 255 in
  let l := Z.land n 255 in
  (0 <= h < 256 /\ 0 <= l < 256 /\ h * 256 + l = n mod 65536)%Z.
Proof.
  cbv zeta.
  change 255%Z with (Z.ones 8).
  rewrite !Z.land_ones by lia.
  rewrite Z.shiftr_div_pow2 by lia.
  change (2 ^ 8)%Z with 256%Z.
  pose proof (Z.mod_pos_bound (n / 256) 256 ltac:(lia)).
  pose proof (Z.mod_pos_bound n 256 ltac:(lia)).
  repeat split; try lia.
  rewrite (Z.mul_comm _ 256).
  change 65536%Z with (256 * 256)%Z.
  rewrite Z.rem_mul_r by lia. lia.
Qed.

Section QuantizerFacts.
Context {F : PyFloat} {FL : PyFloatLaws F}.

Lemma float_to_bytes_int_value (v : Q) :
  float_to_bytes v =
  (Z.land (Z.shiftr (int_value v) 8) 255, Z.land (int_value v) 255).
Proof. reflexivity. Qed.

Lemma byte_planes_map (pixel_list : list Q) :
  byte_planes pixel_list =
  (map (fun v => fdiv (inject_Z (fst (float_to_bytes v))) 255) pixel_list,
   map (fun v => fdiv (inject_Z (snd (float_to_bytes v))) 255) pixel_list).
Proof.
  unfold byte_planes.
  enough (G : forall hs ls,
    fold_left
      (fun '(high_bytes_list, low_bytes_list) pixel =>
         let '(high_byte, low_byte) := float_to_bytes pixel in
         (high_bytes_list ++ [fdiv (inject_Z high_byte) 255],
          low_bytes_list ++ [fdiv (inject_Z low_byte) 255]))
      pixel_list (hs, ls) =
    (hs ++ map (fun v => fdiv (inject_Z (fst (float_to_bytes v))) 255)
           pixel_list,
     ls ++ map (fun v => fdiv (inject_Z (snd (float_to_bytes v))) 255)
           pixel_list))
    by apply (G [] []).
  induction pixel_list as [|p ps IH]; intros hs ls; simpl.
  - now rewrite !app_nil_r.
  - destruct (float_to_bytes p) as [h l] eqn:E. rewrite IH. simpl.
    now rewrite <- !app_assoc.
Qed.

Lemma int_value_mono (v w : Q) :
  0 <= v -> v <= w -> (int_value v <= int_value w)%Z.
Proof.
  intros Hv Hvw. unfold int_value, fmul.
  assert (H0 : 0 <= rnd (v * 65535)).
  { change 0 with (inject_Z 0). rewrite <- (rnd_Z 0) by (simpl; lia).
    apply rnd_mono. change (inject_Z 0) with 0. lra. }
  assert (Hm : rnd (v * 65535) <= rnd (w * 65535)) by (apply rnd_mono; lra).
  rewrite !int_nonneg by lra.
  apply Qfloor_resp_le, Hm.
Qed.

Lemma int_value_near (v : Q) :
  0 <= v <= 1 ->
  (0 <= int_value v <= 65535)%Z /\
  Qabs (inject_Z (int_value v) - v * 65535) <= 1.
Proof.
  intros [Hv0 Hv1]. unfold int_value, fmul.
  set (x := v * 65535).
  assert (Hx0 : 0 <= x) by (unfold x; lra).
  assert (Hx1 : x <= 65535) by (unfold x; lra).
  set (k := Qfloor x).
  assert (Hk0 : (0 <= k)%Z).
  { unfold k. rewrite <- (Qfloor_Z 0). apply Qfloor_resp_le, Hx0. }
  assert (Hk1 : (k <= 65535)%Z).
  { unfold k. rewrite <- (Qfloor_Z 65535). apply Qfloor_resp_le, Hx1. }
  pose proof (Qfloor_le x) as Hfl. fold k in Hfl.
  pose proof (Qlt_floor x) as Hlt. fold k in Hlt.
  destruct (int_rnd_between x k) as [Hi0 Hi1]; try lia; try lra.
  assert (Htop : (int (rnd x) <= 65535)%Z).
  { assert (Hr : rnd x <= 65535).
    { change 65535 with (inject_Z 65535).
      rewrite <- (rnd_Z 65535) by (simpl; lia).
      apply rnd_mono, Hx1. }
    assert (H0 : 0 <= rnd x).
    { change 0 with (inject_Z 0). rewrite <- (rnd_Z 0) by (simpl; lia).
      apply rnd_mono, Hx0. }
    rewrite int_nonneg by exact H0.
    rewrite <- (Qfloor_Z 65535). apply Qfloor_resp_le, Hr. }
  split; [lia|].
  apply Qabs_Qle_condition.
  assert (Hc : int (rnd x) = k \/ int (rnd x) = (k + 1)%Z) by lia.
  rewrite inject_Z_plus in Hlt. change (inject_Z 1) with 1 in Hlt.
  destruct Hc as [-> | ->].
  - lra.
  - rewrite inject_Z_plus. change (inject_Z 1) with 1. lra.
Qed.

(** A byte is read back from its plane value [byte / 255.0] by
    rounding the value times 255. *)
Lemma byte_of_plane_value (b : Z) :
  (0 <= b < 256)%Z -> round_half_even (fdiv (inject_Z b) 255 * 255) = b.
Proof.
  intros Hb. apply round_half_even_near. unfold fdiv.
  assert (Hb0 : 0 <= inject_Z b)
    by (change 0 with (inject_Z 0); rewrite <- Zle_Qle; lia).
  assert (Hb1 : inject_Z b <= 255)
    by (change 255 with (inject_Z 255); rewrite <- Zle_Qle; lia).
  assert (E : inject_Z b / 255 == inject_Z b * (1 # 255)) by reflexivity.
  assert (Hs : safe (inject_Z b / 255)).
  { destruct (Z.eq_dec b 0) as [->|Hne]; [left; reflexivity|].
    right. assert (1 <= inject_Z b)
      by (change 1 with (inject_Z 1); rewrite <- Zle_Qle; lia).
    rewrite E. unfold tiny, huge. split; lra. }
  destruct (rnd_near _ Hs) as [Hlo Hhi].
  set (x := inject_Z b / 255) in *.
  apply Qabs_Qlt_condition. unfold delta in *. split; lra.
Qed.

(** C1.  Quantization round trip: a value [v] of [[0,1]] at position
    [i] of a pixel list is split into bytes [high_byte], [low_byte]
    such that [(high_byte * 256 + low_byte) / 65535] is within
    [1 / 65535] of [v]; the planes [write_output_image] emits hold
    [high_byte / 255.0] and [low_byte / 255.0] at position [i], and the
    two bytes are read back from these values. *)
Theorem quantizer_round_trip (pixel_list : list Q) (i : nat) (v : Q) :
  nth_error pixel_list i = Some v ->
  0 <= v <= 1 ->
  exists high_byte low_byte : Z,
    float_to_bytes v = (high_byte, low_byte) /\
    (0 <= high_byte < 256)%Z /\ (0 <= low_byte < 256)%Z /\
    Qabs (inject_Z (high_byte * 256 + low_byte) / 65535 - v) <= 1 / 65535 /\
    nth_error (fst (byte_planes pixel_list)) i
      = Some (fdiv (inject_Z high_byte) 255) /\
    nth_error (snd (byte_planes pixel_list)) i
      = Some (fdiv (inject_Z low_byte) 255) /\
    round_half_even (fdiv (inject_Z high_byte) 255 * 255) = high_byte /\
    round_half_even (fdiv (inject_Z low_byte) 255 * 255) = low_byte.
Proof.
  intros Hi Hv.
  destruct (int_value_near v Hv) as [Hrange Hnear].
  pose proof (split_bytes (int_value v)) as Hs. cbv zeta in Hs.
  destruct Hs as [Hh [Hl Hsum]].
  rewrite Z.mod_small in Hsum by lia.
  exists (Z.land (Z.shiftr (int_value v) 8) 255), (Z.land (int_value v) 255).
  split; [apply float_to_bytes_int_value|].
  split; [exact Hh|]. split; [exact Hl|].
  split.
  - rewrite Hsum.
    apply Qabs_Qle_condition in Hnear. apply Qabs_Qle_condition.
    unfold Qdiv. change (/ 65535) with (1 # 65535).
    lra.
  - rewrite byte_planes_map.
    cbn [fst snd]. rewrite !nth_error_map, Hi.
    cbn [option_map]. rewrite float_to_bytes_int_value.
    split; [reflexivity|]. split; [reflexivity|].
    split; apply byte_of_plane_value; assumption.
Qed.

(** C9, as amended.  [float_to_bytes] does not clamp.  For every [v]
    whose product with 65535 is finite, so that [int] is defined, the
    bytes are the two low-order bytes of [int (v * 65535)], that is
    this integer modulo [65536]; for [v] in [[0,1]] the integer lies in
    [[0, 65535]] already, so the bytes read back as the integer itself,
    and the 16-bit value is non-decreasing in [v]. *)
Theorem float_to_bytes_wraps (v w : Q) :
  (int_defined v ->
   let '(high_byte, low_byte) := float_to_bytes v in
   (0 <= high_byte < 256)%Z /\ (0 <= low_byte < 256)%Z /\
   (high_byte * 256 + low_byte = int_value v mod 65536)%Z) /\
  (0 <= v <= 1 ->
   (0 <= int_value v <= 65535)%Z /\
   (fst (float_to_bytes v) * 256 + snd (float_to_bytes v)
    = int_value v)%Z) /\
  (0 <= v -> v <= w -> w <= 1 ->
   (fst (float_to_bytes v) * 256 + snd (float_to_bytes v)
    <= fst (float_to_bytes w) * 256 + snd (float_to_bytes w))%Z).
Proof.
  pose proof (split_bytes (int_value v)) as Hs. cbv zeta in Hs.
  destruct Hs as [Hh [Hl Hsum]].
  rewrite float_to_bytes_int_value.
  split; [intros _; now repeat split|].
  split.
  - intros Hv. destruct (int_value_near v Hv) as [Hrange _].
    split; [exact Hrange|]. simpl.
    rewrite Hsum. apply Z.mod_small. lia.
  - intros Hv0 Hvw Hw1.
    rewrite (float_to_bytes_int_value w). simpl.
    pose proof (split_bytes (int_value w)) as Hs'. cbv zeta in Hs'.
    destruct Hs' as [_ [_ Hsum']].
    destruct (int_value_near v) as [Hrv _]; [lra|].
    destruct (int_value_near w) as [Hrw _]; [lra|].
    rewrite Hsum, Hsum', !Z.mod_small by lia.
    now apply int_value_mono.
Qed.

End QuantizerFacts.

Lemma quantizer_round_trip_witness :
  exists high_byte low_byte : Z,
    float_to_bytes (F := binary64) 0.5 = (high_byte, low_byte) /\
    (0 <= high_byte < 256)%Z /\ (0 <= low_byte < 256)%Z /\
    Qabs (inject_Z (high_byte * 256 + low_byte) / 65535 - 0.5)
      <= 1 / 65535 /\
    nth_error (fst (byte_planes (F := binary64) [1; 0.5])) 1
      = Some (fdiv (F := binary64) (inject_Z high_byte) 255) /\
    nth_error (snd (byte_planes (F := binary64) [1; 0.5])) 1
      = Some (fdiv (F := binary64) (inject_Z low_byte) 255) /\
    round_half_even (fdiv (F := binary64) (inject_Z high_byte) 255 * 255)
    = high_byte /\
    round_half_even (fdiv (F := binary64) (inject_Z low_byte) 255 * 255)
    = low_byte.
Proof.
  apply (quantizer_round_trip (F := binary64) [1; 0.5] 1 0.5).
  - reflexivity.
  - split; discriminate.
Defined.

(** The value [1.5] is quantized to the bytes of [98302 mod 65536], not
    to the saturated [(255, 255)] the specification describes. *)
Lemma float_to_bytes_clamp_counterexample :
  float_to_bytes (F := binary64) 1.5 = (127, 254)%Z /\
  quantizer_spec 1.5 = (255, 255)%Z /\
  float_to_bytes (F := binary64) 1.5 <> quantizer_spec 1.5.
Proof.
  split; [vm_compute; reflexivity|].
  split; [vm_compute; reflexivity|].
  vm_compute. discriminate.
Qed.

Lemma float_to_bytes_wraps_witness :
  (let '(high_byte, low_byte) := float_to_bytes (F := binary64) 1.5 in
   (0 <= high_byte < 256)%Z /\ (0 <= low_byte < 256)%Z /\
   (high_byte * 256 + low_byte
    = int_value (F := binary64) 1.5 mod 65536)%Z) /\
  (0 <= int_value (F := binary64) 0.25 <= 65535)%Z /\
  (fst (float_to_bytes (F := binary64) 0.25) * 256
   + snd (float_to_bytes (F := binary64) 0.25)
   <= fst (float_to_bytes (F := binary64) 0.5) * 256
      + snd (float_to_bytes (F := binary64) 0.5))%Z.
Proof.
  pose proof (float_to_bytes_wraps (F := binary64) 1.5 0.5) as [H0 _].
  pose proof (float_to_bytes_wraps (F := binary64) 0.25 0.5) as [_ [H1 H2]].
  split; [|split].
  - apply H0. unfold int_defined, Qle. vm_compute. discriminate.
  - apply H1. split; discriminate.
  - apply H2; discriminate.
Defined.

(** ** Atlas UV generator *)

Local Open Scope Z_scope.

Lemma setitem_app {A} (done rest : list A) (r x : A) :
  setitem (done ++ r :: rest) (List.length done) x = Ok (done ++ x :: rest).
Proof.
  induction done as [|d done IH]; simpl; [reflexivity|].
  now rewrite IH.
Qed.

Section UVFacts.
Context {F : PyFloat} {FL : PyFloatLaws F} {host : Bpy}.
Variable texture_size : Z.

(** The loop over [me.loops] writes, at each loop, the UV of its
    vertex; it stops at the first loop whose UV raises. *)
Lemma uv_loop_spec (chunks remainder : Z) (vs : list Z) :
  forall (k : nat) (done rest : list (Q * Q)),
    List.length done = k ->
    List.length rest = List.length vs ->
    for_each (combine (seq k (List.length vs)) vs)
      (fun data '(loop_index, vertex_index) =>
         uv <- loop_uv texture_size chunks remainder vertex_index ;;
         setitem data loop_index (store_uv uv))
      (done ++ rest)
    = (uvs <- map_result (loop_uv texture_size chunks remainder) vs ;;
       Ok (done ++ map store_uv uvs)).
Proof.
  induction vs as [|v vs IH]; intros k done rest Hk Hrest.
  - destruct rest; [|discriminate]. reflexivity.
  - destruct rest as [|r rest]; [discriminate|].
    simpl.
    destruct (loop_uv texture_size chunks remainder v) as [uv|e];
      [|reflexivity].
    simpl. rewrite <- Hk, setitem_app. simpl.
    replace (done ++ store_uv uv :: rest)
      with ((done ++ [store_uv uv]) ++ rest)
      by now rewrite <- app_assoc.
    rewrite (IH (S (List.length done)) (done ++ [store_uv uv]) rest).
    + destruct (map_result _ vs); simpl; [|reflexivity].
      now rewrite <- app_assoc.
    + rewrite length_app. simpl. lia.
    + simpl in Hrest. lia.
Qed.

Lemma two_layers_second (me : Mesh) :
  uv_layers_wf me ->
  exists l0 l1 ls,
    two_layers me = l0 :: l1 :: ls /\
    List.length (uv_data l1) = List.length (loops me).
Proof.
  unfold uv_layers_wf, two_layers. intros Hwf.
  destruct (uv_layers me) as [|a [|b ls]]; simpl.
  - exists (new_uv_layer me), (new_uv_layer me), []. split; [reflexivity|].
    simpl. now rewrite length_map, length_seq.
  - exists a, (new_uv_layer me), []. split; [reflexivity|].
    simpl. now rewrite length_map, length_seq.
  - exists a, b, ls. rewrite app_nil_r. split; [reflexivity|].
    inversion Hwf as [|? ? _ Hb]; subst. inversion Hb; subst. assumption.
Qed.

(** [create_export_mesh_object] raises what the first failing loop
    raises, and otherwise stores the UVs of the loops, in loop order and
    as the layer keeps them, in the layer it names [vertex_anim]. *)
Lemma create_export_mesh_object_spec (me : Mesh) :
  texture_size <> 0 ->
  uv_layers_wf me ->
  let n := Z.of_nat (List.length (vertices me)) in
  create_export_mesh_object texture_size me =
  (uvs <- map_result
            (loop_uv texture_size (n / texture_size) (n mod texture_size))
            (loops me) ;;
   match two_layers me with
   | l0 :: _ :: ls =>
       Ok {| vertices := vertices me; loops := loops me;
             uv_layers :=
               l0 :: {| uv_name := "vertex_anim";
                        uv_data := map store_uv uvs |} :: ls |}
   | _ => Raise IndexError
   end).
Proof.
  intros HC Hwf n.
  destruct (two_layers_second me Hwf) as (l0 & l1 & ls & Hl & Hlen).
  unfold create_export_mesh_object. fold (two_layers me). rewrite Hl.
  unfold floordiv, mod_. apply Z.eqb_neq in HC. rewrite HC.
  cbn [getitem nth_error Py.bind]. fold n.
  unfold indexed.
  pose proof (uv_loop_spec (n / texture_size) (n mod texture_size)
                (loops me) 0%nat [] (uv_data l1) eq_refl Hlen) as Hloop.
  cbn [app] in Hloop. rewrite Hloop.
  destruct (map_result _ (loops me)); reflexivity.
Qed.

Lemma loop_uv_unfold (chunks remainder idx : Z) :
  texture_size <> 0 ->
  let w := current_pixel_width texture_size chunks remainder
             (idx / texture_size) in
  loop_uv texture_size chunks remainder idx =
  (pixel_center_offset <- truediv 1.5 (inject_Z w) ;;
   t <- truediv (inject_Z (idx mod texture_size)) (inject_Z (w - 1)) ;;
   Ok (fadd (fadd (inject_Z (idx / texture_size))
                  (fmul (fsub 1 (fmul 2 pixel_center_offset)) t))
            pixel_center_offset,
       fdiv 128 255)).
Proof.
  intros HC w. unfold loop_uv, floordiv, mod_.
  apply Z.eqb_neq in HC. rewrite HC. reflexivity.
Qed.

Lemma truediv_ok (x : Q) (d : Z) :
  d <> 0 -> truediv x (inject_Z d) = Ok (fdiv x (inject_Z d)).
Proof.
  intros Hd. unfold truediv.
  destruct (Qeq_bool (inject_Z d) 0) eqn:E; [|reflexivity].
  apply Qeq_bool_eq in E. exfalso. apply Hd.
  unfold Qeq, inject_Z in E. simpl in E. lia.
Qed.

Lemma inject_Z_nonzero (d : Z) : d <> 0 -> ~ (inject_Z d == 0)%Q.
Proof.
  intros Hd E. apply Hd. unfold Qeq, inject_Z in E. simpl in E. lia.
Qed.

(** A chunk at least two pixels wide gets its UV. *)
Lemma loop_uv_ok (chunks remainder idx : Z) :
  texture_size <> 0 ->
  let w := current_pixel_width texture_size chunks remainder
             (idx / texture_size) in
  w <> 0 -> w <> 1 ->
  loop_uv texture_size chunks remainder idx =
  Ok (fadd (fadd (inject_Z (idx / texture_size))
                 (fmul (fsub 1 (fmul 2 (fdiv 1.5 (inject_Z w))))
                       (fdiv (inject_Z (idx mod texture_size))
                             (inject_Z (w - 1)))))
           (fdiv 1.5 (inject_Z w)),
      fdiv 128 255).
Proof.
  intros HC w Hw0 Hw1. rewrite loop_uv_unfold by exact HC. fold w.
  rewrite !truediv_ok by lia. reflexivity.
Qed.

(** C2 (the code's behaviour).  A loop whose chunk is one pixel wide
    makes the UV computation divide by [current_pixel_width - 1 = 0]: it
    raises [ZeroDivisionError] instead of yielding
    [u = chunk_number + 0.5]. *)
Theorem single_column_chunk_raises (vertex_count idx : Z) :
  texture_size <> 0 ->
  current_pixel_width texture_size (vertex_count / texture_size)
    (vertex_count mod texture_size) (idx / texture_size) = 1 ->
  loop_uv texture_size (vertex_count / texture_size)
    (vertex_count mod texture_size) idx = Raise ZeroDivisionError.
Proof.
  intros HC Hw. rewrite loop_uv_unfold by exact HC. rewrite Hw.
  reflexivity.
Qed.

(** C10.  When the vertex count is a positive multiple of the chunk
    width, every valid vertex index lies in a full chunk: the chunk
    number is below [chunks], the pixel width is the chunk width, the
    two denominators are not zero and the UV is computed. *)
Theorem exact_multiple_uses_full_chunks (vertex_count idx : Z) :
  1 < texture_size ->
  0 < vertex_count ->
  vertex_count mod texture_size = 0 ->
  0 <= idx < vertex_count ->
  let chunks := vertex_count / texture_size in
  let remainder := vertex_count mod texture_size in
  let chunk_number := idx / texture_size in
  let w := current_pixel_width texture_size chunks remainder chunk_number in
  chunk_number < chunks /\
  w = texture_size /\
  ~ (inject_Z w == 0)%Q /\
  ~ (inject_Z (w - 1) == 0)%Q /\
  exists u, loop_uv texture_size chunks remainder idx = Ok (u, fdiv 128 255).
Proof.
  intros HC Hn Hmod Hidx chunks remainder chunk_number w.
  assert (Hlt : chunk_number < chunks).
  { unfold chunk_number, chunks.
    apply Z.div_lt_upper_bound; [lia|].
    rewrite <- Z.div_exact in Hmod by lia. lia. }
  assert (Hw : w = texture_size).
  { unfold w, current_pixel_width.
    apply Z.ltb_lt in Hlt. now rewrite Hlt. }
  split; [exact Hlt|]. split; [exact Hw|].
  rewrite Hw.
  split; [apply inject_Z_nonzero; lia|].
  split; [apply inject_Z_nonzero; lia|].
  eexists. apply loop_uv_ok; fold chunk_number; fold w; lia.
Qed.

End UVFacts.

Lemma single_column_chunk_raises_witness :
  loop_uv (F := binary64) 128 (129 / 128) (129 mod 128) 128
  = Raise ZeroDivisionError /\
  create_export_mesh_object (F := binary64) (host := blender) 128
    (plain_mesh 129 [0; 1; 128; 2])
  = Raise ZeroDivisionError.
Proof.
  split.
  - apply (single_column_chunk_raises (F := binary64) 128 129 128).
    + discriminate.
    + reflexivity.
  - reflexivity.
Defined.

Lemma exact_multiple_uses_full_chunks_witness :
  255 / 128 < 256 / 128 /\
  current_pixel_width 128 (256 / 128) (256 mod 128) (255 / 128) = 128 /\
  exists u,
    loop_uv (F := binary64) 128 (256 / 128) (256 mod 128) 255
    = Ok (u, fdiv (F := binary64) 128 255).
Proof.
  destruct (exact_multiple_uses_full_chunks (F := binary64) 128 256 255)
    as (H1 & H2 & _ & _ & H3); try reflexivity.
  - split; [discriminate | reflexivity].
  - exact (conj H1 (conj H2 H3)).
Defined.

Local Open Scope Q_scope.

(** *** Determinism and order *)

Section UVOrder.
Context {F : PyFloat} {FL : PyFloatLaws F} {host : Bpy}.
Variable texture_size : Z.

Lemma map_result_nth {A B} (f : A -> result B) (xs : list A) (ys : list B) :
  map_result f xs = Ok ys ->
  forall i x, nth_error xs i = Some x ->
    exists y, f x = Ok y /\ nth_error ys i = Some y.
Proof.
  revert ys. induction xs as [|a xs IH]; intros ys H i x Hi.
  - destruct i; discriminate.
  - cbn [map_result] in H.
    destruct (f a) as [b|] eqn:Ea; [|discriminate]. cbn [Py.bind] in H.
    destruct (map_result f xs) as [bs|]; [|discriminate].
    cbn [Py.bind] in H. injection H as <-.
    destruct i as [|i]; cbn [nth_error] in *.
    + injection Hi as <-. now exists b.
    + now apply (IH bs eq_refl).
Qed.

(** The UV of a loop is a function of its vertex index: it is what
    the layer keeps of what [loop_uv] gives for this index. *)
Lemma uv_of_vertex_index (me me' : Mesh) :
  texture_size <> 0%Z ->
  uv_layers_wf me ->
  create_export_mesh_object texture_size me = Ok me' ->
  let n := Z.of_nat (List.length (vertices me)) in
  exists data,
    nth_error (uv_layers me') 1
    = Some {| uv_name := "vertex_anim"; uv_data := data |} /\
    forall i vertex_index,
      nth_error (loops me) i = Some vertex_index ->
      exists uv,
        loop_uv texture_size (n / texture_size) (n mod texture_size)
          vertex_index = Ok uv /\
        nth_error data i = Some (store_uv uv).
Proof.
  intros HC Hwf Hrun n.
  rewrite (create_export_mesh_object_spec texture_size me HC Hwf) in Hrun.
  fold n in Hrun.
  destruct (map_result _ (loops me)) as [uvs|] eqn:Huvs; [|discriminate].
  cbn [Py.bind] in Hrun.
  destruct (two_layers me) as [|l0 [|l1 ls]]; try discriminate.
  injection Hrun as <-. exists (map store_uv uvs). split; [reflexivity|].
  intros i vi Hi.
  destruct (map_result_nth _ _ _ Huvs i vi Hi) as (uv & Huv & Hnth).
  exists uv. split; [exact Huv|].
  rewrite nth_error_map, Hnth. reflexivity.
Qed.

Lemma inject_Z_nat_cases (k : Z) :
  (0 <= k)%Z -> inject_Z k == 0 \/ 1 <= inject_Z k.
Proof.
  intros Hk. destruct (Z.eq_dec k 0) as [->|Hne]; [now left|].
  right. change 1 with (inject_Z 1). rewrite <- Zle_Qle. lia.
Qed.

(** The place of a valid vertex index in its chunk. *)
Lemma chunk_geometry (vertex_count idx : Z) :
  (0 < texture_size)%Z -> (0 <= idx < vertex_count)%Z ->
  let cn := (idx / texture_size)%Z in
  let w := current_pixel_width texture_size (vertex_count / texture_size)
             (vertex_count mod texture_size) cn in
  (0 <= cn)%Z /\ (0 <= idx mod texture_size < w)%Z /\
  (cn * w <= vertex_count)%Z /\ (w <= vertex_count)%Z.
Proof.
  intros HC Hidx cn w.
  pose proof (Z.div_mod idx texture_size ltac:(lia)) as Hi.
  pose proof (Z.mod_pos_bound idx texture_size HC) as Hir.
  pose proof (Z.div_mod vertex_count texture_size ltac:(lia)) as Hn.
  pose proof (Z.mod_pos_bound vertex_count texture_size HC) as Hnr.
  assert (Hcn : (0 <= cn)%Z) by (apply Z.div_pos; lia).
  assert (Hle : (cn <= vertex_count / texture_size)%Z)
    by (apply Z.div_le_mono; lia).
  fold cn in Hi.
  unfold w, current_pixel_width.
  destruct (Z.ltb_spec cn (vertex_count / texture_size)) as [Hlt|Hge].
  - repeat split; try lia; nia.
  - assert (cn = vertex_count / texture_size)%Z by lia.
    repeat split; try lia; nia.
Qed.

(** C4, as amended.  The UV of a loop is a function of its vertex
    index: two loops at the same vertex get the same [(u, v)], the one
    [loop_uv] computes, as the layer keeps it.  Within a chunk that is
    at least four pixels wide, the [u] that is computed strictly
    increases with the index in the chunk and stays
    strictly between the chunk number and the chunk number plus one, so
    that it starts one higher in the next chunk.  (Vertex counts up to
    [2^32]; narrower chunks are left out.) *)
Theorem uv_deterministic_and_increasing (vertex_count idx1 idx2 : Z) :
  (0 < texture_size)%Z ->
  (forall me me' i j vertex_index,
      uv_layers_wf me ->
      create_export_mesh_object texture_size me = Ok me' ->
      nth_error (loops me) i = Some vertex_index ->
      nth_error (loops me) j = Some vertex_index ->
      exists data uv,
        nth_error (uv_layers me') 1
        = Some {| uv_name := "vertex_anim"; uv_data := data |} /\
        nth_error data i = Some uv /\ nth_error data j = Some uv) /\
  ((vertex_count <= 2 ^ 32)%Z ->
   (0 <= idx1 < idx2)%Z -> (idx2 < vertex_count)%Z ->
   (idx1 / texture_size = idx2 / texture_size)%Z ->
   (4 <= current_pixel_width texture_size (vertex_count / texture_size)
           (vertex_count mod texture_size) (idx1 / texture_size))%Z ->
   exists u1 u2 : Q,
     loop_uv texture_size (vertex_count / texture_size)
       (vertex_count mod texture_size) idx1 = Ok (u1, fdiv 128 255) /\
     loop_uv texture_size (vertex_count / texture_size)
       (vertex_count mod texture_size) idx2 = Ok (u2, fdiv 128 255) /\
     u1 < u2 /\
     inject_Z (idx1 / texture_size) < u1 /\
     u2 < inject_Z (idx1 / texture_size) + 1).
Proof.
  intros HC. split.
  - intros me me' i j vi Hwf Hrun Hi Hj.
    destruct (uv_of_vertex_index me me' ltac:(lia) Hwf Hrun)
      as (data & Hdata & Hloops).
    destruct (Hloops i vi Hi) as (uv & Huv & Hdi).
    destruct (Hloops j vi Hj) as (uv' & Huv' & Hdj).
    rewrite Huv in Huv'. injection Huv' as <-.
    now exists data, (store_uv uv).
  - intros Hn Hidx Hidx2 Hsame Hw.
    pose proof (chunk_geometry vertex_count idx1 HC ltac:(lia)) as G1.
    pose proof (chunk_geometry vertex_count idx2 HC ltac:(lia)) as G2.
    pose proof (Z.div_mod idx1 texture_size ltac:(lia)) as Hd1.
    pose proof (Z.div_mod idx2 texture_size ltac:(lia)) as Hd2.
    cbv zeta in G1, G2. rewrite <- Hsame in G2, Hd2.
    set (cn := (idx1 / texture_size)%Z) in *.
    set (w := current_pixel_width texture_size (vertex_count / texture_size)
                (vertex_count mod texture_size) cn) in *.
    destruct G1 as (Hcn & Hi1 & Hcw & Hwn).
    destruct G2 as (_ & Hi2 & _ & _).
    exists (u_of (inject_Z cn) (inject_Z w) (inject_Z (w - 1))
                 (inject_Z (idx1 mod texture_size))),
      (u_of (inject_Z cn) (inject_Z w) (inject_Z (w - 1))
            (inject_Z (idx2 mod texture_size))).
    split.
    { rewrite loop_uv_ok; fold cn; fold w; try lia. reflexivity. }
    split.
    { rewrite loop_uv_ok; rewrite <- ?Hsame; fold cn; fold w; try lia.
      reflexivity. }
    apply uv_gap.
    + unfold Z.sub. rewrite inject_Z_plus, inject_Z_opp. reflexivity.
    + now apply inject_Z_nat_cases.
    + rewrite <- inject_Z_mult. unfold count_bound.
      change 4294967296 with (inject_Z (2 ^ 32)). rewrite <- Zle_Qle. lia.
    + change 4 with (inject_Z 4). rewrite <- Zle_Qle. lia.
    + unfold count_bound.
      change 4294967296 with (inject_Z (2 ^ 32)). rewrite <- Zle_Qle. lia.
    + apply inject_Z_nat_cases. lia.
    + change 1 with (inject_Z 1). rewrite <- inject_Z_plus, <- Zle_Qle. lia.
    + change 1 with (inject_Z 1).
      unfold Qminus. rewrite <- inject_Z_opp, <- inject_Z_plus, <- Zle_Qle.
      lia.
Qed.

End UVOrder.

Local Open Scope Z_scope.

(** In a mesh of 130 vertices the vertices 128 and 129 share chunk 1,
    which is two pixels wide; [u] falls from 1.75 to 1.25 between
    them. *)
Lemma uv_decreases_counterexample :
  128 / 128 = 129 / 128 /\
  128 mod 128 < 129 mod 128 /\
  exists u0 u1 v : Q,
    loop_uv (F := binary64) 128 (130 / 128) (130 mod 128) 128
    = Ok (u0, v) /\
    loop_uv (F := binary64) 128 (130 / 128) (130 mod 128) 129
    = Ok (u1, v) /\
    (u0 == 1.75)%Q /\ (u1 == 1.25)%Q /\ (u1 < u0)%Q.
Proof.
  split; [reflexivity|]. split; [reflexivity|].
  eexists _, _, _. split; [reflexivity|]. split; [reflexivity|].
  split; [reflexivity|]. split; reflexivity.
Qed.

Lemma uv_deterministic_and_increasing_witness :
  (exists me',
      create_export_mesh_object (F := binary64) (host := blender) 128
        (plain_mesh 256 [5; 6; 5]) = Ok me' /\
      exists data uv,
        nth_error (uv_layers me') 1
        = Some {| uv_name := "vertex_anim"; uv_data := data |} /\
        nth_error data 0 = Some uv /\ nth_error data 2 = Some uv) /\
  exists u1 u2 : Q,
    loop_uv (F := binary64) 128 (256 / 128) (256 mod 128) 5
    = Ok (u1, fdiv (F := binary64) 128 255) /\
    loop_uv (F := binary64) 128 (256 / 128) (256 mod 128) 6
    = Ok (u2, fdiv (F := binary64) 128 255) /\
    (u1 < u2)%Q /\ (inject_Z (5 / 128) < u1)%Q /\
    (u2 < inject_Z (5 / 128) + 1)%Q.
Proof.
  destruct (uv_deterministic_and_increasing (F := binary64) (host := blender)
              128 256 5 6)
    as [Hdet Hinc]; [lia|].
  split.
  - eexists. split; [reflexivity|].
    apply (Hdet (plain_mesh 256 [5; 6; 5]) _ 0%nat 2%nat 5);
      [constructor | reflexivity | reflexivity | reflexivity].
  - apply Hinc; [simpl; lia | lia | lia | reflexivity |].
    unfold current_pixel_width. simpl. lia.
Defined.

(** ** Chunked image builder *)

Lemma log_emit_all (evs : list event) (w : World) :
  log (fold_left emit evs w) = (log w ++ evs)%list /\
  scene (fold_left emit evs w) = scene w /\
  selected_objects (fold_left emit evs w) = selected_objects w /\
  active_object (fold_left emit evs w) = active_object w.
Proof.
  revert w. induction evs as [|e evs IH]; intros w; simpl.
  - now rewrite app_nil_r.
  - destruct (IH (emit w e)) as (Hl & Hs & Ho & Ha).
    rewrite Hl, Hs, Ho, Ha. simpl. now rewrite <- app_assoc.
Qed.

Lemma for_each_op_tell {A} (f : A -> event) (xs : list A) (w : World) :
  for_each_op xs (fun x => tell (f x)) w
  = (Ok tt, fold_left emit (map f xs) w).
Proof.
  revert w. induction xs as [|x xs IH]; intros w; simpl; [reflexivity|].
  unfold bind_op at 1. unfold tell at 1. apply IH.
Qed.

Lemma slice_inrange {A} (xs : list A) (a b : Z) :
  0 <= a <= b -> b <= Z.of_nat (List.length xs) ->
  slice xs a b = firstn (Z.to_nat (b - a)) (skipn (Z.to_nat a) xs).
Proof.
  intros Hab Hb. unfold slice, slice_bound.
  destruct (Z.ltb_spec a 0); [lia|]. destruct (Z.ltb_spec b 0); [lia|].
  now rewrite !Z.min_l by lia.
Qed.

Lemma slice_length {A} (xs : list A) (a b : Z) :
  0 <= a <= b -> b <= Z.of_nat (List.length xs) ->
  Z.of_nat (List.length (slice xs a b)) = b - a.
Proof.
  intros Hab Hb. rewrite slice_inrange by assumption.
  rewrite length_firstn, length_skipn. lia.
Qed.

Lemma fold_rows {A} (p : list A) (f : Z -> list A) (ys : list Z) :
  forall acc,
    fold_left (fun chunk_bytes y => ((chunk_bytes ++ p) ++ f y) ++ p) ys acc
    = (acc ++ List.concat (map (fun y => p ++ f y ++ p) ys))%list.
Proof.
  induction ys as [|y ys IH]; intros acc; simpl.
  - now rewrite app_nil_r.
  - rewrite IH. now rewrite <- !app_assoc.
Qed.

(** In a concatenation of rows of one length [L], the [L] elements from
    position [k * L] are row [k]. *)
Lemma concat_uniform_row {A} (L : nat) (rows : list (list A)) :
  Forall (fun r => List.length r = L) rows ->
  forall k row,
    nth_error rows k = Some row ->
    firstn L (skipn (k * L) (List.concat rows)) = row.
Proof.
  intros Hall. induction Hall as [|r rows Hr _ IH]; intros k row Hk.
  - destruct k; discriminate.
  - destruct k as [|k]; simpl in *.
    + inversion Hk; subst. rewrite <- (Nat.add_0_r (List.length row)) at 1.
      rewrite firstn_app_2. simpl. apply app_nil_r.
    + rewrite skipn_app, skipn_all2 by lia.
      replace (L + k * L - List.length r)%nat with (k * L)%nat by lia.
      simpl. now apply IH.
Qed.

Lemma concat_uniform_length {A} (L : nat) (rows : list (list A)) :
  Forall (fun r => List.length r = L) rows ->
  List.length (List.concat rows) = (List.length rows * L)%nat.
Proof.
  induction 1 as [|r rows Hr _ IH]; simpl; [reflexivity|].
  rewrite length_app, IH, Hr. reflexivity.
Qed.

Lemma nth_error_range (n : Z) (k : nat) :
  Z.of_nat k < n -> nth_error (range n) k = Some (Z.of_nat k).
Proof.
  intros Hk. unfold range.
  rewrite nth_error_map, nth_error_seq.
  destruct (Nat.ltb_spec k (Z.to_nat n)); [reflexivity | lia].
Qed.

Lemma length_range (n : Z) : 0 <= n -> Z.of_nat (List.length (range n)) = n.
Proof. intros Hn. unfold range. rewrite length_map, length_seq. lia. Qed.

Section ChunkFacts.
Context {F : PyFloat} {FL : PyFloatLaws F}.
Variable C : Z.
Hypothesis C_pos : 0 < C.

(** The pixel buffer of one chunk: every row is a padding pixel, the
    pixels of the chunk's columns and a padding pixel. *)
Lemma chunk_image_rows (byte_list : list Q) (name : string)
    (W H chunk_count remainder_width : Z) (padding : list Q) (i lw : Z) :
  0 <= W -> 0 <= H -> 0 <= i -> 0 <= lw -> i * C + lw <= W ->
  Z.of_nat (List.length byte_list) = W * H * 4 ->
  List.length padding = 4%nat ->
  lw = (if i =? chunk_count then remainder_width else C) ->
  let image := chunk_image C byte_list name W H chunk_count remainder_width
                 padding i in
  img_width image = lw + 2 /\
  img_height image = H /\
  forall y, 0 <= y < H ->
    image_row image y
    = (padding ++ plane_columns byte_list W y (i * C) (i * C + lw)
         ++ padding)%list /\
    Z.of_nat (List.length (plane_columns byte_list W y (i * C) (i * C + lw)))
    = 4 * lw.
Proof.
  intros HW HH Hi Hlw Hfit Hlen Hpad Hlw_eq image.
  assert (Hwidth : img_width image = lw + 2).
  { unfold image, chunk_image. cbn [img_width]. rewrite Hlw_eq.
    destruct (i =? chunk_count); reflexivity. }
  split; [exact Hwidth|]. split; [reflexivity|].
  set (row := fun y : Z =>
         (padding ++ plane_columns byte_list W y (i * C) (i * C + lw)
            ++ padding)%list).
  assert (Hcols : forall y, 0 <= y < H ->
            Z.of_nat (List.length
                        (plane_columns byte_list W y (i * C) (i * C + lw)))
            = 4 * lw).
  { intros y Hy. unfold plane_columns. rewrite slice_length; nia. }
  assert (Hpixels : img_pixels image = List.concat (map row (range H))).
  { unfold image, chunk_image. cbn [img_pixels].
    rewrite (fold_rows padding
               (fun y => slice byte_list ((y * W + i * C) * 4)
                           (if i =? chunk_count
                            then (y * W + i * C) * 4 + remainder_width * 4
                            else (y * W + i * C) * 4 + C * 4))).
    cbn [app]. f_equal. apply map_ext. intros y. unfold row, plane_columns.
    do 3 f_equal. rewrite Hlw_eq. destruct (i =? chunk_count); ring. }
  assert (Hrows : Forall (fun r => List.length r = Z.to_nat (4 * (lw + 2)))
                         (map row (range H))).
  { apply Forall_forall. intros r Hr. apply in_map_iff in Hr.
    destruct Hr as (y & <- & Hy). unfold range in Hy.
    apply in_map_iff in Hy. destruct Hy as (k & <- & Hk).
    apply in_seq in Hk. unfold row. rewrite !length_app, Hpad.
    pose proof (Hcols (Z.of_nat k) ltac:(lia)). lia. }
  intros y Hy. split; [|now apply Hcols].
  unfold image_row. rewrite Hwidth, Hpixels.
  rewrite slice_inrange.
  - replace (Z.to_nat ((y + 1) * (lw + 2) * 4 - y * (lw + 2) * 4))
      with (Z.to_nat (4 * (lw + 2))) by lia.
    replace (Z.to_nat (y * (lw + 2) * 4))
      with (Z.to_nat y * Z.to_nat (4 * (lw + 2)))%nat by nia.
    apply concat_uniform_row; [exact Hrows|].
    rewrite nth_error_map, nth_error_range by lia.
    simpl. now rewrite Z2Nat.id by lia.
  - nia.
  - rewrite (concat_uniform_length _ _ Hrows), length_map.
    pose proof (length_range H HH). nia.
Qed.

(** The chunks of a plane of [W * H] pixels: their number, and the
    columns of each. *)
Lemma chunk_total_bounds (W i : Z) :
  0 <= W -> 0 <= i < chunk_total C W ->
  let lw := if i =? W / C then W mod C else C in
  0 < lw <= C /\ i * C + lw <= W.
Proof.
  intros HW Hi lw. unfold chunk_total in Hi.
  pose proof (Z.div_pos W C HW C_pos) as Hq.
  pose proof (Z.mod_pos_bound W C C_pos) as Hr.
  pose proof (Z.div_mod W C ltac:(lia)) as Hdm.
  unfold lw. destruct (Z.eqb_spec i (W / C)) as [->|Hne].
  - destruct (Z.eqb_spec (W mod C) 0); [lia|]. split; [lia | nia].
  - assert (i < W / C) by (destruct (W mod C =? 0); lia).
    split; [lia | nia].
Qed.

(** The pixel buffer of a chunk has four values for each pixel of the
    image. *)
Lemma chunk_image_buffer (byte_list : list Q) (name : string)
    (W H i : Z) :
  0 <= W -> 0 <= H -> 0 <= i < chunk_total C W ->
  Z.of_nat (List.length byte_list) = W * H * 4 ->
  let image := chunk_image C byte_list name W H (W / C) (W mod C)
                 padding_pixel i in
  Z.of_nat (List.length (img_pixels image))
  = 4 * img_width image * img_height image.
Proof.
  intros HW HH Hi Hlen image.
  destruct (chunk_total_bounds W i HW Hi) as [Hlw Hfit].
  set (lw := if i =? W / C then W mod C else C) in *.
  assert (Hwidth : img_width image = lw + 2).
  { unfold image, chunk_image, lw. cbn [img_width].
    destruct (i =? W / C); reflexivity. }
  rewrite Hwidth. cbn [image chunk_image img_height img_pixels].
  rewrite (fold_rows padding_pixel
             (fun y => slice byte_list ((y * W + i * C) * 4)
                         (if i =? W / C
                          then (y * W + i * C) * 4 + W mod C * 4
                          else (y * W + i * C) * 4 + C * 4))).
  cbn [app].
  assert (Hrows : Forall (fun r => List.length r = Z.to_nat (4 * (lw + 2)))
                    (map (fun y =>
                            (padding_pixel
                               ++ slice byte_list ((y * W + i * C) * 4)
                                    (if i =? W / C
                                     then (y * W + i * C) * 4 + W mod C * 4
                                     else (y * W + i * C) * 4 + C * 4)
                               ++ padding_pixel)%list)
                         (range H))).
  { apply Forall_forall. intros r Hr. apply in_map_iff in Hr.
    destruct Hr as (y & <- & Hy). unfold range in Hy.
    apply in_map_iff in Hy. destruct Hy as (k & <- & Hk).
    apply in_seq in Hk. rewrite !length_app. cbn [padding_pixel List.length].
    assert (Hs : Z.of_nat
                   (List.length
                      (slice byte_list ((Z.of_nat k * W + i * C) * 4)
                         (if i =? W / C
                          then (Z.of_nat k * W + i * C) * 4 + W mod C * 4
                          else (Z.of_nat k * W + i * C) * 4 + C * 4)))
                 = 4 * lw).
    { replace (if i =? W / C
               then (Z.of_nat k * W + i * C) * 4 + W mod C * 4
               else (Z.of_nat k * W + i * C) * 4 + C * 4)
        with ((Z.of_nat k * W + i * C) * 4 + lw * 4)
        by (unfold lw; destruct (i =? W / C); reflexivity).
      rewrite slice_length; nia. }
    lia. }
  rewrite (concat_uniform_length _ _ Hrows), length_map.
  pose proof (length_range H HH). nia.
Qed.

Lemma for_each_op_set_tell {A} (image : A -> ChunkImage) (f : A -> event)
    (xs : list A) (w : World) :
  (forall x, In x xs -> set_pixels (image x) = Ok tt) ->
  for_each_op xs (fun x => lift (set_pixels (image x)) ;;; tell (f x)) w
  = (Ok tt, fold_left emit (map f xs) w).
Proof.
  revert w. induction xs as [|x xs IH]; intros w Hall; [reflexivity|].
  cbn [for_each_op map fold_left].
  unfold bind_op at 1. unfold bind_op at 1, lift at 1.
  rewrite (Hall x (or_introl eq_refl)). unfold tell at 1.
  apply IH. intros x' Hx'. apply Hall. now right.
Qed.

(** For a plane of [W * H] pixels every chunk gets its pixels, and
    [create_and_save_image] saves one image for each chunk. *)
Lemma create_and_save_image_run (byte_list : list Q) (name dir : string)
    (W H : Z) (w : World) :
  0 <= W -> 0 <= H ->
  Z.of_nat (List.length byte_list) = W * H * 4 ->
  create_and_save_image C byte_list name (W, H) dir w =
  (Ok tt,
   fold_left emit
     (map (fun i =>
             EvSaveRender (dir ++ name ++ "_part" ++ str i ++ ".png")%string
               (chunk_image C byte_list name W H (W / C) (W mod C)
                  padding_pixel i))
          (range (W / C + (if W mod C =? 0 then 0 else 1))))
     w).
Proof.
  intros HW HH Hlen.
  unfold create_and_save_image, floordiv, mod_.
  destruct (Z.eqb_spec C 0) as [E|_]; [lia|].
  unfold bind_op at 1, lift at 1. unfold bind_op at 1, lift at 1.
  apply (for_each_op_set_tell
           (fun i => chunk_image C byte_list name W H (W / C) (W mod C)
                       padding_pixel i)).
  intros i Hi. unfold range in Hi. apply in_map_iff in Hi.
  destruct Hi as (k & <- & Hk). apply in_seq in Hk.
  unfold set_pixels.
  rewrite (chunk_image_buffer byte_list name W H (Z.of_nat k) HW HH)
    by (unfold chunk_total; lia || exact Hlen).
  now rewrite Z.eqb_refl.
Qed.

Lemma saved_images_map_save (paths : Z -> string) (f : Z -> ChunkImage)
    (xs : list Z) :
  saved_images (map (fun i => EvSaveRender (paths i) (f i)) xs) = map f xs.
Proof.
  induction xs as [|x xs IH]; simpl; [reflexivity|]. now rewrite IH.
Qed.

End ChunkFacts.

Section ChunkCoverage.
Context {F : PyFloat} {FL : PyFloatLaws F}.
Variable C : Z.
Hypothesis C_pos : 0 < C.

Lemma sum_widths_app (xs ys : list ChunkImage) :
  sum_widths (xs ++ ys) = sum_widths xs + sum_widths ys.
Proof.
  unfold sum_widths. induction xs as [|x xs IH]; simpl; [reflexivity|].
  rewrite IH. ring.
Qed.

Lemma sum_widths_full (f : Z -> ChunkImage) (n : nat) :
  (forall j, 0 <= j < Z.of_nat n -> logical_width (f j) = C) ->
  sum_widths (map f (range (Z.of_nat n))) = Z.of_nat n * C.
Proof.
  unfold range. rewrite Nat2Z.id.
  induction n as [|n IH]; intros Hf; [reflexivity|].
  rewrite seq_S, !map_app, sum_widths_app, IH by (intros; apply Hf; lia).
  cbn [map]. unfold sum_widths at 1. cbn [map fold_right Nat.add].
  rewrite Hf by lia. lia.
Qed.

Lemma firstn_seq_le (i s len : nat) :
  (i <= len)%nat -> firstn i (seq s len) = seq s i.
Proof.
  revert s len. induction i as [|i IH]; intros s len Hi; [reflexivity|].
  destruct len as [|len]; [lia|]. simpl. f_equal. apply IH. lia.
Qed.

Lemma firstn_range (n : Z) (i : nat) :
  Z.of_nat i <= n -> firstn i (range n) = range (Z.of_nat i).
Proof.
  intros Hi. unfold range.
  rewrite firstn_map, firstn_seq_le, Nat2Z.id by lia. reflexivity.
Qed.

Lemma nth_error_in_range {A} (xs : list A) (i : nat) (x : A) :
  nth_error xs i = Some x -> (i < List.length xs)%nat.
Proof. intros H. apply nth_error_Some. congruence. Qed.

(** C3.  Chunk coverage.  For a plane of logical width [W] and height
    [H] and a chunk width [C > 0], [create_and_save_image] saves
    exactly [W / C] images, and one more iff [W mod C > 0].  Image [i]
    covers the columns from [i * C], as many as its logical width (its
    width without the two padding pixels): each of its rows is a
    padding pixel, these columns of the same row of the plane, and a
    padding pixel.  Every image starts where the images before it end,
    the logical widths add up to [W], and every column of the plane
    lies in exactly one image. *)
Theorem chunk_coverage (byte_list : list Q) (name dir : string)
    (W H : Z) (w : World) :
  0 <= W -> 0 <= H ->
  Z.of_nat (List.length byte_list) = W * H * 4 ->
  exists (evs : list event) (images : list ChunkImage),
    fst (create_and_save_image C byte_list name (W, H) dir w) = Ok tt /\
    log (snd (create_and_save_image C byte_list name (W, H) dir w))
    = (log w ++ evs)%list /\
    saved_images evs = images /\
    List.length evs = List.length images /\
    Z.of_nat (List.length images)
    = W / C + (if 0 <? W mod C then 1 else 0) /\
    sum_widths images = W /\
    (forall i image,
        nth_error images i = Some image ->
        let start := Z.of_nat i * C in
        logical_width image
        = (if Z.of_nat i <? W / C then C else W mod C) /\
        0 < logical_width image /\
        sum_widths (firstn i images) = start /\
        start + logical_width image <= W /\
        img_height image = H /\
        forall y, 0 <= y < H ->
          image_row image y
          = (padding_pixel
               ++ plane_columns byte_list W y start
                    (start + logical_width image)
               ++ padding_pixel)%list /\
          Z.of_nat (List.length
                      (plane_columns byte_list W y start
                         (start + logical_width image)))
          = 4 * logical_width image) /\
    (forall c, 0 <= c < W ->
       exists i image,
         nth_error images i = Some image /\
         Z.of_nat i * C <= c < Z.of_nat i * C + logical_width image /\
         forall j image',
           nth_error images j = Some image' ->
           Z.of_nat j * C <= c < Z.of_nat j * C + logical_width image' ->
           j = i).
Proof.
  intros HW HH Hlen.
  set (N := W / C + (if W mod C =? 0 then 0 else 1)).
  set (mk := chunk_image C byte_list name W H (W / C) (W mod C)
               padding_pixel).
  set (path := fun i => (dir ++ name ++ "_part" ++ str i ++ ".png")%string).
  pose proof (Z.div_pos W C HW C_pos) as Hq.
  pose proof (Z.mod_pos_bound W C C_pos) as Hr.
  pose proof (Z.div_mod W C ltac:(lia)) as Hdm.
  assert (HN : 0 <= N) by (unfold N; destruct (W mod C =? 0); lia).
  assert (HNeq : N = W / C + (if 0 <? W mod C then 1 else 0)).
  { unfold N. destruct (Z.eqb_spec (W mod C) 0), (Z.ltb_spec 0 (W mod C));
      lia. }
  (* the logical width of chunk [i] *)
  assert (Hlw : forall i, 0 <= i < N ->
            logical_width (mk i) = (if i <? W / C then C else W mod C) /\
            0 < logical_width (mk i) /\
            i * C + logical_width (mk i) <= W /\
            logical_width (mk i)
            = (if i =? W / C then W mod C else C)).
  { intros i Hi. unfold logical_width, mk, chunk_image. cbn [img_width].
    unfold N in Hi.
    destruct (Z.eqb_spec i (W / C)) as [E|E]; cbn [negb];
      destruct (Z.ltb_spec i (W / C)); destruct (Z.eqb_spec (W mod C) 0);
      try lia; repeat split; try lia; nia. }
  exists (map (fun i => EvSaveRender (path i) (mk i)) (range N)).
  exists (map mk (range N)).
  rewrite (create_and_save_image_run C C_pos) by assumption.
  fold N mk. cbn [fst snd].
  destruct (log_emit_all
              (map (fun i => EvSaveRender (path i) (mk i)) (range N)) w)
    as (Hlog & _).
  split; [reflexivity|]. split; [exact Hlog|].
  split; [apply saved_images_map_save|].
  split; [now rewrite !length_map|].
  split; [rewrite length_map, length_range by exact HN; exact HNeq|].
  assert (Hprefix : forall i : nat, Z.of_nat i <= N -> Z.of_nat i <= W / C ->
            sum_widths (firstn i (map mk (range N))) = Z.of_nat i * C).
  { intros i HiN Hiq. rewrite firstn_map, firstn_range by exact HiN.
    apply sum_widths_full. intros j Hj.
    destruct (Hlw j ltac:(lia)) as (Hj1 & _).
    rewrite Hj1. destruct (Z.ltb_spec j (W / C)); lia. }
  split.
  { (* the widths add up to [W] *)
    destruct (Z.eq_dec (W mod C) 0) as [E|E].
    - assert (N = W / C).
      { rewrite HNeq. destruct (Z.ltb_spec 0 (W mod C)); lia. }
      rewrite <- (firstn_all (map mk (range N))).
      rewrite length_map.
      rewrite (Hprefix (List.length (range N)));
        rewrite ?length_range by exact HN; lia.
    - assert (HN1 : N = W / C + 1).
      { rewrite HNeq. destruct (Z.ltb_spec 0 (W mod C)); lia. }
      rewrite <- (firstn_skipn (Z.to_nat (W / C)) (map mk (range N))).
      rewrite sum_widths_app, Hprefix by lia.
      rewrite skipn_map. unfold range at 1.
      rewrite skipn_map, skipn_seq, HN1.
      replace (Z.to_nat (W / C + 1) - Z.to_nat (W / C))%nat with 1%nat by lia.
      cbn [seq map]. unfold sum_widths. cbn [map fold_right].
      destruct (Hlw (W / C) ltac:(lia)) as (Hq1 & _).
      rewrite Nat.add_0_l, Z2Nat.id, Hq1 by lia.
      rewrite Z.ltb_irrefl. lia. }
  split.
  { (* chunk [i] *)
    intros i image Hi. cbv zeta.
    set (start := Z.of_nat i * C).
    assert (HiN : Z.of_nat i < N).
    { apply nth_error_in_range in Hi.
      rewrite length_map in Hi. pose proof (length_range N HN). lia. }
    rewrite nth_error_map, nth_error_range in Hi by exact HiN.
    injection Hi as <-.
    destruct (Hlw (Z.of_nat i) ltac:(lia)) as (H1 & H2 & H3 & H4).
    split; [exact H1|]. split; [exact H2|].
    split.
    { apply Hprefix; [lia|].
      rewrite HNeq in HiN. destruct (0 <? W mod C); lia. }
    split; [exact H3|].
    destruct (chunk_image_rows C C_pos byte_list name W H (W / C) (W mod C)
                padding_pixel (Z.of_nat i) (logical_width (mk (Z.of_nat i))))
      as (_ & Hh & Hrows); try lia; try reflexivity; try assumption.
    split; [exact Hh|]. exact Hrows. }
  (* every column lies in exactly one chunk *)
  intros c Hc.
  pose proof (Z.div_mod c C ltac:(lia)) as Hcdm.
  pose proof (Z.mod_pos_bound c C C_pos) as Hcr.
  assert (Hcq : 0 <= c / C <= W / C).
  { split; [apply Z.div_pos; lia | apply Z.div_le_mono; lia]. }
  assert (HcN : c / C < N).
  { rewrite HNeq. destruct (Z.ltb_spec 0 (W mod C)); [lia|].
    assert (c / C < W / C); [|lia].
    apply Z.div_lt_upper_bound; [lia|]. lia. }
  exists (Z.to_nat (c / C)), (mk (c / C)).
  split.
  { rewrite nth_error_map, nth_error_range by lia.
    simpl. f_equal. f_equal. lia. }
  rewrite Z2Nat.id by lia.
  destruct (Hlw (c / C) ltac:(lia)) as (H1 & _).
  split.
  { rewrite H1. destruct (Z.ltb_spec (c / C) (W / C)); nia. }
  intros j image' Hj Hin.
  assert (HjN : Z.of_nat j < N).
  { apply nth_error_in_range in Hj.
    rewrite length_map in Hj. pose proof (length_range N HN). lia. }
  rewrite nth_error_map, nth_error_range in Hj by exact HjN.
  injection Hj as <-.
  destruct (Hlw (Z.of_nat j) ltac:(lia)) as (Hj1 & _).
  rewrite Hj1 in Hin.
  assert (Z.of_nat j = c / C); [|lia].
  apply Z.div_unique with (r := c - Z.of_nat j * C);
    destruct (Z.ltb_spec (Z.of_nat j) (W / C)); lia.
Qed.

End ChunkCoverage.

Lemma chunk_coverage_witness :
  exists images : list ChunkImage,
    saved_images
      (log (snd (create_and_save_image (F := binary64) 2
                   (repeat 0%Q 12) "plane" (3, 1) "//" blank_world)))
    = images /\
    Z.of_nat (List.length images) = 2 /\
    sum_widths images = 3.
Proof.
  destruct (chunk_coverage (F := binary64) 2 ltac:(lia)
              (repeat 0%Q 12) "plane" "//" 3 1 blank_world)
    as (evs & images & _ & Hlog & Himg & _ & Hlen & Hsum & _);
    [lia | lia | reflexivity |].
  exists images. rewrite Hlog. cbn [log blank_world app].
  split; [exact Himg|]. split; [exact Hlen | exact Hsum].
Defined.

(** ** Offset normalizer *)

Lemma skipn_cons_nth {A} (xs : list A) (k : nat) (x : A) (rest : list A) :
  skipn k xs = x :: rest ->
  nth_error xs k = Some x /\ skipn (S k) xs = rest.
Proof.
  revert xs. induction k as [|k IH]; intros xs H.
  - destruct xs; simpl in H; [discriminate|]. inversion H. now split.
  - destruct xs as [|y xs]; simpl in H; [discriminate|].
    apply IH in H. exact H.
Qed.

Lemma skipn_nil_nth {A} (xs : list A) (k : nat) :
  skipn k xs = [] -> nth_error xs k = None.
Proof.
  intros H. apply nth_error_None.
  pose proof (length_skipn k xs) as L. rewrite H in L. simpl in L. lia.
Qed.

Section VertexDataFacts.
Context {F : PyFloat} {FL : PyFloatLaws F}.
Context {V : Mathutils} {VL : MathutilsLaws V}.
Variable original : list MeshVertex.

(** The scan of one frame for the largest offset. *)
Lemma scan_frame (vs : list MeshVertex) :
  forall (k : nat) (orest : list MeshVertex) (m : Q),
    skipn k original = orest ->
    for_each (combine (seq k (List.length vs)) vs) (scan_vertex original) m
    = if (List.length vs <=? List.length orest)%nat
      then Ok (fold_left
                 (fun m '(o, v) =>
                    if Qltb m (vlength (vsub (co v) (co o)))
                    then vlength (vsub (co v) (co o)) else m)
                 (combine orest vs) m)
      else Raise IndexError.
Proof.
  induction vs as [|v vs IH]; intros k orest m Hk;
    [destruct orest; reflexivity|].
  cbn [List.length seq combine for_each scan_vertex].
  destruct orest as [|o orest].
  - unfold getitem. rewrite (skipn_nil_nth _ _ Hk). reflexivity.
  - destruct (skipn_cons_nth _ _ _ _ Hk) as [Hn Hs].
    unfold getitem. rewrite Hn. cbn [Py.bind].
    rewrite (IH (S k) orest _ Hs). reflexivity.
Qed.

(** The encoding of one frame. *)
Lemma encode_frame (s : Q) (vs : list MeshVertex) :
  ~ (s == 0)%Q ->
  forall (k : nat) (orest : list MeshVertex) (offs norms : list Q),
    skipn k original = orest ->
    for_each (combine (seq k (List.length vs)) vs)
      (encode_vertex original s) (offs, norms)
    = if (List.length vs <=? List.length orest)%nat
      then Ok ((offs ++ flat_map (fun '(o, v) => offset_pixel s o v)
                          (combine orest vs))%list,
               (norms ++ flat_map normal_pixel vs)%list)
      else Raise IndexError.
Proof.
  intros Hs. induction vs as [|v vs IH]; intros k orest offs norms Hk.
  - destruct orest; simpl; now rewrite !app_nil_r.
  - cbn [List.length seq combine for_each encode_vertex].
    destruct orest as [|o orest].
    + unfold getitem. rewrite (skipn_nil_nth _ _ Hk). reflexivity.
    + destruct (skipn_cons_nth _ _ _ _ Hk) as [Hn Hsk].
      unfold getitem. rewrite Hn. cbn [Py.bind].
      unfold vtruediv.
      destruct (Qeq_bool s 0) eqn:E;
        [apply Qeq_bool_eq in E; contradiction|].
      cbn [Py.bind].
      destruct (vdiv (vsub (co v) (co o)) s) as [[x y] z] eqn:Ed.
      destruct (normal v) as [[nx ny] nz] eqn:En.
      cbn [Py.bind]. rewrite (IH (S k) orest _ _ Hsk).
      change (S (List.length vs) <=? List.length (o :: orest))%nat
        with (List.length vs <=? List.length orest)%nat.
      destruct (List.length vs <=? List.length orest)%nat; [|reflexivity].
      cbn [combine flat_map]. unfold offset_pixel at 2, normal_pixel at 2.
      rewrite Ed, En. now rewrite <- !app_assoc.
Qed.

(** The two loops over the reversed frames. *)
Lemma scan_frames_ok (ms : list Mesh) :
  Forall (fits original) ms ->
  forall m, exists m',
    for_each ms
      (fun m me => for_each (indexed (vertices me)) (scan_vertex original) m)
      m = Ok m'.
Proof.
  induction 1 as [|me ms Hme _ IH]; intros m; [now exists m|].
  cbn [for_each]. unfold indexed.
  rewrite (scan_frame (vertices me) 0 original m eq_refl).
  apply Nat.leb_le in Hme. unfold vertex_count_of in Hme. rewrite Hme.
  cbn [Py.bind]. apply IH.
Qed.

Lemma scan_frames_too_long (ms : list Mesh) :
  Exists (fun me => ~ fits original me) ms ->
  forall m,
    for_each ms
      (fun m me => for_each (indexed (vertices me)) (scan_vertex original) m)
      m = Raise IndexError.
Proof.
  induction ms as [|me ms IH]; intros Hex m.
  - inversion Hex.
  - cbn [for_each]. unfold indexed.
    rewrite (scan_frame (vertices me) 0 original m eq_refl).
    destruct (Nat.leb_spec (List.length (vertices me))
                (List.length original)) as [Hle|Hgt];
      [|reflexivity].
    cbn [Py.bind]. apply IH.
    inversion Hex as [? ? Hbad|]; subst; [|assumption].
    exfalso. apply Hbad. exact Hle.
Qed.

Lemma encode_frames (s : Q) (ms : list Mesh) :
  ~ (s == 0)%Q ->
  Forall (fits original) ms ->
  forall offs norms,
    for_each ms
      (fun acc me =>
         for_each (indexed (vertices me)) (encode_vertex original s) acc)
      (offs, norms)
    = Ok ((offs ++ flat_map (offset_row s original) ms)%list,
          (norms ++ flat_map normal_row ms)%list).
Proof.
  intros Hs. induction 1 as [|me ms Hme _ IH]; intros offs norms.
  - simpl. now rewrite !app_nil_r.
  - cbn [for_each]. unfold indexed.
    rewrite (encode_frame s (vertices me) Hs 0 original _ _ eq_refl).
    apply Nat.leb_le in Hme. unfold vertex_count_of in Hme. rewrite Hme.
    cbn [Py.bind]. rewrite IH. cbn [flat_map].
    unfold offset_row at 2, normal_row at 2. now rewrite <- !app_assoc.
Qed.

End VertexDataFacts.

Local Open Scope Q_scope.

Section VertexDataTheorems.
Context {F : PyFloat} {FL : PyFloatLaws F}.
Context {V : Mathutils} {VL : MathutilsLaws V}.

Lemma get_vertex_data_ok (first : Mesh) (rest : list Mesh) (w : World) :
  Forall (fits (vertices first)) (first :: rest) ->
  exists m s,
    for_each (rev (first :: rest))
      (fun m me => for_each (indexed (vertices me))
                     (scan_vertex (vertices first)) m) 0 = Ok m /\
    s = (if Qeq_bool m 0 then 1 else m) /\
    ~ s == 0 /\
    get_vertex_data (first :: rest) w
    = (Ok (flat_map (offset_row s (vertices first)) (rev (first :: rest)),
           flat_map normal_row (rev (first :: rest))),
       with_scene w (set_scale_factor (scene w) s)).
Proof.
  intros Hfit. apply Forall_rev in Hfit.
  destruct (scan_frames_ok (vertices first) _ Hfit 0) as [m Hm].
  exists m, (if Qeq_bool m 0 then 1 else m).
  split; [exact Hm|]. split; [reflexivity|].
  assert (Hs : ~ (if Qeq_bool m 0 then 1 else m) == 0).
  { destruct (Qeq_bool m 0) eqn:E; [discriminate|].
    now apply Qeq_bool_neq. }
  split; [exact Hs|].
  unfold get_vertex_data.
  cbn [getitem nth_error]. unfold bind_op, lift, get_scene, put_scene.
  rewrite Hm.
  rewrite (encode_frames (vertices first) _ _ Hs Hfit [] []).
  reflexivity.
Qed.

Lemma length_offset_pixel (s : Q) (o v : MeshVertex) :
  List.length (offset_pixel s o v) = 4%nat.
Proof.
  unfold offset_pixel. now destruct (vdiv _ s) as [[x y] z].
Qed.

Lemma length_normal_pixel (v : MeshVertex) :
  List.length (normal_pixel v) = 4%nat.
Proof. unfold normal_pixel. now destruct (normal v) as [[x y] z]. Qed.

Lemma length_flat_map_const {A B} (f : A -> list B) (L : nat) (xs : list A) :
  (forall x, List.length (f x) = L) ->
  List.length (flat_map f xs) = (List.length xs * L)%nat.
Proof.
  intros Hf. induction xs as [|x xs IH]; [reflexivity|].
  cbn [flat_map]. rewrite length_app, Hf, IH. reflexivity.
Qed.

Lemma length_offset_row (s : Q) (original : list MeshVertex) (me : Mesh) :
  List.length original = vertex_count_of me ->
  List.length (offset_row s original me) = (4 * vertex_count_of me)%nat.
Proof.
  intros Hn. unfold offset_row.
  rewrite (length_flat_map_const _ 4).
  - rewrite length_combine. unfold vertex_count_of in *. lia.
  - intros [o v]. apply length_offset_pixel.
Qed.

Lemma length_normal_row (me : Mesh) :
  List.length (normal_row me) = (4 * vertex_count_of me)%nat.
Proof.
  unfold normal_row. rewrite (length_flat_map_const _ 4).
  - unfold vertex_count_of. lia.
  - apply length_normal_pixel.
Qed.

Lemma plane_row_flat_map (f : Mesh -> list Q) (n : nat) (ms : list Mesh) :
  Forall (fun me => List.length (f me) = (4 * n)%nat) ms ->
  forall r me,
    nth_error ms r = Some me ->
    plane_row (flat_map f ms) n r = f me.
Proof.
  intros Hall r me Hr. unfold plane_row. rewrite flat_map_concat_map.
  apply concat_uniform_row.
  - apply Forall_map. exact Hall.
  - rewrite nth_error_map, Hr. reflexivity.
Qed.

(** C6.  The rows are frame-reversed.  For a sequence of at least one
    frame, all of [n] vertices, [get_vertex_data] returns two planes of
    as many rows as frames, and row [r] of either plane is the row of
    frame [frameCount - 1 - r]: row 0 is the last frame and the last
    row is frame 0. *)
Theorem rows_are_frame_reversed (meshes : list Mesh) (n : nat) (w : World) :
  meshes <> [] ->
  Forall (fun me => vertex_count_of me = n) meshes ->
  exists (s : Q) (offsets normals : list Q) (first : Mesh),
    nth_error meshes 0 = Some first /\
    get_vertex_data meshes w
    = (Ok (offsets, normals), with_scene w (set_scale_factor (scene w) s)) /\
    List.length offsets = (List.length meshes * (4 * n))%nat /\
    List.length normals = (List.length meshes * (4 * n))%nat /\
    forall (r : nat) (me : Mesh),
      (r < List.length meshes)%nat ->
      nth_error meshes (List.length meshes - 1 - r) = Some me ->
      plane_row offsets n r = offset_row s (vertices first) me /\
      plane_row normals n r = normal_row me.
Proof.
  intros Hne Hn.
  destruct meshes as [|first rest]; [congruence|].
  assert (Hfirst : List.length (vertices first) = n).
  { inversion Hn; subst. reflexivity. }
  assert (Hfit : Forall (fits (vertices first)) (first :: rest)).
  { eapply Forall_impl; [|exact Hn]. intros me Hme. cbv beta in Hme.
    unfold fits. lia. }
  destruct (get_vertex_data_ok first rest w Hfit) as (m & s & _ & _ & _ & Hrun).
  exists s, (flat_map (offset_row s (vertices first)) (rev (first :: rest))),
    (flat_map normal_row (rev (first :: rest))), first.
  split; [reflexivity|]. split; [exact Hrun|].
  assert (Hoff : Forall (fun me => List.length
                                     (offset_row s (vertices first) me)
                                   = (4 * n)%nat)
                        (rev (first :: rest))).
  { apply Forall_rev. eapply Forall_impl; [|exact Hn].
    intros me Hme. cbv beta in Hme. rewrite length_offset_row; lia. }
  assert (Hnor : Forall (fun me => List.length (normal_row me) = (4 * n)%nat)
                        (rev (first :: rest))).
  { apply Forall_rev. eapply Forall_impl; [|exact Hn].
    intros me Hme. cbv beta in Hme. rewrite length_normal_row; lia. }
  split.
  { rewrite flat_map_concat_map.
    rewrite (concat_uniform_length (4 * n)) by (apply Forall_map; exact Hoff).
    now rewrite length_map, length_rev. }
  split.
  { rewrite flat_map_concat_map.
    rewrite (concat_uniform_length (4 * n)) by (apply Forall_map; exact Hnor).
    now rewrite length_map, length_rev. }
  intros r me Hr Hme.
  assert (Hrev : nth_error (rev (first :: rest)) r = Some me).
  { rewrite nth_error_rev.
    destruct (Nat.ltb_spec r (List.length (first :: rest))); [|lia].
    rewrite <- Hme. f_equal. lia. }
  split.
  - now apply (plane_row_flat_map _ n _ Hoff).
  - now apply (plane_row_flat_map _ n _ Hnor).
Qed.

End VertexDataTheorems.

Section StaticSequence.
Context {F : PyFloat} {FL : PyFloatLaws F}.
Context {V : Mathutils} {VL : MathutilsLaws V}.

Lemma representable_half : representable 0.5.
Proof.
  exists 1%Z, (-1)%Z. split; [simpl; lia|]. split; [lia|]. reflexivity.
Qed.

Lemma half_of_one_plus (x : Q) : x == 0 -> fmul (fadd x 1) 0.5 == 0.5.
Proof.
  intros Hx. unfold fmul, fadd.
  assert (H1 : rnd (x + 1) == 1).
  { rewrite (rnd_proper (x + 1) (inject_Z 1)) by (rewrite Hx; reflexivity).
    apply rnd_Z. simpl. lia. }
  rewrite (rnd_proper (rnd (x + 1) * 0.5) 0.5) by (rewrite H1; reflexivity).
  apply rnd_exact, representable_half.
Qed.

Lemma offset_pixel_static (o v : MeshVertex) :
  co v = co o -> mid_grey (offset_pixel 1 o v).
Proof.
  intros Hco. unfold offset_pixel. rewrite Hco.
  pose proof (vdiv_zero (vsub (co o) (co o)) 1 (vsub_diag (co o))
                ltac:(discriminate)) as Hz.
  destruct (vdiv (vsub (co o) (co o)) 1) as [[x y] z].
  destruct Hz as (Hx & Hy & Hz).
  apply mid_grey_pixel; try apply half_of_one_plus; try assumption.
  - rewrite Hy. reflexivity.
  - constructor.
Qed.

Lemma mid_grey_app (xs ys : list Q) :
  mid_grey xs -> mid_grey ys -> mid_grey (xs ++ ys).
Proof.
  induction 1; intros Hys; [exact Hys|].
  cbn [app]. constructor; auto.
Qed.

Lemma mid_grey_nth (plane : list Q) :
  mid_grey plane ->
  forall (p : nat) (x : Q),
    nth_error plane p = Some x -> (p mod 4 <> 3)%nat -> x == 0.5.
Proof.
  induction 1 as [|r g b rest Hr Hg Hb _ IH]; intros p x Hp Hmod.
  - destruct p; discriminate.
  - destruct p as [|[|[|[|p]]]]; cbn [nth_error] in Hp.
    + injection Hp as <-. exact Hr.
    + injection Hp as <-. exact Hg.
    + injection Hp as <-. exact Hb.
    + exfalso. apply Hmod. reflexivity.
    + apply (IH p x Hp).
      replace (S (S (S (S p)))) with (p + 1 * 4)%nat in Hmod by lia.
      now rewrite Nat.Div0.mod_add in Hmod.
Qed.

Lemma same_positions (os vs : list MeshVertex) :
  map co vs = map co os ->
  List.length vs = List.length os /\
  Forall (fun '(o, v) => co v = co o) (combine os vs).
Proof.
  revert vs. induction os as [|o os IH]; intros [|v vs] H;
    try discriminate; [now split|].
  cbn [map] in H. injection H as Hco Hrest.
  destruct (IH vs Hrest) as [Hlen Hall].
  split; [simpl; now rewrite Hlen|]. now constructor.
Qed.

Lemma offset_row_static (original : list MeshVertex) (me : Mesh) :
  map co (vertices me) = map co original ->
  mid_grey (offset_row 1 original me).
Proof.
  intros H. destruct (same_positions _ _ H) as [_ Hall].
  unfold offset_row. induction Hall as [|[o v] ps Hov _ IH]; [constructor|].
  cbn [flat_map]. apply mid_grey_app; [|exact IH].
  now apply offset_pixel_static.
Qed.

Lemma scan_static (os vs : list MeshVertex) :
  map co vs = map co os ->
  fold_left
    (fun m '(o, v) =>
       if Qltb m (vlength (vsub (co v) (co o)))
       then vlength (vsub (co v) (co o)) else m)
    (combine os vs) 0
  = 0.
Proof.
  intros H. destruct (same_positions _ _ H) as [_ Hall].
  induction Hall as [|[o v] ps Hov _ IH]; [reflexivity|].
  cbn [fold_left]. rewrite Hov.
  assert (Hl : Qltb 0 (vlength (vsub (co o) (co o))) = false).
  { unfold Qltb. apply negb_false_iff, Qle_bool_iff.
    rewrite (vlength_zero _ (vsub_diag (co o))). apply Qle_refl. }
  rewrite Hl. exact IH.
Qed.

Lemma scan_frames_static (original : list MeshVertex) (ms : list Mesh) :
  Forall (fun me => map co (vertices me) = map co original) ms ->
  for_each ms
    (fun m me => for_each (indexed (vertices me)) (scan_vertex original) m)
    0 = Ok 0.
Proof.
  induction 1 as [|me ms Hme _ IH]; [reflexivity|].
  cbn [for_each]. unfold indexed.
  rewrite (scan_frame original (vertices me) 0 original 0 eq_refl).
  destruct (same_positions _ _ Hme) as [Hlen _].
  rewrite Hlen, Nat.leb_refl, (scan_static _ _ Hme).
  cbn [Py.bind]. exact IH.
Qed.

(** C5.  Scale-factor fallback.  When every frame has the vertex
    positions of the rest frame, [get_vertex_data] reports a scale
    factor of exactly 1 and every colour channel (x, y, z) of the offset
    plane is [0.5]; the plane has four values for each vertex of each
    frame. *)
Theorem static_sequence_scale_one (meshes : list Mesh) (first : Mesh)
    (w : World) :
  nth_error meshes 0 = Some first ->
  static_sequence first meshes ->
  exists offsets normals : list Q,
    get_vertex_data meshes w
    = (Ok (offsets, normals), with_scene w (set_scale_factor (scene w) 1)) /\
    scale_factor (scene (snd (get_vertex_data meshes w))) = 1 /\
    List.length offsets
    = (List.length meshes * (4 * vertex_count_of first))%nat /\
    forall (p : nat) (x : Q),
      nth_error offsets p = Some x -> (p mod 4 <> 3)%nat -> x == 0.5.
Proof.
  intros Hfirst Hstatic.
  destruct meshes as [|first' rest]; [discriminate|].
  cbn [nth_error] in Hfirst. injection Hfirst as ->.
  unfold static_sequence in Hstatic.
  assert (Hsame : Forall (fun me => vertex_count_of me
                                    = vertex_count_of first) (first :: rest)).
  { eapply Forall_impl; [|exact Hstatic]. intros me Hme. cbv beta in Hme.
    unfold vertex_count_of. now destruct (same_positions _ _ Hme). }
  assert (Hfit : Forall (fits (vertices first)) (first :: rest)).
  { eapply Forall_impl; [|exact Hsame]. intros me Hme. cbv beta in Hme.
    unfold fits. unfold vertex_count_of in *. lia. }
  destruct (get_vertex_data_ok first rest w Hfit)
    as (m & s & Hm & Hs & _ & Hrun).
  rewrite (scan_frames_static _ _ (Forall_rev Hstatic)) in Hm.
  injection Hm as <-. cbn in Hs. subst s.
  eexists _, _. split; [exact Hrun|].
  split; [rewrite Hrun; reflexivity|].
  split.
  - rewrite flat_map_concat_map.
    rewrite (concat_uniform_length (4 * vertex_count_of first)).
    + now rewrite length_map, length_rev.
    + apply Forall_map, Forall_rev.
      eapply Forall_impl; [|exact Hsame]. intros me Hme. cbv beta in Hme.
      rewrite length_offset_row; unfold vertex_count_of in *; lia.
  - apply mid_grey_nth. clear Hrun.
    apply Forall_rev in Hstatic.
    induction Hstatic as [|me ms Hme _ IH]; [constructor|].
    cbn [flat_map]. apply mid_grey_app; [|exact IH].
    now apply offset_row_static.
Qed.

Lemma length_offset_row_fits (s : Q) (original : list MeshVertex) (me : Mesh) :
  fits original me ->
  List.length (offset_row s original me) = (vertex_count_of me * 4)%nat.
Proof.
  intros Hfit. unfold offset_row.
  rewrite (length_flat_map_const _ 4).
  - rewrite length_combine. unfold fits, vertex_count_of in *. lia.
  - intros [o v]. apply length_offset_pixel.
Qed.

Lemma length_planes (f : Mesh -> list Q) (ms : list Mesh) :
  Forall (fun me => List.length (f me) = (vertex_count_of me * 4)%nat) ms ->
  List.length (flat_map f ms) = (4 * total_vertices ms)%nat.
Proof.
  unfold total_vertices.
  induction 1 as [|me ms Hme _ IH]; [reflexivity|].
  cbn [flat_map map fold_right]. rewrite length_app, Hme, IH. lia.
Qed.

Lemma total_vertices_rev (ms : list Mesh) :
  total_vertices (rev ms) = total_vertices ms.
Proof.
  unfold total_vertices. induction ms as [|me ms IH]; [reflexivity|].
  cbn [rev map fold_right]. rewrite map_app, fold_right_app.
  cbn [map fold_right]. rewrite <- IH.
  generalize (map vertex_count_of (rev ms)). intros l.
  induction l as [|a l IHl]; cbn [fold_right]; lia.
Qed.

(** C7, as amended.  [get_vertex_data] does not compare vertex counts.
    A frame with more vertices than frame 0 makes it raise
    [IndexError] in the scan for the largest offset, before the scale
    factor is written; when no frame has more vertices than frame 0 it
    succeeds, and each frame puts four values a vertex of its own in
    either plane, so that a shorter frame gives a shorter row. *)
Theorem vertex_count_mismatch (meshes : list Mesh) (first : Mesh)
    (w : World) :
  nth_error meshes 0 = Some first ->
  (Exists (fun me => (vertex_count_of first < vertex_count_of me)%nat)
          meshes ->
   get_vertex_data meshes w = (Raise IndexError, w)) /\
  (Forall (fun me => (vertex_count_of me <= vertex_count_of first)%nat)
          meshes ->
   exists (s : Q) (offsets normals : list Q),
     get_vertex_data meshes w
     = (Ok (offsets, normals),
        with_scene w (set_scale_factor (scene w) s)) /\
     List.length offsets = (4 * total_vertices meshes)%nat /\
     List.length normals = (4 * total_vertices meshes)%nat).
Proof.
  intros Hfirst.
  destruct meshes as [|first' rest]; [discriminate|].
  cbn [nth_error] in Hfirst. injection Hfirst as ->.
  split.
  - intros Hex.
    unfold get_vertex_data.
    cbn [getitem nth_error]. unfold bind_op at 1, lift at 1.
    unfold bind_op at 1, lift at 1.
    rewrite scan_frames_too_long; [reflexivity|].
    apply Exists_rev. eapply Exists_impl; [|exact Hex].
    intros me Hme. cbv beta in Hme. unfold fits, vertex_count_of in *. lia.
  - intros Hall.
    destruct (get_vertex_data_ok first rest w Hall)
      as (m & s & _ & _ & _ & Hrun).
    exists s. eexists _, _. split; [exact Hrun|].
    rewrite <- (total_vertices_rev (first :: rest)).
    split; apply length_planes; apply Forall_rev.
    + eapply Forall_impl; [|exact Hall]. intros me Hme.
      now apply length_offset_row_fits.
    + apply Forall_forall. intros me _.
      rewrite length_normal_row. lia.
Qed.

End StaticSequence.

Local Open Scope Z_scope.

Lemma rows_are_frame_reversed_witness :
  exists (s : Q) (offsets normals : list Q) (first : Mesh),
    nth_error [point_mesh 0; point_mesh 1; point_mesh 4] 0 = Some first /\
    get_vertex_data (F := binary64) (V := exact_vectors)
      [point_mesh 0; point_mesh 1; point_mesh 4] blank_world
    = (Ok (offsets, normals),
       with_scene blank_world (set_scale_factor (scene blank_world) s)) /\
    List.length offsets = 12%nat /\
    List.length normals = 12%nat /\
    forall (r : nat) (me : Mesh),
      (r < 3)%nat ->
      nth_error [point_mesh 0; point_mesh 1; point_mesh 4] (3 - 1 - r)
      = Some me ->
      plane_row offsets 1 r
      = offset_row (F := binary64) (V := exact_vectors) s
          (vertices first) me /\
      plane_row normals 1 r = normal_row (F := binary64) me.
Proof.
  apply (rows_are_frame_reversed (F := binary64) (V := exact_vectors)
           [point_mesh 0; point_mesh 1; point_mesh 4] 1 blank_world).
  - discriminate.
  - repeat constructor.
Defined.

Lemma static_sequence_scale_one_witness :
  exists offsets normals : list Q,
    get_vertex_data (F := binary64) (V := exact_vectors)
      [point_mesh 2; point_mesh 2; point_mesh 2] blank_world
    = (Ok (offsets, normals),
       with_scene blank_world (set_scale_factor (scene blank_world) 1)) /\
    scale_factor
      (scene (snd (get_vertex_data (F := binary64) (V := exact_vectors)
                     [point_mesh 2; point_mesh 2; point_mesh 2]
                     blank_world))) = 1%Q /\
    List.length offsets
    = (List.length [point_mesh 2; point_mesh 2; point_mesh 2]
       * (4 * vertex_count_of (point_mesh 2)))%nat /\
    forall (p : nat) (x : Q),
      nth_error offsets p = Some x -> (p mod 4 <> 3)%nat -> (x == 0.5)%Q.
Proof.
  apply (static_sequence_scale_one (F := binary64) (V := exact_vectors)
           [point_mesh 2; point_mesh 2; point_mesh 2] (point_mesh 2)
           blank_world).
  - reflexivity.
  - repeat constructor.
Defined.

(** Frame 1 has one vertex where frame 0 has two, and the planes come
    out without an error, three pixels long. *)
Lemma short_frame_counterexample :
  vertex_count_of (plain_mesh 1 []) <> vertex_count_of (plain_mesh 2 []) /\
  exists (offsets normals : list Q) (w' : World),
    get_vertex_data (F := binary64) (V := exact_vectors)
      [plain_mesh 2 []; plain_mesh 1 []] blank_world
    = (Ok (offsets, normals), w') /\
    List.length offsets = 12%nat /\ List.length normals = 12%nat.
Proof.
  split; [discriminate|].
  eexists _, _, _. split; [vm_compute; reflexivity|]. split; reflexivity.
Qed.

Lemma vertex_count_mismatch_witness :
  get_vertex_data (F := binary64) (V := exact_vectors)
    [plain_mesh 1 []; plain_mesh 2 []] blank_world
  = (Raise IndexError, blank_world) /\
  exists (s : Q) (offsets normals : list Q),
    get_vertex_data (F := binary64) (V := exact_vectors)
      [plain_mesh 2 []; plain_mesh 1 []] blank_world
    = (Ok (offsets, normals),
       with_scene blank_world (set_scale_factor (scene blank_world) s)) /\
    List.length offsets
    = (4 * total_vertices [plain_mesh 2 []; plain_mesh 1 []])%nat /\
    List.length normals
    = (4 * total_vertices [plain_mesh 2 []; plain_mesh 1 []])%nat.
Proof.
  split.
  - apply (vertex_count_mismatch (F := binary64) (V := exact_vectors)
             [plain_mesh 1 []; plain_mesh 2 []] (plain_mesh 1 [])
             blank_world eq_refl).
    apply Exists_cons_tl, Exists_cons_hd. unfold vertex_count_of. simpl. lia.
  - apply (vertex_count_mismatch (F := binary64) (V := exact_vectors)
             [plain_mesh 2 []; plain_mesh 1 []] (plain_mesh 2 [])
             blank_world eq_refl).
    repeat constructor.
Defined.

Local Open Scope Q_scope.

(** ** The operator *)

Section OperatorFacts.
Context {F : PyFloat} {FL : PyFloatLaws F}.
Context {V : Mathutils} {VL : MathutilsLaws V} {host : Bpy}.
Variable C : Z.
Variable evaluated_mesh : list SceneObject -> Z -> Mesh.

(** The scale [set_metric_units] stores passes the unit check of
    [execute]. *)
Lemma metric_scale_rounds_back :
  Qeq_bool (round2 (rnd 0.01)) (rnd 0.01) = true.
Proof.
  apply Qeq_bool_iff. unfold round2, fdiv.
  assert (Hr : Qabs (rnd 0.01 - 0.01) <= 0.01 * unit_roundoff).
  { apply (rnd_rel 0.01). split; unfold Qle; vm_compute; discriminate. }
  apply Qabs_Qle_condition in Hr.
  assert (Hu : unit_roundoff <= 0.001)
    by (unfold Qle; vm_compute; discriminate).
  rewrite (round_half_even_near (rnd 0.01 * 100) 1).
  - apply rnd_proper. reflexivity.
  - apply Qabs_Qlt_condition. change (inject_Z 1) with 1. lra.
Qed.

(** A branch of [execute] that reports one error and returns. *)
Ltac cancelled_with_report :=
  eexists; cbn [fst snd log emit with_scene];
  split; [reflexivity|]; split; [reflexivity|]; split; [|reflexivity];
  rewrite filter_app; cbn [filter is_work]; apply app_nil_r.

(** C8.  Limits are checked before any work.  When the selected
    meshes have more than 2048 vertices, or the frame range has more
    than 1024 frames, [execute] reports an error and returns
    [CANCELLED]; the report is the only event: no frame is sampled and
    nothing is encoded, saved or exported.  The error is the limit that
    is exceeded (the vertex count first), unless an object has a
    modifier that is not allowed, which is reported instead. *)
Theorem limits_fail_before_work (w : World) (frame_count : Z) :
  frame_count_of (scene w) = Ok frame_count ->
  (2048 < total_vertex_count (mesh_objects w) \/ 1024 < frame_count)%Z ->
  exists r : report,
    fst (execute C evaluated_mesh w) = Ok CANCELLED /\
    log (snd (execute C evaluated_mesh w))
    = (log w ++ [EvReportError r])%list /\
    filter is_work (log (snd (execute C evaluated_mesh w)))
    = filter is_work (log w) /\
    r = match find (fun t => negb (is_in t allowed_modifiers))
                   (flat_map ob_modifiers (mesh_objects w)) with
        | Some mod_type => ModifierNotAllowed mod_type
        | None =>
            if (2048 <? total_vertex_count (mesh_objects w))%Z
            then VertexCountExceeded (total_vertex_count (mesh_objects w))
            else FrameCountExceeded frame_count
        end.
Proof.
  intros Hfc Hlimit.
  unfold execute.
  unfold store_unit_settings, set_metric_units, reset_unit_settings.
  unfold bind_op, get_scene, put_scene, ret, lift, tell.
  cbn [scene with_scene selected_objects active_object log].
  fold (mesh_objects w). fold (total_vertex_count (mesh_objects w)).
  unfold frame_count_of in *.
  cbn [set_units frame_start frame_end frame_step unit_system scale_length].
  rewrite Hfc.
  destruct (find _ (flat_map ob_modifiers (mesh_objects w))) as [t|].
  { cancelled_with_report. }
  rewrite String.eqb_refl, metric_scale_rounds_back. cbn [negb orb].
  destruct (Z.ltb_spec 2048 (total_vertex_count (mesh_objects w))).
  { cancelled_with_report. }
  destruct (Z.ltb_spec 1024 frame_count).
  { cancelled_with_report. }
  lia.
Qed.

End OperatorFacts.

Local Open Scope Z_scope.

Lemma limits_fail_before_work_witness :
  exists r : report,
    fst (execute (F := binary64) (V := exact_vectors) (host := blender) 128
           (fun _ _ => plain_mesh 0 []) crowded_world) = Ok CANCELLED /\
    log (snd (execute (F := binary64) (V := exact_vectors) (host := blender) 128
                (fun _ _ => plain_mesh 0 []) crowded_world))
    = [EvReportError r] /\
    r = VertexCountExceeded 2049.
Proof.
  destruct (limits_fail_before_work (F := binary64) (V := exact_vectors)
              (host := blender) 128 (fun _ _ => plain_mesh 0 [])
              crowded_world 2)
    as (r & H1 & H2 & _ & H3).
  - reflexivity.
  - left. reflexivity.
  - exists r. split; [exact H1|]. split; [exact H2|]. exact H3.
Defined.

(** * Further properties *)

(** ** Frame range *)

Local Open Scope Z_scope.

Lemma range_len_positive_step (start stop step : Z) :
  0 < step ->
  exists n, range_len start stop step = Ok n /\ 0 <= n /\
    (stop <= start -> n = 0) /\
    (forall k, 0 <= k < n -> start + k * step < stop) /\
    (forall k, 0 <= k -> start + k * step < stop -> k < n).
Proof.
  intros Hs. unfold range_len.
  destruct (Z.eqb_spec step 0) as [E|_]; [lia|].
  destruct (Z.ltb_spec 0 step) as [_|E]; [|lia].
  destruct (Z.ltb_spec start stop) as [Hlt|Hge].
  - exists ((stop - start - 1) / step + 1).
    pose proof (Z.div_pos (stop - start - 1) step ltac:(lia) Hs).
    pose proof (Z.mul_div_le (stop - start - 1) step Hs).
    pose proof (Z.mul_succ_div_gt (stop - start - 1) step Hs).
    split; [reflexivity|]. split; [lia|]. split; [lia|]. split.
    + intros k Hk. nia.
    + intros k Hk Hlt'. nia.
  - exists 0. split; [reflexivity|]. split; [lia|]. split; [lia|]. split.
    + intros k Hk. lia.
    + intros k Hk Hlt'. nia.
Qed.

(** X1.  The frames that are baked.  For a positive frame step,
    [frame_range] is the frames [frame_start + k * frame_step] from
    [frame_start] on that lie strictly below [frame_end]: the end frame
    itself is never baked, and an end at or below the start gives no
    frame at all.  Their number is the frame count [execute] takes as
    the height of the textures. *)
Theorem frame_range_excludes_end (sc : Scene) :
  0 < frame_step sc ->
  exists frames : list Z,
    frame_range sc = Ok frames /\
    frame_count_of sc = Ok (Z.of_nat (List.length frames)) /\
    (forall f, In f frames <->
               frame_start sc <= f < frame_end sc /\
               (f - frame_start sc) mod frame_step sc = 0) /\
    ~ In (frame_end sc) frames /\
    (frame_end sc <= frame_start sc -> frames = []).
Proof.
  intros Hs. unfold frame_range, frame_count_of, range3.
  destruct (range_len_positive_step (frame_start sc) (frame_end sc)
              (frame_step sc) Hs) as (n & Hn & Hn0 & Hempty & Hlt & Hall).
  rewrite Hn. cbn [Py.bind].
  eexists. split; [reflexivity|].
  assert (Hin : forall f,
    In f (map (fun k : nat => frame_start sc + Z.of_nat k * frame_step sc)
              (seq 0 (Z.to_nat n))) <->
    frame_start sc <= f < frame_end sc /\
    (f - frame_start sc) mod frame_step sc = 0).
  { intros f. rewrite in_map_iff. split.
    - intros (k & <- & Hk). apply in_seq in Hk.
      specialize (Hlt (Z.of_nat k) ltac:(lia)).
      split; [nia|].
      replace (frame_start sc + Z.of_nat k * frame_step sc - frame_start sc)
        with (Z.of_nat k * frame_step sc) by ring.
      apply Z.mod_mul. lia.
    - intros [Hr Hm].
      apply Z.mod_divide in Hm; [|lia]. destruct Hm as [k Hk].
      assert (Hk0 : 0 <= k) by nia.
      exists (Z.to_nat k). split; [rewrite Z2Nat.id by lia; lia|].
      apply in_seq. specialize (Hall k Hk0 ltac:(lia)). lia. }
  split; [now rewrite length_map, length_seq, Z2Nat.id by lia|].
  split; [exact Hin|].
  split.
  - intros H. apply Hin in H. lia.
  - intros Hle. rewrite (Hempty Hle). reflexivity.
Qed.

Lemma frame_range_excludes_end_witness :
  exists frames : list Z,
    frame_range blank_scene = Ok frames /\
    frame_count_of blank_scene = Ok (Z.of_nat (List.length frames)) /\
    (forall f, In f frames <->
               1 <= f < 3 /\ (f - 1) mod 1 = 0) /\
    ~ In 3 frames /\
    (3 <= 1 -> frames = []).
Proof.
  apply (frame_range_excludes_end blank_scene). reflexivity.
Defined.

(** ** The planes that are written *)

Local Open Scope Q_scope.

Section PlaneFacts.
Context {F : PyFloat} {FL : PyFloatLaws F}.

Lemma rnd_between (a b : Z) (x : Q) :
  (Z.abs a < 2 ^ 53)%Z -> (Z.abs b < 2 ^ 53)%Z ->
  inject_Z a <= x <= inject_Z b -> inject_Z a <= rnd x <= inject_Z b.
Proof.
  intros Ha Hb [Hlo Hhi]. split.
  - rewrite <- (rnd_Z a Ha). apply rnd_mono, Hlo.
  - rewrite <- (rnd_Z b Hb). apply rnd_mono, Hhi.
Qed.

Lemma plane_value_unit (b : Z) :
  (0 <= b < 256)%Z -> 0 <= fdiv (inject_Z b) 255 <= 1.
Proof.
  intros Hb. unfold fdiv.
  apply (rnd_between 0 1); [simpl; lia | simpl; lia |].
  assert (H0 : 0 <= inject_Z b)
    by (change 0 with (inject_Z 0); rewrite <- Zle_Qle; lia).
  assert (H1 : inject_Z b <= 255)
    by (change 255 with (inject_Z 255); rewrite <- Zle_Qle; lia).
  change (inject_Z 0) with 0. change (inject_Z 1) with 1.
  unfold Qdiv. change (/ 255) with (1 # 255). split; lra.
Qed.

(** X2.  The byte planes are images.  For a pixel list whose values
    [int] is defined for (their product with 65535 is finite), also
    when they lie outside [[0,1]], [write_output_image] makes two planes
    as long as the list, and every value of either plane is
    [byte / 255.0] for a byte of [0..255], which lies in [[0,1]]. *)
Theorem byte_planes_are_images (pixel_list : list Q) :
  Forall int_defined pixel_list ->
  let is_byte_value (x : Q) :=
    exists b : Z,
      (0 <= b < 256)%Z /\ x = fdiv (inject_Z b) 255 /\ 0 <= x <= 1 in
  List.length (fst (byte_planes pixel_list)) = List.length pixel_list /\
  List.length (snd (byte_planes pixel_list)) = List.length pixel_list /\
  Forall is_byte_value (fst (byte_planes pixel_list)) /\
  Forall is_byte_value (snd (byte_planes pixel_list)).
Proof.
  intros _. cbv zeta. rewrite byte_planes_map. cbn [fst snd].
  rewrite !length_map.
  split; [reflexivity|]. split; [reflexivity|].
  split; apply Forall_map, Forall_forall; intros v _;
    rewrite float_to_bytes_int_value; cbn [fst snd];
    destruct (split_bytes (int_value v)) as (Hh & Hl & _).
  - eexists. split; [exact Hh|]. split; [reflexivity|].
    now apply plane_value_unit.
  - eexists. split; [exact Hl|]. split; [reflexivity|].
    now apply plane_value_unit.
Qed.

End PlaneFacts.

(** ** The vertex data *)

Section VertexDataRange.
Context {F : PyFloat} {FL : PyFloatLaws F}.
Context {V : Mathutils}.

(** The scan for the largest offset over one frame, then over frames. *)
Lemma scan_max (ls : list Q) :
  forall m : Q,
    let m' := fold_left (fun m l => if Qltb m l then l else m) ls m in
    m <= m' /\ Forall (fun l => l <= m') ls /\ (m' = m \/ In m' ls).
Proof.
  induction ls as [|l ls IH]; intros m; cbn [fold_left].
  - split; [apply Qle_refl|]. split; [constructor | now left].
  - specialize (IH (if Qltb m l then l else m)). cbv zeta in IH.
    set (m' := fold_left _ ls _) in *.
    destruct IH as (Hge & Hall & Hin).
    destruct (Qltb m l) eqn:E.
    + apply Qltb_spec in E.
      split; [lra|]. split; [constructor; assumption|].
      right. destruct Hin as [-> | Hin]; [now left | now right].
    + assert (l <= m).
      { destruct (Qlt_le_dec m l) as [Hlt|Hle]; [|exact Hle].
        apply Qltb_spec in Hlt. congruence. }
      split; [exact Hge|]. split; [constructor; [lra | assumption]|].
      destruct Hin as [-> | Hin]; [now left | right; now right].
Qed.

Lemma fold_scan_lengths (orest vs : list MeshVertex) (m : Q) :
  fold_left
    (fun m '(o, v) =>
       if Qltb m (vlength (vsub (co v) (co o)))
       then vlength (vsub (co v) (co o)) else m)
    (combine orest vs) m
  = fold_left (fun m l => if Qltb m l then l else m)
      (map (fun '(o, v) => vlength (vsub (co v) (co o))) (combine orest vs))
      m.
Proof.
  revert m. induction (combine orest vs) as [|[o v] ps IH]; intros m;
    [reflexivity|].
  cbn [fold_left map]. apply IH.
Qed.

Lemma scan_frames_max (original : list MeshVertex) (ms : list Mesh) :
  Forall (fits original) ms ->
  forall m,
    for_each ms
      (fun m me => for_each (indexed (vertices me)) (scan_vertex original) m)
      m
    = Ok (fold_left (fun m l => if Qltb m l then l else m)
            (offset_lengths original ms) m).
Proof.
  induction 1 as [|me ms Hme _ IH]; intros m; [reflexivity|].
  cbn [for_each]. unfold indexed.
  rewrite (scan_frame original (vertices me) 0 original m eq_refl).
  apply Nat.leb_le in Hme. unfold vertex_count_of in Hme. rewrite Hme.
  cbn [Py.bind]. rewrite IH, fold_scan_lengths.
  unfold offset_lengths. cbn [flat_map]. now rewrite fold_left_app.
Qed.

Lemma offset_lengths_rev (original : list MeshVertex) (ms : list Mesh) (l : Q) :
  In l (offset_lengths original (rev ms)) <-> In l (offset_lengths original ms).
Proof.
  unfold offset_lengths. rewrite !in_flat_map.
  split; intros (me & Hme & Hl); exists me; (split; [|exact Hl]).
  - now apply in_rev.
  - now apply in_rev in Hme.
Qed.

(** What a successful [get_vertex_data] has done. *)
Lemma get_vertex_data_inv (meshes : list Mesh) (w w' : World)
    (offsets normals : list Q) :
  get_vertex_data meshes w = (Ok (offsets, normals), w') ->
  exists first rest s,
    meshes = first :: rest /\
    Forall (fits (vertices first)) meshes /\
    s = (let m := fold_left (fun m l => if Qltb m l then l else m)
                    (offset_lengths (vertices first) (rev meshes)) 0 in
         if Qeq_bool m 0 then 1 else m) /\
    ~ s == 0 /\
    offsets = flat_map (offset_row s (vertices first)) (rev meshes) /\
    normals = flat_map normal_row (rev meshes) /\
    w' = with_scene w (set_scale_factor (scene w) s).
Proof.
  intros Hrun. destruct meshes as [|first rest]; [discriminate|].
  assert (Hfit : Forall (fits (vertices first)) (first :: rest)).
  { apply Forall_forall. intros me Hme.
    destruct (le_dec (vertex_count_of me) (List.length (vertices first)))
      as [Hle|Hgt]; [exact Hle|].
    exfalso. revert Hrun. unfold get_vertex_data.
    cbn [getitem nth_error]. unfold bind_op at 1, lift at 1.
    unfold bind_op at 1, lift at 1.
    rewrite scan_frames_too_long; [discriminate|].
    apply Exists_exists. exists me. split; [|exact Hgt].
    now apply in_rev in Hme. }
  pose proof (scan_frames_max (vertices first) _ (Forall_rev Hfit) 0) as Hm.
  cbv zeta.
  set (m := fold_left _ (offset_lengths (vertices first) (rev (first :: rest)))
              0) in *.
  assert (Hs : ~ (if Qeq_bool m 0 then 1 else m) == 0).
  { destruct (Qeq_bool m 0) eqn:E; [discriminate|].
    now apply Qeq_bool_neq. }
  revert Hrun. unfold get_vertex_data.
  cbn [getitem nth_error]. unfold bind_op, lift, get_scene, put_scene.
  rewrite Hm.
  rewrite (encode_frames (vertices first) _ _ Hs (Forall_rev Hfit) [] []).
  cbn [app]. intros Hrun. injection Hrun as <- <- <-.
  exists first, rest, (if Qeq_bool m 0 then 1 else m).
  repeat (split; [reflexivity || assumption|]). reflexivity.
Qed.

(** X3.  The scale factor.  When [get_vertex_data] succeeds, the scale
    factor it stores in the scene is positive and at least the length
    of every offset of every frame; it is the length of one of these
    offsets when one of them is positive, and [1] when none is. *)
Theorem scale_factor_is_largest_offset (meshes : list Mesh) (w w' : World)
    (planes : list Q * list Q) :
  get_vertex_data meshes w = (Ok planes, w') ->
  exists first : Mesh,
    nth_error meshes 0 = Some first /\
    let lengths := offset_lengths (vertices first) meshes in
    let s := scale_factor (scene w') in
    0 < s /\
    Forall (fun l => l <= s) lengths /\
    (Exists (fun l => 0 < l) lengths -> In s lengths) /\
    (Forall (fun l => l <= 0) lengths -> s = 1).
Proof.
  destruct planes as [offsets normals]. intros Hrun.
  destruct (get_vertex_data_inv _ _ _ _ _ Hrun)
    as (first & rest & s & -> & _ & Hs & Hs0 & _ & _ & ->).
  exists first. split; [reflexivity|].
  cbn [scene with_scene scale_factor set_scale_factor].
  cbv zeta in Hs. cbv zeta.
  destruct (scan_max (offset_lengths (vertices first) (rev (first :: rest))) 0)
    as (Hge & Hall & Hin).
  set (m := fold_left _ _ 0) in *.
  assert (Hall' : Forall (fun l => l <= m)
                    (offset_lengths (vertices first) (first :: rest))).
  { apply Forall_forall. intros l Hl.
    apply (proj2 (offset_lengths_rev _ _ _)) in Hl.
    rewrite Forall_forall in Hall. now apply Hall. }
  destruct (Qeq_bool m 0) eqn:E.
  - apply Qeq_bool_eq in E. subst s.
    split; [lra|]. split.
    + eapply Forall_impl; [|exact Hall']. intros l Hl. cbv beta in Hl. lra.
    + split; [|reflexivity].
      intros Hex. apply Exists_exists in Hex. destruct Hex as (l & Hl & Hpos).
      rewrite Forall_forall in Hall'. specialize (Hall' l Hl). lra.
  - apply Qeq_bool_neq in E. subst s.
    assert (Hpos : 0 < m).
    { apply Qle_lteq in Hge. destruct Hge as [Hlt|He]; [exact Hlt|].
      elim E. symmetry. exact He. }
    split; [exact Hpos|]. split; [exact Hall'|]. split.
    + intros _.
      destruct Hin as [Hm|Hin];
        [exfalso; apply E; rewrite Hm; reflexivity|].
      apply (proj1 (offset_lengths_rev _ _ _)) in Hin. exact Hin.
    + intros Hnone. exfalso.
      destruct Hin as [Hm|Hin]; [exfalso; apply E; rewrite Hm; reflexivity|].
      apply (proj1 (offset_lengths_rev _ _ _)) in Hin.
      rewrite Forall_forall in Hnone. specialize (Hnone m Hin). lra.
Qed.

(** X4.  The normal plane.  When [get_vertex_data] succeeds and the
    normals of the frames have their components in [[-1,1]], every
    value of the normal plane lies in [[0,1]]. *)
Theorem normal_plane_in_unit_range (meshes : list Mesh) (w w' : World)
    (offsets normals : list Q) :
  get_vertex_data meshes w = (Ok (offsets, normals), w') ->
  (forall me v, In me meshes -> In v (vertices me) ->
     let '(x, y, z) := normal v in
     -1 <= x <= 1 /\ -1 <= y <= 1 /\ -1 <= z <= 1) ->
  Forall (fun c => 0 <= c <= 1) normals.
Proof.
  intros Hrun Hunit.
  destruct (get_vertex_data_inv _ _ _ _ _ Hrun)
    as (first & rest & s & _ & _ & _ & _ & _ & -> & _).
  assert (Hc : forall x, -1 <= x <= 1 -> 0 <= fmul (fadd x 1) 0.5 <= 1).
  { intros x Hx. unfold fmul, fadd.
    assert (H2 : 0 <= rnd (x + 1) <= 2)
      by (apply (rnd_between 0 2); [simpl; lia | simpl; lia |];
          change (inject_Z 0) with 0; change (inject_Z 2) with 2; lra).
    apply (rnd_between 0 1); [simpl; lia | simpl; lia |].
    change (inject_Z 0) with 0. change (inject_Z 1) with 1. lra. }
  apply Forall_forall. intros c Hin.
  apply in_flat_map in Hin. destruct Hin as (me & Hme & Hin).
  apply in_rev in Hme. unfold normal_row in Hin.
  apply in_flat_map in Hin. destruct Hin as (v & Hv & Hin).
  specialize (Hunit me v Hme Hv). unfold normal_pixel in Hin.
  destruct (normal v) as [[x y] z]. destruct Hunit as (Hx & Hy & Hz).
  cbn [In] in Hin.
  destruct Hin as [<- | [<- | [<- | [<- | []]]]];
    [now apply Hc | now apply Hc | now apply Hc | lra].
Qed.

End VertexDataRange.

Lemma scale_factor_is_largest_offset_witness :
  exists first : Mesh,
    nth_error [point_mesh 0; point_mesh 1; point_mesh 4] 0 = Some first /\
    let lengths :=
      offset_lengths (V := exact_vectors) (vertices first)
        [point_mesh 0; point_mesh 1; point_mesh 4] in
    let s :=
      scale_factor
        (scene (snd (get_vertex_data (F := binary64) (V := exact_vectors)
                       [point_mesh 0; point_mesh 1; point_mesh 4]
                       blank_world))) in
    0 < s /\
    Forall (fun l => l <= s) lengths /\
    (Exists (fun l => 0 < l) lengths -> In s lengths) /\
    (Forall (fun l => l <= 0) lengths -> s = 1).
Proof.
  eapply (scale_factor_is_largest_offset (F := binary64) (V := exact_vectors)
            [point_mesh 0; point_mesh 1; point_mesh 4] blank_world).
  vm_compute. reflexivity.
Defined.

Lemma normal_plane_in_unit_range_witness :
  Forall (fun c => 0 <= c <= 1)
    (snd (match fst (get_vertex_data (F := binary64) (V := exact_vectors)
                       [point_mesh 0; point_mesh 4] blank_world) with
          | Ok planes => planes
          | Raise _ => ([], [])
          end)).
Proof.
  eapply (normal_plane_in_unit_range (F := binary64) (V := exact_vectors)
            [point_mesh 0; point_mesh 4] blank_world).
  - vm_compute. reflexivity.
  - intros me v [<- | [<- | []]] [<- | []]; cbn; repeat split; lra.
Defined.

Lemma byte_planes_are_images_witness :
  List.length (fst (byte_planes (F := binary64) [0.25; 1.5; -3]%Q)) = 3%nat /\
  List.length (snd (byte_planes (F := binary64) [0.25; 1.5; -3]%Q)) = 3%nat /\
  Forall (fun x => (0 <= x <= 1)%Q)
    (fst (byte_planes (F := binary64) [0.25; 1.5; -3]%Q)) /\
  Forall (fun x => (0 <= x <= 1)%Q)
    (snd (byte_planes (F := binary64) [0.25; 1.5; -3]%Q)).
Proof.
  destruct (byte_planes_are_images (F := binary64) [0.25; 1.5; -3]%Q)
    as (H1 & H2 & H3 & H4).
  { repeat constructor; unfold int_defined, Qle; vm_compute; discriminate. }
  split; [exact H1|]. split; [exact H2|].
  split; (eapply Forall_impl; [|eassumption]);
    intros x (b & _ & _ & Hx); exact Hx.
Defined.

(** ** The export mesh *)

Local Open Scope Z_scope.

Lemma map_result_ok {A B} (f : A -> result B) (xs : list A) :
  (forall x, In x xs -> exists y, f x = Ok y) ->
  exists ys, map_result f xs = Ok ys.
Proof.
  induction xs as [|x xs IH]; intros Hall; [now exists []|].
  destruct (Hall x (or_introl eq_refl)) as [y Hy].
  destruct IH as [ys Hys]; [intros x' Hx'; apply Hall; now right|].
  exists (y :: ys). cbn [map_result]. now rewrite Hy, Hys.
Qed.

Lemma map_result_raise {A B} (f : A -> result B) (xs : list A) (e : exn) :
  (forall x, In x xs -> (exists y, f x = Ok y) \/ f x = Raise e) ->
  (exists x, In x xs /\ f x = Raise e) ->
  map_result f xs = Raise e.
Proof.
  induction xs as [|x xs IH]; intros Hall (x0 & Hin & Hx0); [destruct Hin|].
  cbn [map_result].
  destruct (Hall x (or_introl eq_refl)) as [[y Hy] | Hr];
    [|now rewrite Hr].
  rewrite Hy. cbn [Py.bind].
  rewrite IH; [reflexivity | intros x' Hx'; apply Hall; now right |].
  destruct Hin as [-> | Hin]; [congruence|]. now exists x0.
Qed.

Lemma map_result_length {A B} (f : A -> result B) (xs : list A) (ys : list B) :
  map_result f xs = Ok ys -> List.length ys = List.length xs.
Proof.
  revert ys. induction xs as [|x xs IH]; intros ys H; cbn [map_result] in H.
  - now injection H as <-.
  - destruct (f x) as [y|]; [|discriminate]. cbn [Py.bind] in H.
    destruct (map_result f xs) as [ys'|]; [|discriminate].
    injection H as <-. cbn [List.length]. f_equal. now apply IH.
Qed.

Lemma map_result_all {A B} (f : A -> result B) (P : B -> Prop)
    (xs : list A) (ys : list B) :
  (forall x y, f x = Ok y -> P y) ->
  map_result f xs = Ok ys -> Forall P ys.
Proof.
  intros HP. revert ys.
  induction xs as [|x xs IH]; intros ys H; cbn [map_result] in H.
  - injection H as <-. constructor.
  - destruct (f x) as [y|] eqn:Ey; [|discriminate]. cbn [Py.bind] in H.
    destruct (map_result f xs) as [ys'|]; [|discriminate].
    injection H as <-. constructor; [now apply (HP x) | now apply IH].
Qed.

Section ExportMesh.
Context {F : PyFloat} {FL : PyFloatLaws F} {host : Bpy}.
Variable texture_size : Z.

Lemma loop_uv_v (chunks remainder idx : Z) (uv : Q * Q) :
  loop_uv texture_size chunks remainder idx = Ok uv -> snd uv = fdiv 128 255.
Proof.
  unfold loop_uv. intros H.
  destruct (floordiv idx texture_size); [|discriminate].
  destruct (mod_ idx texture_size); [|discriminate].
  cbn [Py.bind] in H.
  destruct (truediv 1.5 _); [|discriminate]. cbn [Py.bind] in H.
  destruct (truediv _ _); [|discriminate]. cbn [Py.bind] in H.
  now injection H as <-.
Qed.

(** X5.  What the export mesh keeps.  When [create_export_mesh_object]
    succeeds, the mesh has the vertices and the loops it had; it has two
    UV layers or as many as it had, if more; every layer but the second
    is as it was, or a new layer as the host makes it; the second is
    named [vertex_anim] and has one UV for each loop, whose [v] is the
    float [128 / 255] in the single precision the layer keeps. *)
Theorem export_mesh_keeps_geometry (me me' : Mesh) :
  texture_size <> 0 ->
  uv_layers_wf me ->
  create_export_mesh_object texture_size me = Ok me' ->
  vertices me' = vertices me /\
  loops me' = loops me /\
  List.length (uv_layers me') = Nat.max 2 (List.length (uv_layers me)) /\
  (forall k, k <> 1%nat ->
     nth_error (uv_layers me') k
     = if (k <? List.length (uv_layers me))%nat
       then nth_error (uv_layers me) k
       else if (k <? 2)%nat then Some (new_uv_layer me) else None) /\
  exists data : list (Q * Q),
    nth_error (uv_layers me') 1
    = Some {| uv_name := "vertex_anim"; uv_data := data |} /\
    List.length data = List.length (loops me) /\
    Forall (fun uv => snd uv = single (fdiv 128 255)) data.
Proof.
  intros HC Hwf Hrun.
  rewrite (create_export_mesh_object_spec texture_size me HC Hwf) in Hrun.
  cbv zeta in Hrun.
  destruct (map_result _ (loops me)) as [uvs|] eqn:Huvs; [|discriminate].
  cbn [Py.bind] in Hrun.
  destruct (two_layers me) as [|l0 [|l1 ls]] eqn:Hl; try discriminate.
  injection Hrun as <-. cbn [vertices loops uv_layers].
  split; [reflexivity|]. split; [reflexivity|].
  unfold two_layers in Hl.
  split; [|split].
  - assert (Hlen : List.length (l0 :: l1 :: ls)
                   = Nat.max 2 (List.length (uv_layers me)))
      by (rewrite <- Hl, length_app, repeat_length; lia).
    exact Hlen.
  - intros k Hk.
    assert (E : nth_error (l0 :: {| uv_name := "vertex_anim";
                                   uv_data := map store_uv uvs |} :: ls) k
                = nth_error (l0 :: l1 :: ls) k)
      by (destruct k as [|[|k]]; [reflexivity | congruence | reflexivity]).
    rewrite E, <- Hl. clear E Hl.
    destruct (Nat.ltb_spec k (List.length (uv_layers me))) as [Hlt|Hge].
    + now rewrite nth_error_app1.
    + rewrite nth_error_app2 by exact Hge.
      destruct (Nat.ltb_spec k 2) as [Hlt2|Hge2].
      * assert (k = 0%nat) by lia. subst k.
        assert (Hz : List.length (uv_layers me) = 0%nat) by lia.
        rewrite Hz. reflexivity.
      * apply nth_error_None. rewrite repeat_length. lia.
  - exists (map store_uv uvs). split; [reflexivity|].
    split; [rewrite length_map; exact (map_result_length _ _ _ Huvs)|].
    apply Forall_map.
    eapply map_result_all; [|exact Huvs].
    intros x y Hy. cbn [store_uv snd]. now rewrite (loop_uv_v _ _ _ _ Hy).
Qed.

(** The UV of a loop at a vertex of the mesh raises in one case only. *)
Lemma loop_uv_cases (vertex_count idx : Z) :
  1 < texture_size -> 0 <= idx < vertex_count ->
  let raises := vertex_count mod texture_size = 1 /\ idx = vertex_count - 1 in
  (raises ->
   loop_uv texture_size (vertex_count / texture_size)
     (vertex_count mod texture_size) idx = Raise ZeroDivisionError) /\
  (~ raises ->
   exists uv,
     loop_uv texture_size (vertex_count / texture_size)
       (vertex_count mod texture_size) idx = Ok uv).
Proof.
  intros HC Hidx raises.
  pose proof (Z.div_mod idx texture_size ltac:(lia)) as Hi.
  pose proof (Z.mod_pos_bound idx texture_size ltac:(lia)) as Hir.
  pose proof (Z.div_mod vertex_count texture_size ltac:(lia)) as Hn.
  pose proof (Z.mod_pos_bound vertex_count texture_size ltac:(lia)) as Hnr.
  assert (Hle : idx / texture_size <= vertex_count / texture_size)
    by (apply Z.div_le_mono; lia).
  set (w := current_pixel_width texture_size (vertex_count / texture_size)
              (vertex_count mod texture_size) (idx / texture_size)).
  assert (Hw : w = 1 <-> raises).
  { unfold w, raises, current_pixel_width.
    destruct (Z.ltb_spec (idx / texture_size) (vertex_count / texture_size))
      as [Hlt|Hge].
    - split; [lia|]. intros [Hm ->]. exfalso.
      assert (vertex_count - 1 = texture_size * (vertex_count / texture_size))
        by lia.
      assert ((vertex_count - 1) / texture_size = vertex_count / texture_size).
      { rewrite H, Z.mul_comm. apply Z.div_mul. lia. }
      lia.
    - assert (E : idx / texture_size = vertex_count / texture_size) by lia.
      split; [|tauto]. intros Hm. split; [exact Hm|]. nia. }
  assert (Hw0 : w <> 0).
  { unfold w, current_pixel_width.
    destruct (Z.ltb_spec (idx / texture_size) (vertex_count / texture_size))
      as [Hlt|Hge]; [lia|].
    intros Hz. nia. }
  split.
  - intros Hr. rewrite loop_uv_unfold by lia. fold w.
    rewrite (proj2 Hw Hr). reflexivity.
  - intros Hr. eexists. apply loop_uv_ok; fold w; [lia | exact Hw0 |].
    intros Hone. apply Hr, Hw, Hone.
Qed.

(** A mesh without a lone last column gets its UVs. *)
Lemma create_export_mesh_object_ok (me : Mesh) :
  1 < texture_size ->
  uv_layers_wf me ->
  let n := Z.of_nat (List.length (vertices me)) in
  Forall (fun vertex_index => 0 <= vertex_index < n) (loops me) ->
  ~ (n mod texture_size = 1 /\ In (n - 1) (loops me)) ->
  exists me', create_export_mesh_object texture_size me = Ok me'.
Proof.
  intros HC Hwf n Hvalid Hnot.
  rewrite (create_export_mesh_object_spec texture_size me ltac:(lia) Hwf).
  fold n. rewrite Forall_forall in Hvalid.
  destruct (map_result_ok
              (loop_uv texture_size (n / texture_size) (n mod texture_size))
              (loops me)) as [uvs Huvs].
  { intros idx Hidx.
    apply (loop_uv_cases n idx HC (Hvalid idx Hidx)).
    intros [Hm E]. apply Hnot. split; [exact Hm|]. now rewrite <- E. }
  rewrite Huvs. cbn [Py.bind].
  destruct (two_layers_second me Hwf) as (l0 & l1 & ls & Hl & _).
  rewrite Hl. eexists. reflexivity.
Qed.

(** X6.  When the export mesh cannot be made.  For a chunk width of at
    least two and a mesh whose loops are at vertices of the mesh,
    [create_export_mesh_object] fails in one case only: the vertex count
    leaves a remainder of one and a loop is at the last vertex.  It then
    raises [ZeroDivisionError]; in every other case it returns the
    mesh. *)
Theorem export_mesh_fails_iff (me : Mesh) :
  1 < texture_size ->
  uv_layers_wf me ->
  let n := Z.of_nat (List.length (vertices me)) in
  Forall (fun vertex_index => 0 <= vertex_index < n) (loops me) ->
  let lone_column := n mod texture_size = 1 /\ In (n - 1) (loops me) in
  (lone_column ->
   create_export_mesh_object texture_size me = Raise ZeroDivisionError) /\
  (~ lone_column ->
   exists me', create_export_mesh_object texture_size me = Ok me').
Proof.
  intros HC Hwf n Hvalid lone_column.
  split; [|now apply create_export_mesh_object_ok].
  rewrite (create_export_mesh_object_spec texture_size me ltac:(lia) Hwf).
  fold n. rewrite Forall_forall in Hvalid.
  intros [Hm Hin].
  rewrite (map_result_raise _ _ ZeroDivisionError); [reflexivity | |].
  - intros idx Hidx.
    destruct (loop_uv_cases n idx HC (Hvalid idx Hidx)) as [Hr Hok].
    destruct (Z.eq_dec idx (n - 1)) as [E|E].
    + right. apply Hr. now split.
    + left. apply Hok. intros [_ E']. contradiction.
  - exists (n - 1). split; [exact Hin|].
    apply (loop_uv_cases n (n - 1) HC (Hvalid _ Hin)). now split.
Qed.

(** X21.  Making the export mesh twice.  When
    [create_export_mesh_object] has succeeded on a mesh, the mesh it
    returns has well-formed UV layers again, and running it on that mesh
    returns the same mesh: the UVs depend on the vertices and the loops
    only, which it does not change. *)
Theorem export_mesh_idempotent (me me' : Mesh) :
  texture_size <> 0 ->
  uv_layers_wf me ->
  create_export_mesh_object texture_size me = Ok me' ->
  uv_layers_wf me' /\
  create_export_mesh_object texture_size me' = Ok me'.
Proof.
  intros HC Hwf Hrun.
  pose proof Hrun as Hrun'.
  rewrite (create_export_mesh_object_spec texture_size me HC Hwf) in Hrun.
  cbv zeta in Hrun.
  destruct (map_result _ (loops me)) as [uvs|] eqn:Huvs; [|discriminate].
  cbn [Py.bind] in Hrun.
  destruct (two_layers me) as [|l0 [|l1 ls]] eqn:Hl; try discriminate.
  injection Hrun as <-.
  assert (Hall : Forall (fun l => List.length (uv_data l)
                                  = List.length (loops me))
                   (l0 :: l1 :: ls)).
  { rewrite <- Hl. unfold two_layers. apply Forall_app. split; [exact Hwf|].
    apply Forall_forall. intros l Hin. apply repeat_spec in Hin. subst l.
    cbn [new_uv_layer uv_data]. now rewrite length_map, length_seq. }
  assert (Hwf' : uv_layers_wf
                   {| vertices := vertices me; loops := loops me;
                      uv_layers :=
                        l0 :: {| uv_name := "vertex_anim";
                                 uv_data := map store_uv uvs |} :: ls |}).
  { unfold uv_layers_wf. cbn [uv_layers loops].
    inversion Hall as [|? ? H0 Hrest]; subst.
    inversion Hrest as [|? ? H1 Hls]; subst.
    constructor; [exact H0|]. constructor; [|exact Hls].
    cbn [uv_data]. rewrite length_map.
    exact (map_result_length _ _ _ Huvs). }
  split; [exact Hwf'|].
  rewrite (create_export_mesh_object_spec texture_size _ HC Hwf').
  cbn [vertices loops]. rewrite Huvs. cbn [Py.bind].
  unfold two_layers. cbn [uv_layers List.length Nat.sub repeat].
  rewrite app_nil_r. reflexivity.
Qed.

End ExportMesh.

Lemma export_mesh_keeps_geometry_witness :
  exists me' : Mesh,
    create_export_mesh_object (F := binary64) (host := blender) 128
      (plain_mesh 200 [0; 127; 199])
    = Ok me' /\
    vertices me' = vertices (plain_mesh 200 [0; 127; 199]) /\
    loops me' = [0; 127; 199] /\
    List.length (uv_layers me') = 2%nat /\
    nth_error (uv_layers me') 0
    = Some {| uv_name := "UVMap";
              uv_data := [(0, 0); (1, 0); (1, 1)]%Q |} /\
    exists data : list (Q * Q),
      nth_error (uv_layers me') 1
      = Some {| uv_name := "vertex_anim"; uv_data := data |} /\
      List.length data = 3%nat /\
      Forall (fun uv => snd uv = (8421505 # 16777216)%Q) data.
Proof.
  destruct (create_export_mesh_object (F := binary64) (host := blender) 128
              (plain_mesh 200 [0; 127; 199])) as [me'|] eqn:E;
    [|vm_compute in E; discriminate].
  exists me'. split; [reflexivity|].
  destruct (export_mesh_keeps_geometry (F := binary64) (host := blender) 128
              (plain_mesh 200 [0; 127; 199]) me')
    as (Hv & Hl & Hn & Hk & Hd).
  - lia.
  - constructor.
  - exact E.
  - split; [exact Hv|]. split; [exact Hl|]. split; [exact Hn|].
    split; [exact (Hk 0%nat ltac:(discriminate))|]. exact Hd.
Defined.

Lemma export_mesh_fails_iff_witness :
  create_export_mesh_object (F := binary64) (host := blender) 128
    (plain_mesh 129 [0; 128])
  = Raise ZeroDivisionError /\
  exists me',
    create_export_mesh_object (F := binary64) (host := blender) 128
      (plain_mesh 129 [0; 127])
    = Ok me'.
Proof.
  split.
  - apply (export_mesh_fails_iff (F := binary64) (host := blender) 128
             (plain_mesh 129 [0; 128])).
    + lia.
    + constructor.
    + repeat constructor; vm_compute; congruence.
    + split; [reflexivity | right; left; reflexivity].
  - apply (export_mesh_fails_iff (F := binary64) (host := blender) 128
             (plain_mesh 129 [0; 127])).
    + lia.
    + constructor.
    + repeat constructor; vm_compute; congruence.
    + intros [_ [H | [H | []]]]; vm_compute in H; discriminate.
Defined.

Lemma export_mesh_idempotent_witness :
  exists me' : Mesh,
    create_export_mesh_object (F := binary64) (host := blender) 128
      (plain_mesh 200 [0; 127; 199])
    = Ok me' /\
    uv_layers_wf me' /\
    create_export_mesh_object (F := binary64) (host := blender) 128 me'
    = Ok me'.
Proof.
  destruct (create_export_mesh_object (F := binary64) (host := blender) 128
              (plain_mesh 200 [0; 127; 199])) as [me'|] eqn:E;
    [|vm_compute in E; discriminate].
  exists me'. split; [reflexivity|].
  apply (export_mesh_idempotent (F := binary64) (host := blender) 128
           (plain_mesh 200 [0; 127; 199]) me').
  - lia.
  - constructor.
  - exact E.
Defined.

(** ** The files that are written *)

Local Open Scope Z_scope.









Section Bake.
Context {F : PyFloat} {FL : PyFloatLaws F} {host : Bpy}.
Variable C : Z.
Hypothesis C_pos : 0 < C.

Lemma create_and_save_image_events (byte_list : list Q) (name dir : string)
    (W H : Z) (w : World) :
  0 <= W -> 0 <= H ->
  Z.of_nat (List.length byte_list) = W * H * 4 ->
  create_and_save_image C byte_list name (W, H) dir w
  = (Ok tt, fold_left emit (plane_events C byte_list name dir W H) w).
Proof. intros HW HH Hlen. now apply create_and_save_image_run. Qed.

Lemma length_byte_planes (pixel_list : list Q) :
  List.length (fst (byte_planes pixel_list)) = List.length pixel_list /\
  List.length (snd (byte_planes pixel_list)) = List.length pixel_list.
Proof. rewrite byte_planes_map. cbn [fst snd]. now rewrite !length_map. Qed.

Lemma write_output_image_events (pixel_list : list Q) (name dir : string)
    (W H : Z) (w : World) :
  0 <= W -> 0 <= H ->
  Z.of_nat (List.length pixel_list) = W * H * 4 ->
  write_output_image C pixel_list name (W, H) dir w
  = (Ok tt, fold_left emit (image_events C pixel_list name dir W H) w).
Proof.
  intros HW HH Hlen.
  destruct (length_byte_planes pixel_list) as [Hh Hl].
  unfold write_output_image, image_events.
  destruct (byte_planes pixel_list) as [hs ls]. cbn [fst snd] in *.
  unfold bind_op.
  rewrite !create_and_save_image_events by (assumption || congruence).
  now rewrite fold_left_app.
Qed.

Lemma bake_vertex_data_events (offsets normals : list Q) (name : string)
    (W H : Z) (w : World) :
  0 <= W -> 0 <= H ->
  Z.of_nat (List.length offsets) = W * H * 4 ->
  Z.of_nat (List.length normals) = W * H * 4 ->
  bake_vertex_data C offsets normals (W, H) name w
  = (Ok tt,
     fold_left emit
       (bake_events C offsets normals name (abspath (output_dir (scene w)))
          W H) w).
Proof.
  intros HW HH Ho Hn.
  unfold bake_vertex_data, bake_events.
  unfold bind_op, get_scene.
  rewrite !write_output_image_events by assumption.
  now rewrite fold_left_app.
Qed.





End Bake.


(** ** The images that are saved *)

Section SavedImages.
Context {F : PyFloat} {FL : PyFloatLaws F}.
Variable C : Z.
Hypothesis C_pos : 0 < C.

(** X8.  The images are well formed.  For a plane of [W * H] pixels,
    every image [create_and_save_image] saves has a pixel buffer of
    exactly four values for each of its [img_width * img_height] pixels;
    it is between 3 and [chunk_width + 2] pixels wide and [H] high, and
    it is saved at a size of at least 32 by 32: an image that is
    narrower or lower is scaled up to 32 in that direction, and an image
    that is neither is not scaled. *)
Theorem saved_images_well_formed (byte_list : list Q) (name dir : string)
    (W H : Z) (w : World) :
  0 <= W -> 0 <= H ->
  Z.of_nat (List.length byte_list) = W * H * 4 ->
  exists evs : list event,
    create_and_save_image C byte_list name (W, H) dir w
    = (Ok tt, fold_left emit evs w) /\
    forall image, In image (saved_images evs) ->
      Z.of_nat (List.length (img_pixels image))
      = 4 * img_width image * img_height image /\
      3 <= img_width image <= C + 2 /\
      img_height image = H /\
      final_size image = (Z.max 32 (img_width image), Z.max 32 H) /\
      (img_scaled image = None <-> 32 <= img_width image /\ 32 <= H).
Proof.
  intros HW HH Hlen. eexists.
  split; [now apply create_and_save_image_run|].
  intros image Hin. rewrite saved_images_map_save in Hin.
  apply in_map_iff in Hin. destruct Hin as (i & <- & Hi).
  unfold range in Hi. apply in_map_iff in Hi. destruct Hi as (k & <- & Hk).
  apply in_seq in Hk. fold (chunk_total C W) in Hk.
  assert (Hi : 0 <= Z.of_nat k < chunk_total C W) by lia.
  split; [now apply chunk_image_buffer|].
  destruct (chunk_total_bounds C C_pos W _ HW Hi) as [Hlw _].
  set (i := Z.of_nat k) in *.
  set (image := chunk_image C byte_list name W H (W / C) (W mod C)
                  padding_pixel i).
  assert (Hwidth : img_width image
                   = (if i =? W / C then W mod C else C) + 2).
  { unfold image, chunk_image. cbn [img_width].
    destruct (i =? W / C); reflexivity. }
  split; [lia|]. split; [reflexivity|].
  unfold final_size.
  assert (Hsc : img_scaled image
                = if (img_width image <? 32) || (H <? 32)
                  then Some (Z.max 32 (img_width image), Z.max 32 H)
                  else None) by reflexivity.
  rewrite Hsc. change (img_height image) with H.
  destruct (Z.ltb_spec (img_width image) 32), (Z.ltb_spec H 32);
    cbn [orb]; (split; [try reflexivity; f_equal; lia|]);
    (split; [try discriminate; intros _; lia | intros [? ?]; try lia]);
    reflexivity.
Qed.

End SavedImages.

Lemma saved_images_well_formed_witness :
  exists evs : list event,
    create_and_save_image (F := binary64) 128 (repeat 0%Q 1600) "Cube_high"
      (200, 2) "//" blank_world
    = (Ok tt, fold_left emit evs blank_world) /\
    forall image, In image (saved_images evs) ->
      Z.of_nat (List.length (img_pixels image))
      = 4 * img_width image * img_height image /\
      3 <= img_width image <= 130 /\
      img_height image = 2 /\
      final_size image = (Z.max 32 (img_width image), 32) /\
      (img_scaled image = None <-> 32 <= img_width image /\ 32 <= 2).
Proof.
  apply (saved_images_well_formed (F := binary64) 128 eq_refl
           (repeat 0%Q 1600) "Cube_high" "//" 200 2 blank_world).
  - lia.
  - lia.
  - reflexivity.
Defined.

(** ** Where a pixel goes *)

Lemma firstn_skipn_window {A} (xs : list A) (a m p k : nat) :
  (p + k <= m)%nat ->
  firstn k (skipn p (firstn m (skipn a xs))) = firstn k (skipn (a + p) xs).
Proof.
  intros H. rewrite skipn_firstn_comm, firstn_firstn, skipn_skipn.
  f_equal; [lia | f_equal; lia].
Qed.


Lemma plane_pixel_window (plane : list Q) (width x y : Z) :
  0 <= y * width + x ->
  (y * width + x) * 4 + 4 <= Z.of_nat (List.length plane) ->
  plane_pixel plane width x y
  = firstn 4 (skipn (Z.to_nat ((y * width + x) * 4)) plane).
Proof.
  intros H0 H1. unfold plane_pixel. rewrite slice_inrange by lia.
  f_equal. lia.
Qed.

Section PixelPlace.
Context {F : PyFloat} {FL : PyFloatLaws F}.
Variable C : Z.
Hypothesis C_pos : 0 < C.



End PixelPlace.


Section VertexPlace.
Context {F : PyFloat} {FL : PyFloatLaws F}.
Context {V : Mathutils} {VL : MathutilsLaws V}.

Lemma pixel_of_row {A} (f : A -> list Q) (xs : list A) (i : nat) (x : A) :
  (forall a, List.length (f a) = 4%nat) ->
  nth_error xs i = Some x ->
  firstn 4 (skipn (i * 4) (flat_map f xs)) = f x.
Proof.
  intros Hf Hi. rewrite flat_map_concat_map.
  apply concat_uniform_row.
  - apply Forall_map, Forall_forall. intros a _. apply Hf.
  - now rewrite nth_error_map, Hi.
Qed.

Lemma nth_error_pairs {A B} (xs : list A) (ys : list B) (i : nat)
    (x : A) (y : B) :
  nth_error xs i = Some x -> nth_error ys i = Some y ->
  nth_error (combine xs ys) i = Some (x, y).
Proof.
  revert xs ys. induction i as [|i IH]; intros [|a xs] [|b ys] Hx Hy;
    try discriminate; cbn [nth_error combine] in *.
  - congruence.
  - now apply IH.
Qed.

Lemma pixel_of_plane (f : Mesh -> list Q) (n : nat) (ms : list Mesh)
    (r i : nat) (me : Mesh) :
  Forall (fun me => List.length (f me) = (4 * n)%nat) ms ->
  nth_error ms r = Some me -> (i < n)%nat ->
  plane_pixel (flat_map f ms) (Z.of_nat n) (Z.of_nat i) (Z.of_nat r)
  = firstn 4 (skipn (i * 4) (f me)).
Proof.
  intros Hall Hr Hi.
  assert (Hlen : List.length (flat_map f ms) = (List.length ms * (4 * n))%nat).
  { rewrite flat_map_concat_map.
    rewrite (concat_uniform_length (4 * n)) by (apply Forall_map; exact Hall).
    now rewrite length_map. }
  assert (Hlt : (r < List.length ms)%nat)
    by (apply nth_error_Some; congruence).
  rewrite plane_pixel_window by nia.
  rewrite <- (plane_row_flat_map f n ms Hall r me Hr). unfold plane_row.
  rewrite firstn_skipn_window by lia. do 2 f_equal. nia.
Qed.

(** The pixels of a vertex in the planes of [get_vertex_data]. *)
Lemma get_vertex_data_pixels (meshes : list Mesh) (n f i : nat)
    (first me : Mesh) (o v : MeshVertex) (w : World) :
  Forall (fun me => vertex_count_of me = n) meshes ->
  nth_error meshes 0 = Some first ->
  nth_error meshes f = Some me ->
  nth_error (vertices first) i = Some o ->
  nth_error (vertices me) i = Some v ->
  exists (s : Q) (offsets normals : list Q),
    ~ (s == 0)%Q /\
    get_vertex_data meshes w
    = (Ok (offsets, normals), with_scene w (set_scale_factor (scene w) s)) /\
    let row := Z.of_nat (List.length meshes - 1 - f) in
    plane_pixel offsets (Z.of_nat n) (Z.of_nat i) row = offset_pixel s o v /\
    plane_pixel normals (Z.of_nat n) (Z.of_nat i) row = normal_pixel v.
Proof.
  intros Hn Hfirst Hme Ho Hv.
  destruct meshes as [|first' rest]; [discriminate|].
  cbn [nth_error] in Hfirst. injection Hfirst as ->.
  assert (Hfit : Forall (fits (vertices first)) (first :: rest)).
  { assert (Hf : vertex_count_of first = n) by (inversion Hn; assumption).
    eapply Forall_impl; [|exact Hn]. intros m Hm. cbv beta in Hm.
    unfold fits, vertex_count_of in *. lia. }
  assert (Hfirstn : List.length (vertices first) = n)
    by (inversion Hn; assumption).
  destruct (get_vertex_data_ok first rest w Hfit)
    as (m & s & _ & _ & Hs & Hrun).
  eexists s, _, _. split; [exact Hs|]. split; [exact Hrun|].
  cbv zeta.
  assert (Hf : (f < List.length (first :: rest))%nat)
    by (apply nth_error_Some; congruence).
  assert (Hi : (i < n)%nat).
  { rewrite <- Hfirstn. apply nth_error_Some. congruence. }
  assert (Hrev : nth_error (rev (first :: rest))
                   (List.length (first :: rest) - 1 - f) = Some me).
  { rewrite nth_error_rev.
    destruct (Nat.ltb_spec (List.length (first :: rest) - 1 - f)
                (List.length (first :: rest))); [|lia].
    rewrite <- Hme. f_equal. lia. }
  split.
  - rewrite (pixel_of_plane _ n _ _ i me); [| |exact Hrev|exact Hi].
    + unfold offset_row.
      apply (pixel_of_row (fun '(o, v) => offset_pixel s o v) _ i (o, v)).
      * intros [a b]. apply length_offset_pixel.
      * now apply nth_error_pairs.
    + apply Forall_rev. eapply Forall_impl; [|exact Hn].
      intros m' Hm'. cbv beta in Hm'. rewrite length_offset_row; lia.
  - rewrite (pixel_of_plane _ n _ _ i me); [| |exact Hrev|exact Hi].
    + unfold normal_row.
      apply (pixel_of_row normal_pixel _ i v);
        [apply length_normal_pixel | exact Hv].
    + apply Forall_rev. eapply Forall_impl; [|exact Hn].
      intros m' Hm'. cbv beta in Hm'. rewrite length_normal_row; lia.
Qed.

(** X10.  The pixel of a vertex.  For a sequence of frames of [n]
    vertices each, [get_vertex_data] puts the vertex [i] of the frame
    [f] in column [i] of row [frameCount - 1 - f] of both planes: the
    pixel there is the encoded offset of the vertex from the vertex [i]
    of frame 0, and its encoded normal. *)
Theorem vertex_pixel_position (meshes : list Mesh) (n f i : nat)
    (first me : Mesh) (o v : MeshVertex) (w : World) :
  Forall (fun me => vertex_count_of me = n) meshes ->
  nth_error meshes 0 = Some first ->
  nth_error meshes f = Some me ->
  nth_error (vertices first) i = Some o ->
  nth_error (vertices me) i = Some v ->
  exists (offsets normals : list Q) (w' : World),
    get_vertex_data meshes w = (Ok (offsets, normals), w') /\
    let row := Z.of_nat (List.length meshes - 1 - f) in
    plane_pixel offsets (Z.of_nat n) (Z.of_nat i) row
    = offset_pixel (scale_factor (scene w')) o v /\
    plane_pixel normals (Z.of_nat n) (Z.of_nat i) row = normal_pixel v.
Proof.
  intros Hn Hfirst Hme Ho Hv.
  destruct (get_vertex_data_pixels meshes n f i first me o v w
              Hn Hfirst Hme Ho Hv) as (s & offsets & normals & _ & Hrun & Hpix).
  exists offsets, normals, (with_scene w (set_scale_factor (scene w) s)).
  split; [exact Hrun | exact Hpix].
Qed.

(** A vertex at its rest position has no offset, whatever the scale. *)
Lemma offset_pixel_rest (s : Q) (o v : MeshVertex) :
  ~ (s == 0)%Q -> co v = co o ->
  exists r g b : Q,
    offset_pixel s o v = [r; g; b; 1%Q] /\
    (r == 0.5)%Q /\ (g == 0.5)%Q /\ (b == 0.5)%Q.
Proof.
  intros Hs Hco. unfold offset_pixel. rewrite Hco.
  pose proof (vdiv_zero (vsub (co o) (co o)) s (vsub_diag (co o)) Hs) as Hz.
  destruct (vdiv (vsub (co o) (co o)) s) as [[x y] z].
  destruct Hz as (Hx & Hy & Hz).
  eexists _, _, _. split; [reflexivity|].
  split; [now apply half_of_one_plus|].
  split; [|now apply half_of_one_plus].
  apply half_of_one_plus. rewrite Hy. reflexivity.
Qed.

(** X20.  A vertex that has not moved.  For a sequence of frames of
    [n] vertices each, a vertex of a frame that is where the vertex of
    the same index is in frame 0 gets the offset pixel
    [(0.5, 0.5, 0.5, 1)], whatever the scale factor the other vertices
    give: in particular the row of frame 0 itself, the last row of the
    offset plane, is all of such pixels. *)
Theorem unmoved_vertex_is_mid_grey (meshes : list Mesh) (n f i : nat)
    (first me : Mesh) (o v : MeshVertex) (w : World) :
  Forall (fun me => vertex_count_of me = n) meshes ->
  nth_error meshes 0 = Some first ->
  nth_error meshes f = Some me ->
  nth_error (vertices first) i = Some o ->
  nth_error (vertices me) i = Some v ->
  co v = co o ->
  exists (offsets normals : list Q) (w' : World) (r g b : Q),
    get_vertex_data meshes w = (Ok (offsets, normals), w') /\
    plane_pixel offsets (Z.of_nat n) (Z.of_nat i)
      (Z.of_nat (List.length meshes - 1 - f)) = [r; g; b; 1%Q] /\
    (r == 0.5)%Q /\ (g == 0.5)%Q /\ (b == 0.5)%Q.
Proof.
  intros Hn Hfirst Hme Ho Hv Hco.
  destruct (get_vertex_data_pixels meshes n f i first me o v w
              Hn Hfirst Hme Ho Hv)
    as (s & offsets & normals & Hs & Hrun & Hpix & _).
  destruct (offset_pixel_rest s o v Hs Hco) as (r & g & b & Hp & Hrgb).
  exists offsets, normals, (with_scene w (set_scale_factor (scene w) s)),
    r, g, b.
  split; [exact Hrun|]. split; [|exact Hrgb].
  rewrite Hpix. exact Hp.
Qed.

End VertexPlace.

Lemma vertex_pixel_position_witness :
  exists (offsets normals : list Q) (w' : World),
    get_vertex_data (F := binary64) (V := exact_vectors)
      [point_mesh 0; point_mesh 1; point_mesh 4] blank_world
    = (Ok (offsets, normals), w') /\
    plane_pixel offsets 1 0 1
    = offset_pixel (F := binary64) (V := exact_vectors)
        (scale_factor (scene w'))
        {| co := (0, 0, 0)%Q; normal := (0, 0, 1)%Q |}
        {| co := (1, 0, 0)%Q; normal := (0, 0, 1)%Q |} /\
    plane_pixel normals 1 0 1
    = normal_pixel (F := binary64)
        {| co := (1, 0, 0)%Q; normal := (0, 0, 1)%Q |}.
Proof.
  apply (vertex_pixel_position (F := binary64) (V := exact_vectors)
           [point_mesh 0; point_mesh 1; point_mesh 4] 1 1 0
           (point_mesh 0) (point_mesh 1)).
  - repeat constructor.
  - reflexivity.
  - reflexivity.
  - reflexivity.
  - reflexivity.
Defined.

Lemma unmoved_vertex_is_mid_grey_witness :
  exists (offsets normals : list Q) (w' : World) (r g b : Q),
    get_vertex_data (F := binary64) (V := exact_vectors)
      [moving_mesh 1; moving_mesh 2; moving_mesh 5] blank_world
    = (Ok (offsets, normals), w') /\
    plane_pixel offsets 2 0 0 = [r; g; b; 1%Q] /\
    (r == 0.5)%Q /\ (g == 0.5)%Q /\ (b == 0.5)%Q.
Proof.
  apply (unmoved_vertex_is_mid_grey (F := binary64) (V := exact_vectors)
           [moving_mesh 1; moving_mesh 2; moving_mesh 5] 2 2 0
           (moving_mesh 1) (moving_mesh 5)
           {| co := (0, 0, 0)%Q; normal := (0, 0, 1)%Q |}
           {| co := (0, 0, 0)%Q; normal := (0, 0, 1)%Q |}).
  - repeat constructor.
  - reflexivity.
  - reflexivity.
  - reflexivity.
  - reflexivity.
  - reflexivity.
Defined.

(** ** The helpers of the operator *)

Lemma untouched_refl (w : World) : untouched w w.
Proof.
  split; [reflexivity|].
  exists []. split; [now rewrite app_nil_r | constructor].
Qed.

Lemma untouched_trans (w1 w2 w3 : World) :
  untouched w1 w2 -> untouched w2 w3 -> untouched w1 w3.
Proof.
  intros (Hs & evs & Hl & Hw) (Hs' & evs' & Hl' & Hw').
  split; [congruence|].
  exists (evs ++ evs')%list. split.
  - now rewrite Hl', Hl, app_assoc.
  - apply Forall_app. now split.
Qed.

Lemma helper_ret {A} (a : A) : helper (ret a).
Proof. intros w. apply untouched_refl. Qed.

Lemma helper_lift {A} (r : result A) : helper (lift r).
Proof. intros w. apply untouched_refl. Qed.

Lemma helper_get_scene : helper get_scene.
Proof. intros w. apply untouched_refl. Qed.

Lemma helper_tell (e : event) : is_work e = true -> helper (tell e).
Proof.
  intros He w. split; [reflexivity|].
  exists [e]. split; [reflexivity|]. now constructor.
Qed.

Lemma helper_bind {A B} (m : op A) (k : A -> op B) :
  helper m -> (forall a, helper (k a)) -> helper (bind_op m k).
Proof.
  intros Hm Hk w. unfold bind_op. specialize (Hm w).
  destruct (m w) as [[a|e] w']; cbn [snd] in *; [|exact Hm].
  eapply untouched_trans; [exact Hm | apply Hk].
Qed.

Lemma helper_for_each_op {A} (xs : list A) (body : A -> op unit) :
  (forall x, helper (body x)) -> helper (for_each_op xs body).
Proof.
  intros Hb. induction xs as [|x xs IH]; cbn [for_each_op].
  - apply helper_ret.
  - apply helper_bind; [apply Hb | intros _; exact IH].
Qed.

(** Writing the scale factor keeps the settings. *)
Lemma helper_put_scale_factor {A} (s : Q) (k : op A) :
  helper k ->
  helper (sc <~ get_scene ;; put_scene (set_scale_factor sc s) ;;; k).
Proof.
  intros Hk w. unfold bind_op at 1 2, get_scene, put_scene.
  eapply untouched_trans; [|apply Hk].
  split; [reflexivity|].
  exists []. split; [now rewrite app_nil_r | constructor].
Qed.

Section Helpers.
Context {F : PyFloat} {V : Mathutils} {host : Bpy}.
Variable C : Z.
Variable evaluated_mesh : list SceneObject -> Z -> Mesh.

Lemma helper_get_per_frame_mesh_data (objects : list SceneObject) :
  helper (get_per_frame_mesh_data evaluated_mesh objects).
Proof.
  unfold get_per_frame_mesh_data.
  apply helper_bind; [apply helper_get_scene | intros sc].
  apply helper_bind; [apply helper_lift | intros frames].
  apply helper_bind; [|intros _; apply helper_ret].
  apply helper_for_each_op. intros i. now apply helper_tell.
Qed.

Lemma helper_get_vertex_data (meshes : list Mesh) :
  helper (get_vertex_data meshes).
Proof.
  unfold get_vertex_data.
  apply helper_bind; [apply helper_lift | intros first].
  apply helper_bind; [apply helper_lift | intros m].
  apply helper_put_scale_factor, helper_lift.
Qed.

Lemma helper_create_and_save_image (byte_list : list Q) (name : string)
    (size : Z * Z) (dir : string) :
  helper (create_and_save_image C byte_list name size dir).
Proof.
  unfold create_and_save_image. destruct size as [width height].
  apply helper_bind; [apply helper_lift | intros chunk_count].
  apply helper_bind; [apply helper_lift | intros remainder_width].
  apply helper_for_each_op. intros i.
  apply helper_bind; [apply helper_lift | intros _].
  now apply helper_tell.
Qed.

Lemma helper_write_output_image (pixel_list : list Q) (name : string)
    (size : Z * Z) (dir : string) :
  helper (write_output_image C pixel_list name size dir).
Proof.
  unfold write_output_image. destruct (byte_planes pixel_list) as [hs ls].
  apply helper_bind; intros; apply helper_create_and_save_image.
Qed.

Lemma helper_bake_vertex_data (offsets normals : list Q) (size : Z * Z)
    (name : string) :
  helper (bake_vertex_data C offsets normals size name).
Proof.
  unfold bake_vertex_data.
  apply helper_bind; [apply helper_get_scene | intros sc].
  apply helper_bind; intros; apply helper_write_output_image.
Qed.

Lemma helper_export_mesh (name : string) : helper (export_mesh name).
Proof.
  unfold export_mesh.
  apply helper_bind; [apply helper_get_scene | intros sc].
  now apply helper_tell.
Qed.

End Helpers.

(** ** The operator, step by step *)

Section Operator.
Context {F : PyFloat} {V : Mathutils} {host : Bpy}.
Variable C : Z.
Variable evaluated_mesh : list SceneObject -> Z -> Mesh.

(** [execute] sets the units, counts, checks and works. *)
Lemma execute_steps (w : World) :
  execute C evaluated_mesh w =
  let w1 := with_scene w (metric_scene (scene w)) in
  match frame_count_of (scene w) with
  | Raise e => (Raise e, w1)
  | Ok frame_count =>
      match failed_check w frame_count with
      | Some r => (Ok CANCELLED, emit w1 (EvReportError r))
      | None =>
          execute_work C evaluated_mesh (mesh_objects w)
            (total_vertex_count (mesh_objects w)) frame_count
            (display_device (scene w))
            (unit_system (scene w), scale_length (scene w))
            (with_scene w1 (working_scene (scene w)))
      end
  end.
Proof.
  unfold execute, failed_check, rejected_modifier.
  unfold store_unit_settings, set_metric_units.
  unfold bind_op at 1 2 3 4 5 6 7.
  unfold get_scene at 1 2 3, put_scene at 1, ret at 1, lift at 1.
  cbn [scene with_scene selected_objects].
  fold (mesh_objects w). fold (total_vertex_count (mesh_objects w)).
  change (frame_count_of (set_units (scene w) "METRIC" (rnd 0.01)))
    with (frame_count_of (scene w)).
  destruct (frame_count_of (scene w)) as [frame_count|e]; [|reflexivity].
  destruct (find _ _) as [t|]; [reflexivity|].
  cbn [set_units unit_system scale_length]. rewrite String.eqb_refl.
  cbn [negb orb].
  destruct (negb (Qeq_bool _ _)); [reflexivity|].
  destruct (2048 <? _); [reflexivity|].
  destruct (1024 <? _); reflexivity.
Qed.

End Operator.

Lemma bind_op_post {A B} (m : op A) (k : A -> op B) (w : World)
    (Q : result B -> World -> Prop) :
  (forall e, fst (m w) = Raise e -> Q (Raise e) (snd (m w))) ->
  (forall a, fst (m w) = Ok a ->
     Q (fst (k a (snd (m w)))) (snd (k a (snd (m w))))) ->
  Q (fst (bind_op m k w)) (snd (bind_op m k w)).
Proof.
  intros Hr Hk. unfold bind_op.
  destruct (m w) as [[a|e] w']; cbn [fst snd] in *.
  - now apply Hk.
  - now apply Hr.
Qed.

Section OperatorWork.
Context {F : PyFloat} {V : Mathutils} {host : Bpy}.
Variable C : Z.
Variable evaluated_mesh : list SceneObject -> Z -> Mesh.

(** What the work of [execute] leaves: the settings are those it found
    when it raises, and the stored ones when it finishes. *)
Lemma execute_work_post (objects : list SceneObject)
    (vertex_count frame_count : Z) (device : string) (units : string * Q)
    (w : World) :
  let run := execute_work C evaluated_mesh objects vertex_count frame_count
               device units w in
  (exists evs, log (snd run) = (log w ++ evs)%list /\
               Forall (fun e => is_work e = true) evs) /\
  fst run <> Ok CANCELLED /\
  (fst run = Ok FINISHED ->
   settings (scene (snd run))
   = settings (set_units (set_display_device (scene w) device)
                 (fst units) (snd units))) /\
  (forall e, fst run = Raise e ->
   settings (scene (snd run)) = settings (scene w)).
Proof.
  set (Q := fun (r : result status) (w' : World) =>
    (exists evs, log w' = (log w ++ evs)%list /\
                 Forall (fun e => is_work e = true) evs) /\
    r <> Ok CANCELLED /\
    (r = Ok FINISHED ->
     settings (scene w')
     = settings (set_units (set_display_device (scene w) device)
                   (fst units) (snd units))) /\
    (forall e, r = Raise e -> settings (scene w') = settings (scene w))).
  change (Q (fst (execute_work C evaluated_mesh objects vertex_count
                    frame_count device units w))
            (snd (execute_work C evaluated_mesh objects vertex_count
                    frame_count device units w))).
  assert (Hraise : forall e w', untouched w w' -> Q (Raise e) w').
  { intros e w' (Hs & Hl). unfold Q.
    split; [exact Hl|].
    split; [discriminate|]. split; [discriminate|]. intros _ _. exact Hs. }
  unfold execute_work.
  apply bind_op_post; cbn [fst snd]; [discriminate|]. intros myname _.
  apply bind_op_post;
    [intros e _; apply Hraise, helper_get_per_frame_mesh_data|].
  intros meshes _.
  pose proof (helper_get_per_frame_mesh_data evaluated_mesh objects w) as H1.
  revert H1.
  generalize (snd (get_per_frame_mesh_data evaluated_mesh objects w)).
  intros w1 H1.
  apply bind_op_post; cbn [fst snd lift];
    [intros e _; now apply Hraise|]. intros export_mesh_data _.
  apply bind_op_post; cbn [fst snd lift];
    [intros e _; now apply Hraise|]. intros obj _.
  pose proof (helper_get_vertex_data meshes w1) as H2.
  apply bind_op_post;
    [intros e _; apply Hraise; eapply untouched_trans; eassumption|].
  intros [offsets normals] _. revert H2.
  generalize (snd (get_vertex_data meshes w1)). intros w2 H2.
  pose proof (untouched_trans _ _ _ H1 H2) as H12. clear H1 H2.
  pose proof (helper_bake_vertex_data C offsets normals
                (vertex_count, frame_count) myname w2) as H3.
  apply bind_op_post;
    [intros e _; apply Hraise; eapply untouched_trans; eassumption|].
  intros _ _. revert H3.
  generalize (snd (bake_vertex_data C offsets normals
                     (vertex_count, frame_count) myname w2)).
  intros w3 H3.
  pose proof (untouched_trans _ _ _ H12 H3) as H13. clear H12 H3.
  pose proof (helper_export_mesh myname w3) as H4.
  apply bind_op_post;
    [intros e _; apply Hraise; eapply untouched_trans; eassumption|].
  intros _ _. revert H4. generalize (snd (export_mesh myname w3)).
  intros w4 H4.
  destruct (untouched_trans _ _ _ H13 H4) as (Hs & Hl).
  unfold reset_unit_settings, bind_op, get_scene, put_scene, ret.
  cbn [fst snd scene with_scene log]. unfold Q.
  split; [exact Hl|].
  split; [discriminate|]. split; [|discriminate]. intros _.
  unfold settings in *. cbn. injection Hs as -> -> -> _ _ _ ->.
  reflexivity.
Qed.

End OperatorWork.

(** ** The operator as a whole *)

Lemma range_len_raises (start stop step : Z) (e : exn) :
  range_len start stop step = Raise e -> step = 0.
Proof.
  unfold range_len. destruct (Z.eqb_spec step 0); [easy|].
  destruct (0 <? step); discriminate.
Qed.

Section OperatorSettings.
Context {F : PyFloat} {V : Mathutils} {host : Bpy}.
Variable C : Z.
Variable evaluated_mesh : list SceneObject -> Z -> Mesh.

(** X11.  When the settings come back.  [execute] restores the unit
    system, the unit scale and the display device it found only when it
    returns [FINISHED].  When it returns [CANCELLED] the scene is left
    with metric units and the scale [0.01]; when it raises, the scene
    is left with these and, unless the frame step is zero, with the
    display device [None].  The frame range and the output directory
    are never changed. *)
Theorem settings_restored_only_on_finish (w : World) :
  let run := execute C evaluated_mesh w in
  (fst run = Ok FINISHED ->
   settings (scene (snd run)) = settings (scene w)) /\
  (fst run = Ok CANCELLED ->
   settings (scene (snd run)) = settings (metric_scene (scene w))) /\
  (forall e, fst run = Raise e ->
   settings (scene (snd run))
   = settings (if frame_step (scene w) =? 0
               then metric_scene (scene w)
               else working_scene (scene w))).
Proof.
  cbv zeta. rewrite execute_steps. cbv zeta.
  destruct (frame_count_of (scene w)) as [frame_count|e] eqn:Hfc.
  - assert (Hstep : frame_step (scene w) <> 0).
    { intros Hz. unfold frame_count_of in Hfc. rewrite Hz in Hfc.
      discriminate. }
    apply Z.eqb_neq in Hstep. rewrite Hstep.
    destruct (failed_check w frame_count) as [r|].
    + cbn [fst snd emit with_scene scene].
      repeat split; try discriminate.
    + pose proof (execute_work_post C evaluated_mesh (mesh_objects w)
                    (total_vertex_count (mesh_objects w)) frame_count
                    (display_device (scene w))
                    (unit_system (scene w), scale_length (scene w))
                    (with_scene (with_scene w (metric_scene (scene w)))
                       (working_scene (scene w)))) as Hpost.
      cbv zeta in Hpost.
      destruct Hpost as (_ & Hnc & Hfin & Hraise).
      split; [|split].
      * intros Hf. rewrite (Hfin Hf). reflexivity.
      * intros Hc. contradiction.
      * intros e He. rewrite (Hraise e He). reflexivity.
  - unfold frame_count_of in Hfc. apply range_len_raises in Hfc.
    rewrite Hfc. cbn [fst snd with_scene scene].
    repeat split; try discriminate.
Qed.

End OperatorSettings.

Section OperatorReports.
Context {F : PyFloat} {FL : PyFloatLaws F} {V : Mathutils} {host : Bpy}.
Variable C : Z.
Variable evaluated_mesh : list SceneObject -> Z -> Mesh.

(** The unit check of [execute] comes after [set_metric_units] and
    passes. *)
Lemma failed_check_cases (w : World) (frame_count : Z) :
  failed_check w frame_count =
  match rejected_modifier w with
  | Some mod_type => Some (ModifierNotAllowed mod_type)
  | None =>
      if 2048 <? total_vertex_count (mesh_objects w)
      then Some (VertexCountExceeded (total_vertex_count (mesh_objects w)))
      else if 1024 <? frame_count
           then Some (FrameCountExceeded frame_count)
           else None
  end.
Proof.
  unfold failed_check. now rewrite metric_scale_rounds_back.
Qed.

(** X12.  When [execute] cancels.  For a scene whose frame range can
    be counted, [execute] returns [CANCELLED] exactly when a selected
    mesh object has a modifier that is not allowed, or the selected
    meshes have more than 2048 vertices, or the range has more than 1024
    frames.  It then has reported one error and done nothing else, and
    it has not put back the units: the scene is left metric with the
    scale [0.01]. *)
Theorem execute_cancels_iff (w : World) (frame_count : Z) :
  frame_count_of (scene w) = Ok frame_count ->
  let run := execute C evaluated_mesh w in
  (fst run = Ok CANCELLED <->
   rejected_modifier w <> None \/
   2048 < total_vertex_count (mesh_objects w) \/
   1024 < frame_count) /\
  (fst run = Ok CANCELLED ->
   exists r : report,
     failed_check w frame_count = Some r /\
     snd run = emit (with_scene w (metric_scene (scene w)))
                 (EvReportError r)).
Proof.
  intros Hfc. cbv zeta. rewrite execute_steps. cbv zeta. rewrite Hfc.
  pose proof (failed_check_cases w frame_count) as Hcases.
  destruct (failed_check w frame_count) as [r|].
  - cbn [fst snd]. split; [|intros _; now exists r].
    split; [intros _|reflexivity].
    destruct (rejected_modifier w) as [t|]; [left; discriminate|].
    destruct (Z.ltb_spec 2048 (total_vertex_count (mesh_objects w)));
      [right; now left|].
    destruct (Z.ltb_spec 1024 frame_count); [right; now right|].
    discriminate.
  - destruct (execute_work_post C evaluated_mesh (mesh_objects w)
                (total_vertex_count (mesh_objects w)) frame_count
                (display_device (scene w))
                (unit_system (scene w), scale_length (scene w))
                (with_scene (with_scene w (metric_scene (scene w)))
                   (working_scene (scene w)))) as (_ & Hnc & _).
    split; [|intros Hc; contradiction].
    split; [intros Hc; contradiction|].
    destruct (rejected_modifier w) as [t|]; [discriminate|].
    destruct (Z.ltb_spec 2048 (total_vertex_count (mesh_objects w)));
      [discriminate|].
    destruct (Z.ltb_spec 1024 frame_count); [discriminate|].
    intros [Hm | [Hv | Hf]]; [congruence | lia | lia].
Qed.

(** X13.  The unit check cannot fail.  [execute] sets the units to
    metric with the scale [0.01] before it checks them, so that whatever
    the units of the scene were, it never reports that the scene unit
    must be metric: the events of a run are one report of another error,
    or no report at all. *)
Theorem unit_check_never_reports (w : World) :
  exists evs : list event,
    log (snd (execute C evaluated_mesh w)) = (log w ++ evs)%list /\
    ~ In (EvReportError SceneUnitNotMetric) evs /\
    ((exists r, evs = [EvReportError r] /\
                fst (execute C evaluated_mesh w) = Ok CANCELLED) \/
     (Forall (fun e => is_work e = true) evs /\
      fst (execute C evaluated_mesh w) <> Ok CANCELLED)).
Proof.
  rewrite execute_steps. cbv zeta.
  destruct (frame_count_of (scene w)) as [frame_count|e].
  - pose proof (failed_check_cases w frame_count) as Hcases.
    destruct (failed_check w frame_count) as [r|].
    + exists [EvReportError r]. split; [reflexivity|]. split.
      * intros [Hin | []]. injection Hin as ->.
        destruct (rejected_modifier w); [discriminate|].
        destruct (2048 <? _); [discriminate|].
        destruct (1024 <? _); discriminate.
      * left. now exists r.
    + destruct (execute_work_post C evaluated_mesh (mesh_objects w)
                  (total_vertex_count (mesh_objects w)) frame_count
                  (display_device (scene w))
                  (unit_system (scene w), scale_length (scene w))
                  (with_scene (with_scene w (metric_scene (scene w)))
                     (working_scene (scene w))))
        as ((evs & Hl & Hw) & Hnc & _).
      exists evs. split; [exact Hl|]. split; [|right; now split].
      intros Hin. rewrite Forall_forall in Hw. specialize (Hw _ Hin).
      discriminate.
  - exists []. cbn [fst snd log with_scene].
    split; [now rewrite app_nil_r|]. split; [intros []|].
    right. split; [constructor | discriminate].
Qed.

End OperatorReports.

Lemma execute_cancels_iff_witness :
  fst (execute (F := binary64) (V := exact_vectors) (host := blender) 128
         (fun _ _ => plain_mesh 0 []) crowded_world) = Ok CANCELLED /\
  exists r : report,
    failed_check (F := binary64) crowded_world 2 = Some r /\
    snd (execute (F := binary64) (V := exact_vectors) (host := blender) 128
           (fun _ _ => plain_mesh 0 []) crowded_world)
    = emit (with_scene crowded_world
              (metric_scene (F := binary64) (scene crowded_world)))
        (EvReportError r).
Proof.
  destruct (execute_cancels_iff (F := binary64) (V := exact_vectors)
              (host := blender) 128
              (fun _ _ => plain_mesh 0 []) crowded_world 2 eq_refl)
    as [Hiff Hleft].
  assert (Hc : fst (execute (F := binary64) (V := exact_vectors)
                      (host := blender) 128
                      (fun _ _ => plain_mesh 0 []) crowded_world)
               = Ok CANCELLED).
  { apply Hiff. right. left. reflexivity. }
  split; [exact Hc | exact (Hleft Hc)].
Defined.

Lemma range_len_nonneg (start stop step n : Z) :
  range_len start stop step = Ok n -> 0 <= n.
Proof.
  unfold range_len. destruct (Z.eqb_spec step 0); [discriminate|].
  destruct (Z.ltb_spec 0 step) as [Hpos|Hneg].
  - destruct (Z.ltb_spec start stop) as [Hlt|Hge];
      intros E; injection E as <-; [|lia].
    pose proof (Z.div_pos (stop - start - 1) step). lia.
  - destruct (Z.ltb_spec stop start) as [Hlt|Hge];
      intros E; injection E as <-; [|lia].
    pose proof (Z.div_pos (start - stop - 1) (- step)). lia.
Qed.

Lemma frame_range_count (sc : Scene) (frames : list Z) :
  frame_range sc = Ok frames ->
  frame_count_of sc = Ok (Z.of_nat (List.length frames)).
Proof.
  unfold frame_range, frame_count_of, range3.
  destruct (range_len _ _ _) as [n|] eqn:Hn; [|discriminate].
  cbn [Py.bind]. intros H. injection H as <-.
  rewrite length_map, length_seq, Z2Nat.id; [reflexivity|].
  eapply range_len_nonneg, Hn.
Qed.

Lemma uniform_plane_length (f : Mesh -> list Q) (n : nat) (ms : list Mesh) :
  Forall (fun me => List.length (f me) = (4 * n)%nat) ms ->
  List.length (flat_map f (rev ms)) = (List.length ms * (4 * n))%nat.
Proof.
  intros Hrows. rewrite flat_map_concat_map.
  rewrite (concat_uniform_length (4 * n)).
  - now rewrite length_map, length_rev.
  - now apply Forall_map, Forall_rev.
Qed.

Section OperatorRuns.
Context {F : PyFloat} {FL : PyFloatLaws F}.
Context {V : Mathutils} {VL : MathutilsLaws V} {host : Bpy}.
Variable C : Z.
Variable evaluated_mesh : list SceneObject -> Z -> Mesh.

Lemma get_per_frame_mesh_data_run (objects : list SceneObject)
    (frames : list Z) (w : World) :
  frame_range (scene w) = Ok frames ->
  get_per_frame_mesh_data evaluated_mesh objects w
  = (Ok (map (evaluated_mesh objects) frames),
     fold_left emit (map EvFrameSet frames) w).
Proof.
  intros Hf. unfold get_per_frame_mesh_data.
  unfold bind_op at 1, get_scene at 1. unfold bind_op at 1, lift at 1.
  rewrite Hf. unfold bind_op, ret. now rewrite for_each_op_tell.
Qed.

(** X14.  An empty frame range.  When the end frame of the scene is not
    after its start frame, and the checks pass, [execute] raises
    [IndexError] at the first frame it looks for.  Nothing has been
    sampled, saved or exported, and the scene is left with metric units
    and the display device [None]. *)
Theorem empty_frame_range_raises (w : World) :
  0 < frame_step (scene w) ->
  frame_end (scene w) <= frame_start (scene w) ->
  rejected_modifier w = None ->
  total_vertex_count (mesh_objects w) <= 2048 ->
  execute C evaluated_mesh w
  = (Raise IndexError, with_scene w (working_scene (scene w))).
Proof.
  intros Hstep Hend Hmod Hvc.
  assert (Hlen : range_len (frame_start (scene w)) (frame_end (scene w))
                   (frame_step (scene w)) = Ok 0).
  { unfold range_len.
    destruct (Z.eqb_spec (frame_step (scene w)) 0); [lia|].
    destruct (Z.ltb_spec 0 (frame_step (scene w))); [|lia].
    destruct (Z.ltb_spec (frame_start (scene w)) (frame_end (scene w)));
      [lia | reflexivity]. }
  rewrite execute_steps. cbv zeta.
  unfold frame_count_of. rewrite Hlen.
  rewrite failed_check_cases, Hmod.
  destruct (Z.ltb_spec 2048 (total_vertex_count (mesh_objects w))); [lia|].
  cbn [Z.ltb Z.compare].
  unfold execute_work. unfold bind_op at 1. unfold bind_op at 1.
  rewrite (get_per_frame_mesh_data_run _ []).
  - reflexivity.
  - unfold frame_range, range3. cbn [scene with_scene working_scene
      metric_scene set_display_device set_units frame_start frame_end
      frame_step]. now rewrite Hlen.
Qed.

(** X15.  A run that finishes.  When the checks pass, the frame range
    is not empty, every frame has as many vertices as the selected
    meshes have, [vertex_count], with normals whose components are in
    [[-1,1]], and the first frame gets its UVs, [execute] returns
    [FINISHED].  It has set every frame of the range
    in turn, has saved the images of the position and the normal planes,
    [vertex_count] wide and [frame_count] high, under the name of the
    active object in the directory [bpy.path.abspath] makes of the
    output directory, and has exported the mesh there last.  The
    settings of the scene (frame range, units, display device, output
    directory) are those it found; its scale factor is the one of the
    bake. *)
Theorem execute_finishes (w : World) (frames : list Z) (first : Mesh) :
  1 < C ->
  rejected_modifier w = None ->
  total_vertex_count (mesh_objects w) <= 2048 ->
  frame_range (scene w) = Ok frames ->
  Z.of_nat (List.length frames) <= 1024 ->
  let meshes := map (evaluated_mesh (mesh_objects w)) frames in
  nth_error meshes 0 = Some first ->
  Forall (fun me => Z.of_nat (vertex_count_of me)
                    = total_vertex_count (mesh_objects w)) meshes ->
  (forall me v, In me meshes -> In v (vertices me) ->
     let '(x, y, z) := normal v in
     (-1 <= x <= 1 /\ -1 <= y <= 1 /\ -1 <= z <= 1)%Q) ->
  uv_layers_wf first ->
  let n := Z.of_nat (List.length (vertices first)) in
  Forall (fun vertex_index => 0 <= vertex_index < n) (loops first) ->
  ~ (n mod C = 1 /\ In (n - 1) (loops first)) ->
  exists s : Q,
    ~ (s == 0)%Q /\
    fst (execute C evaluated_mesh w) = Ok FINISHED /\
    scene (snd (execute C evaluated_mesh w))
    = set_scale_factor (scene w) s /\
    log (snd (execute C evaluated_mesh w))
    = (log w
         ++ map EvFrameSet frames
         ++ bake_events C
              (flat_map (offset_row s (vertices first)) (rev meshes))
              (flat_map normal_row (rev meshes))
              (ob_name (active_object w))
              (abspath (output_dir (scene w)))
              (total_vertex_count (mesh_objects w))
              (Z.of_nat (List.length frames))
         ++ [EvExportFbx (abspath (output_dir (scene w))
                            ++ ob_name (active_object w) ++ ".fbx")])%list.
Proof.
  intros HC Hmod Hvc Hframes Hfc meshes Hfirst Hsame _ Hwf n Hvalid Hlone.
  destruct (create_export_mesh_object_ok C first HC Hwf Hvalid Hlone)
    as [obj Hobj].
  assert (Hcount : List.length meshes = List.length frames)
    by (unfold meshes; apply length_map).
  destruct meshes as [|first' rest] eqn:Hmeshes; [discriminate|].
  cbn [nth_error] in Hfirst. injection Hfirst as ->.
  set (W := total_vertex_count (mesh_objects w)) in *.
  assert (HW : Z.of_nat (vertex_count_of first) = W)
    by (inversion Hsame; assumption).
  assert (Hfit : Forall (fits (vertices first)) (first :: rest)).
  { eapply Forall_impl; [|exact Hsame]. intros me Hme. cbv beta in Hme.
    unfold fits, vertex_count_of in *. lia. }
  set (w2 := with_scene (with_scene w (metric_scene (scene w)))
               (working_scene (scene w))).
  set (w3 := fold_left emit (map EvFrameSet frames) w2).
  destruct (get_vertex_data_ok first rest w3 Hfit)
    as (m & s & _ & _ & Hs & Hdata).
  exists s. split; [exact Hs|].
  assert (Hoff : Z.of_nat (List.length
                   (flat_map (offset_row s (vertices first))
                      (rev (first :: rest))))
                 = W * Z.of_nat (List.length frames) * 4).
  { rewrite (uniform_plane_length _ (vertex_count_of first)).
    - rewrite Hcount. lia.
    - eapply Forall_impl; [|exact Hsame]. intros me Hme. cbv beta in Hme.
      rewrite length_offset_row; unfold vertex_count_of in *; lia. }
  assert (Hnor : Z.of_nat (List.length
                   (flat_map normal_row (rev (first :: rest))))
                 = W * Z.of_nat (List.length frames) * 4).
  { rewrite (uniform_plane_length _ (vertex_count_of first)).
    - rewrite Hcount. lia.
    - eapply Forall_impl; [|exact Hsame]. intros me Hme. cbv beta in Hme.
      rewrite length_normal_row; lia. }
  enough (Hrun : exists w',
            execute C evaluated_mesh w = (Ok FINISHED, w') /\
            scene w' = set_scale_factor (scene w) s /\
            log w'
            = (log w
                 ++ map EvFrameSet frames
                 ++ bake_events C
                      (flat_map (offset_row s (vertices first))
                         (rev (first :: rest)))
                      (flat_map normal_row (rev (first :: rest)))
                      (ob_name (active_object w))
                      (abspath (output_dir (scene w)))
                      W (Z.of_nat (List.length frames))
                 ++ [EvExportFbx (abspath (output_dir (scene w))
                                    ++ ob_name (active_object w)
                                    ++ ".fbx")])%list).
  { destruct Hrun as (w' & -> & Hsc & Hlog). cbn [fst snd]. now split. }
  rewrite execute_steps. cbv zeta.
  rewrite (frame_range_count _ _ Hframes).
  rewrite failed_check_cases, Hmod. fold W.
  destruct (Z.ltb_spec 2048 W); [lia|].
  destruct (Z.ltb_spec 1024 (Z.of_nat (List.length frames))); [lia|].
  fold w2. unfold execute_work.
  unfold bind_op at 1. unfold bind_op at 1.
  rewrite (get_per_frame_mesh_data_run _ frames) by exact Hframes.
  fold w3. fold meshes. rewrite Hmeshes.
  unfold bind_op at 1, lift at 1. cbn [getitem nth_error].
  unfold bind_op at 1, lift at 1. rewrite Hobj.
  unfold bind_op at 1. rewrite Hdata.
  unfold bind_op at 1.
  rewrite (bake_vertex_data_events C ltac:(lia)) by (assumption || lia).
  unfold export_mesh, reset_unit_settings, bind_op, get_scene, put_scene,
    tell, ret.
  destruct (log_emit_all (map EvFrameSet frames) w2) as (Hl3 & Hs3 & _ & Ha3).
  fold w3 in Hl3, Hs3, Ha3.
  set (w4 := with_scene w3 (set_scale_factor (scene w3) s)).
  set (evs := bake_events C _ _ _ _ _ _).
  destruct (log_emit_all evs w4) as (Hl5 & Hs5 & _).
  eexists. split; [reflexivity|].
  cbn [fst snd scene log emit with_scene].
  rewrite Hs5, Hl5. cbn [w4 scene log with_scene]. rewrite Hs3, Hl3.
  cbn [w2 scene log with_scene].
  split; [reflexivity|].
  unfold evs. cbn [w4 with_scene scene active_object]. rewrite Hs3.
  cbn [w2 with_scene scene working_scene metric_scene set_display_device
         set_units set_scale_factor output_dir].
  now rewrite <- !app_assoc.
Qed.

End OperatorRuns.

Lemma empty_frame_range_raises_witness :
  execute (F := binary64) (V := exact_vectors) (host := blender) 128
    (fun _ _ => plain_mesh 0 []) still_world
  = (Raise IndexError,
     with_scene still_world
       (working_scene (F := binary64) (scene still_world))).
Proof.
  apply (empty_frame_range_raises (F := binary64) (V := exact_vectors)
           (host := blender) 128
           (fun _ _ => plain_mesh 0 []) still_world).
  - reflexivity.
  - discriminate.
  - reflexivity.
  - discriminate.
Defined.

Lemma unit_check_never_reports_witness :
  exists evs : list event,
    log (snd (execute (F := binary64) (V := exact_vectors)
                (host := blender) 128
                (fun _ _ => plain_mesh 0 []) crowded_world))
    = (log crowded_world ++ evs)%list /\
    ~ In (EvReportError SceneUnitNotMetric) evs /\
    ((exists r, evs = [EvReportError r] /\
                fst (execute (F := binary64) (V := exact_vectors)
                       (host := blender) 128
                       (fun _ _ => plain_mesh 0 []) crowded_world)
                = Ok CANCELLED) \/
     (Forall (fun e => is_work e = true) evs /\
      fst (execute (F := binary64) (V := exact_vectors)
             (host := blender) 128
             (fun _ _ => plain_mesh 0 []) crowded_world) <> Ok CANCELLED)).
Proof.
  exact (unit_check_never_reports (F := binary64) (V := exact_vectors)
           (host := blender) 128
           (fun _ _ => plain_mesh 0 []) crowded_world).
Defined.

Lemma execute_finishes_witness :
  exists s : Q,
    ~ (s == 0)%Q /\
    fst (execute (F := binary64) (V := exact_vectors)
           (host := blender) 128
           (fun _ frame => moving_mesh frame) moving_world) = Ok FINISHED /\
    scene (snd (execute (F := binary64) (V := exact_vectors)
                  (host := blender) 128
                  (fun _ frame => moving_mesh frame) moving_world))
    = set_scale_factor blank_scene s /\
    log (snd (execute (F := binary64) (V := exact_vectors)
                (host := blender) 128
                (fun _ frame => moving_mesh frame) moving_world))
    = ([]
         ++ map EvFrameSet [1; 2]
         ++ bake_events (F := binary64) 128
              (flat_map (offset_row (F := binary64) (V := exact_vectors) s
                           (vertices (moving_mesh 1)))
                 (rev [moving_mesh 1; moving_mesh 2]))
              (flat_map (normal_row (F := binary64))
                 (rev [moving_mesh 1; moving_mesh 2]))
              "Arm" "/home/user/vat/" 2 2
         ++ [EvExportFbx "/home/user/vat/Arm.fbx"])%list.
Proof.
  apply (execute_finishes (F := binary64) (V := exact_vectors)
           (host := blender) 128
           (fun _ frame => moving_mesh frame) moving_world [1; 2]
           (moving_mesh 1)).
  - lia.
  - reflexivity.
  - discriminate.
  - reflexivity.
  - simpl. lia.
  - reflexivity.
  - repeat constructor.
  - intros me v [<- | [<- | []]] [<- | [<- | []]]; cbn;
      repeat split; discriminate.
  - constructor.
  - repeat constructor; vm_compute; congruence.
  - intros [H _]. vm_compute in H. discriminate.
Defined.

(** ** The UV of a vertex and the pixel of the vertex *)

Local Open Scope Q_scope.

(** The [u] of exact arithmetic, in a chunk [Wq] pixels wide, lies well
    inside the column [I + 1] of an image [Wq + 2] pixels wide. *)
Lemma exact_u_in_column (Wq I : Q) :
  7 <= Wq -> 0 <= I -> I <= Wq - 1 ->
  let E := (1 - 3 * / Wq) * (I * / (Wq - 1)) + 1.5 * / Wq in
  let m := / Wq * / (Wq + 2) in
  (I + 1) * / (Wq + 2) + 0.5 * m <= E /\
  E + 0.5 * m <= (I + 2) * / (Wq + 2).
Proof.
  intros HW HI0 HI E m.
  assert (Hg : 0 < / Wq * / (Wq - 1) * / (Wq + 2)).
  { repeat apply Qmult_lt_0_compat; apply Qinv_lt_0_compat; lra. }
  assert (EA : E - ((I + 1) * / (Wq + 2) + 0.5 * m)
               == (0.5 * ((Wq - 1) * (Wq - 7)) + 6 * (Wq - 1 - I))
                  * (/ Wq * / (Wq - 1) * / (Wq + 2))).
  { unfold E, m. field. repeat split; lra. }
  assert (EB : (I + 2) * / (Wq + 2) - (E + 0.5 * m)
               == (0.5 * ((Wq - 1) * (Wq - 7)) + 6 * I)
                  * (/ Wq * / (Wq - 1) * / (Wq + 2))).
  { unfold E, m. field. repeat split; lra. }
  assert (Hp : 0 <= (Wq - 1) * (Wq - 7))
    by (apply Qmult_le_0_compat; lra).
  split.
  - assert (H : 0 <= E - ((I + 1) * / (Wq + 2) + 0.5 * m)).
    { rewrite EA. apply Qmult_le_0_compat; lra. }
    lra.
  - assert (H : 0 <= (I + 2) * / (Wq + 2) - (E + 0.5 * m)).
    { rewrite EB. apply Qmult_le_0_compat; lra. }
    lra.
Qed.

Section Column.
Context {F : PyFloat} {FL : PyFloatLaws F}.
Variables K Wq D I : Q.
Hypothesis HD : D == Wq - 1.
Hypothesis HK : K == 0 \/ 1 <= K.
Hypothesis HKN : K <= chunk_bound.
Hypothesis HW7 : 7 <= Wq.
Hypothesis HWN : Wq <= width_bound.
Hypothesis HI : I == 0 \/ 1 <= I.
Hypothesis HIW : I <= Wq - 1.

(** In a chunk at least seven pixels wide the roundings cannot carry
    [u] out of the pixel column of its vertex. *)
Lemma u_in_column :
  K + (I + 1) / (Wq + 2) < u_of K Wq D I /\
  u_of K Wq D I < K + (I + 2) / (Wq + 2).
Proof.
  assert (HK0 : 0 <= K) by (destruct HK; lra).
  assert (HI0 : 0 <= I) by (destruct HI; lra).
  assert (HKW : K * Wq <= count_bound).
  { apply Qle_trans with (chunk_bound * Wq).
    - apply Qmult_le_compat_r; [exact HKN | lra].
    - unfold chunk_bound, width_bound, count_bound in *. lra. }
  assert (HW4 : 4 <= Wq) by lra.
  assert (HWC : Wq <= count_bound)
    by (unfold width_bound, count_bound in *; lra).
  destruct (g0_facts K Wq HK HKW HW4 HWC) as (H0 & Hp & _ & _ & _).
  destruct (pco_facts K Wq HK HKW HW4 HWC) as [Hpl Hpu].
  destruct (sf_facts K Wq HK HKW HW4 HWC) as (Hsl & Hsu & _ & _).
  destruct (chain K Wq D HD HK HKW HW4 HWC I HI HIW)
    as (Htau & Ht & _ & _ & _ & Hq & Hs & Hu).
  destruct (exact_u_in_column Wq I HW7 HI0 HIW) as [FA FB].
  cbv zeta in *.
  assert (ED : / D == / (Wq - 1)) by (now rewrite HD).
  assert (Hg7 : / Wq <= 1 # 7) by (apply Qle_shift_inv_r; lra).
  assert (Hgl : (1 # 4096) <= / Wq).
  { apply Qle_shift_inv_l; unfold width_bound in *; lra. }
  assert (Hhl : (1 # 4098) <= / (Wq + 2)).
  { apply Qle_shift_inv_l; unfold width_bound in *; lra. }
  assert (Hm : (1 # 4096) * (1 # 4098) <= / Wq * / (Wq + 2)).
  { apply Qmult_le_compat_nonneg; split; lra. }
  set (g0 := / Wq) in *. set (h := / (Wq + 2)) in *.
  set (tau := I * / D) in *.
  assert (Hgt : 0 <= g0 * tau <= tau).
  { split; [apply Qmult_le_0_compat; lra|].
    rewrite <- (Qmult_1_l tau) at 2. apply Qmult_le_compat_r; lra. }
  set (pco := rnd (1.5 / Wq)) in *.
  set (sf := rnd (1 - rnd (2 * pco))) in *.
  set (t := rnd (I / D)) in *.
  assert (Hsf : 1 - 3 * g0 - 4 * delta <= sf <= 1 - 3 * g0 + 4 * delta).
  { unfold delta in *. split; lra. }
  assert (Ht0 : 0 <= t) by (unfold delta in *; lra).
  assert (HPl : (tau - 3 * (g0 * tau) - 4 * delta * tau) * (1 - delta)
                <= sf * t).
  { apply Qle_trans with ((1 - 3 * g0 - 4 * delta) * t).
    - setoid_replace ((tau - 3 * (g0 * tau) - 4 * delta * tau) * (1 - delta))
        with ((1 - 3 * g0 - 4 * delta) * (tau * (1 - delta))) by ring.
      apply Qmult_le_l; [unfold delta; lra | tauto].
    - apply Qmult_le_compat_r; tauto. }
  assert (HPu : sf * t
                <= (tau - 3 * (g0 * tau) + 4 * delta * tau) * (1 + delta)).
  { apply Qle_trans with ((1 - 3 * g0 + 4 * delta) * t).
    - apply Qmult_le_compat_r; tauto.
    - setoid_replace ((tau - 3 * (g0 * tau) + 4 * delta * tau) * (1 + delta))
        with ((1 - 3 * g0 + 4 * delta) * (tau * (1 + delta))) by ring.
      apply Qmult_le_l; [unfold delta; lra | tauto]. }
  assert (FA' : I * h + h + 0.5 * (g0 * h)
                <= tau - 3 * (g0 * tau) + 1.5 * g0).
  { unfold tau. rewrite ED.
    setoid_replace (I * h + h) with ((I + 1) * h) by ring.
    setoid_replace (I * / (Wq - 1) - 3 * (g0 * (I * / (Wq - 1))) + 1.5 * g0)
      with ((1 - 3 * g0) * (I * / (Wq - 1)) + 1.5 * g0) by ring.
    exact FA. }
  assert (FB' : tau - 3 * (g0 * tau) + 1.5 * g0 + 0.5 * (g0 * h)
                <= I * h + 2 * h).
  { unfold tau. rewrite ED.
    setoid_replace (I * h + 2 * h) with ((I + 2) * h) by ring.
    setoid_replace (I * / (Wq - 1) - 3 * (g0 * (I * / (Wq - 1))) + 1.5 * g0)
      with ((1 - 3 * g0) * (I * / (Wq - 1)) + 1.5 * g0) by ring.
    exact FB. }
  assert (EL : K + (I + 1) / (Wq + 2) == K + (I * h + h))
    by (unfold h; field; lra).
  assert (EU : K + (I + 2) / (Wq + 2) == K + (I * h + 2 * h))
    by (unfold h; field; lra).
  rewrite EL, EU. clear EL EU FA FB.
  set (gt := g0 * tau) in *. set (m := g0 * h) in *.
  set (Ih := I * h) in *.
  set (P := sf * t) in *. set (q := rnd P) in *.
  set (s := rnd (K + q)) in *.
  set (u := u_of K Wq D I) in *.
  unfold delta, chunk_bound in *.
  split; lra.
Qed.

End Column.

Section UVColumn.
Context {F : PyFloat} {FL : PyFloatLaws F}.
Variable texture_size : Z.

(** X16.  The UV of a vertex points at the pixel of the vertex.  For a
    chunk width of at most [2^12], at most [2^20] vertices, and a vertex
    in a chunk that is at least seven pixels wide, the image of the
    chunk is [current_pixel_width + 2] pixels wide, and the [u] that
    [create_export_mesh_object] gives the vertex, less its chunk number,
    lies strictly inside the column [index_in_chunk + 1] of that image,
    between [(index_in_chunk + 1) / width] and
    [(index_in_chunk + 2) / width]: the column in which
    [create_and_save_image] puts the pixel of the vertex. *)
Theorem uv_lands_in_pixel_column (vertex_count idx : Z) :
  (0 < texture_size <= 2 ^ 12)%Z ->
  (0 <= idx < vertex_count)%Z -> (vertex_count <= 2 ^ 20)%Z ->
  let chunk_number := (idx / texture_size)%Z in
  let index_in_chunk := (idx mod texture_size)%Z in
  let w := current_pixel_width texture_size (vertex_count / texture_size)
             (vertex_count mod texture_size) chunk_number in
  (7 <= w)%Z ->
  (forall byte_list name height padding,
     img_width (chunk_image texture_size byte_list name vertex_count height
                  (vertex_count / texture_size)
                  (vertex_count mod texture_size) padding chunk_number)
     = (w + 2)%Z) /\
  exists u : Q,
    loop_uv texture_size (vertex_count / texture_size)
      (vertex_count mod texture_size) idx = Ok (u, fdiv 128 255) /\
    inject_Z chunk_number
      + inject_Z (index_in_chunk + 1) / inject_Z (w + 2) < u /\
    u < inject_Z chunk_number
        + inject_Z (index_in_chunk + 2) / inject_Z (w + 2).
Proof.
  intros HC Hidx Hn cn i w Hw.
  pose proof (chunk_geometry texture_size vertex_count idx ltac:(lia) Hidx)
    as G.
  cbv zeta in G. fold cn in G. fold w in G. fold i in G.
  destruct G as (Hcn & Hi & Hcw & Hwn).
  assert (Hle : (cn <= vertex_count / texture_size)%Z)
    by (apply Z.div_le_mono; lia).
  assert (Hcn_le : (cn <= idx)%Z).
  { unfold cn. apply Z.div_le_upper_bound; nia. }
  split.
  { intros byte_list name height padding. unfold chunk_image. cbn [img_width].
    unfold w, current_pixel_width.
    destruct (Z.eqb_spec cn (vertex_count / texture_size)) as [E|E],
             (Z.ltb_spec cn (vertex_count / texture_size)) as [L|L];
      cbn [negb]; try reflexivity; lia. }
  exists (u_of (inject_Z cn) (inject_Z w) (inject_Z (w - 1)) (inject_Z i)).
  split.
  { rewrite loop_uv_ok; fold cn; fold w; try lia. reflexivity. }
  assert (E1 : inject_Z (i + 1) == inject_Z i + 1)
    by (rewrite inject_Z_plus; reflexivity).
  assert (E2 : inject_Z (i + 2) == inject_Z i + 2)
    by (rewrite inject_Z_plus; reflexivity).
  assert (EW : inject_Z (w + 2) == inject_Z w + 2)
    by (rewrite inject_Z_plus; reflexivity).
  rewrite E1, E2, EW.
  apply u_in_column.
  - unfold Z.sub. rewrite inject_Z_plus, inject_Z_opp. reflexivity.
  - now apply inject_Z_nat_cases.
  - unfold chunk_bound. change 1048576 with (inject_Z (2 ^ 20)).
    rewrite <- Zle_Qle. lia.
  - change 7 with (inject_Z 7). rewrite <- Zle_Qle. lia.
  - unfold width_bound. change 4096 with (inject_Z (2 ^ 12)).
    rewrite <- Zle_Qle.
    unfold w, current_pixel_width in *.
    pose proof (Z.mod_pos_bound vertex_count texture_size ltac:(lia)).
    destruct (cn <? vertex_count / texture_size)%Z; lia.
  - apply inject_Z_nat_cases. lia.
  - change 1 with (inject_Z 1).
    unfold Qminus. rewrite <- inject_Z_opp, <- inject_Z_plus, <- Zle_Qle.
    lia.
Qed.

End UVColumn.

Local Open Scope Z_scope.

Lemma uv_lands_in_pixel_column_witness :
  (forall byte_list name height padding,
     img_width (chunk_image 128 byte_list name 200 height 1 72 padding 1)
     = 74) /\
  exists u : Q,
    loop_uv (F := binary64) 128 1 72 130
    = Ok (u, fdiv (F := binary64) 128 255) /\
    (inject_Z 1 + inject_Z 3 / inject_Z 74 < u)%Q /\
    (u < inject_Z 1 + inject_Z 4 / inject_Z 74)%Q.
Proof.
  apply (uv_lands_in_pixel_column (F := binary64) 128 200 130).
  - lia.
  - lia.
  - lia.
  - vm_compute. discriminate.
Defined.

Local Open Scope Q_scope.

Section NarrowChunk.
Context {F : PyFloat} {FL : PyFloatLaws F}.

(** The [u] of the first vertex of a chunk: nothing is added to the
    chunk number but the offset of the pixel centre. *)
Lemma u_of_first (K : Z) (Wq D : Q) :
  (Z.abs K < 2 ^ 53)%Z ->
  u_of (inject_Z K) Wq D 0 == rnd (inject_Z K + rnd (1.5 / Wq)).
Proof.
  intros HK. unfold u_of, fadd, fmul, fsub, fdiv.
  apply rnd_proper.
  assert (E0 : rnd (0 / D) == 0)
    by (rewrite <- rnd_zero at 2; apply rnd_proper; unfold Qdiv; ring).
  assert (E1 : rnd (rnd (1 - rnd (2 * rnd (1.5 / Wq))) * rnd (0 / D)) == 0).
  { rewrite <- rnd_zero at 2. apply rnd_proper. rewrite E0. ring. }
  assert (E2 : rnd (inject_Z K
                    + rnd (rnd (1 - rnd (2 * rnd (1.5 / Wq))) * rnd (0 / D)))
               == inject_Z K).
  { rewrite <- (rnd_Z K HK) at 2. apply rnd_proper. rewrite E1. ring. }
  rewrite E2. reflexivity.
Qed.

Lemma u_of_first_narrow (K w : Z) :
  (0 <= K <= 2 ^ 20)%Z -> (2 <= w <= 6)%Z ->
  inject_Z K + 2 / inject_Z (w + 2)
  <= u_of (inject_Z K) (inject_Z w) (inject_Z (w - 1)) 0.
Proof.
  intros HK Hw. rewrite u_of_first by lia.
  assert (HK0 : 0 <= inject_Z K)
    by (change 0 with (inject_Z 0); rewrite <- Zle_Qle; lia).
  assert (HK1 : inject_Z K <= 1048576)
    by (change 1048576 with (inject_Z (2 ^ 20)); rewrite <- Zle_Qle; lia).
  destruct (Z.eq_dec w 6) as [->|Hne].
  - assert (Ep : rnd (1.5 / inject_Z 6) == 1 # 4).
    { assert (E : 1.5 / inject_Z 6 == 1 # 4) by reflexivity.
      rewrite (rnd_proper _ _ E). apply rnd_exact.
      exists 1%Z, (-2)%Z. repeat split; try lia. }
    assert (Es : rnd (inject_Z K + rnd (1.5 / inject_Z 6))
                 == inject_Z K + (1 # 4)).
    { rewrite (rnd_proper _ (inject_Z K + (1 # 4)))
        by (rewrite Ep; reflexivity).
      apply rnd_exact. exists (4 * K + 1)%Z, (-2)%Z.
      split; [lia|]. split; [lia|].
      rewrite inject_Z_plus, inject_Z_mult.
      assert (E2 : 2 ^ (-2)%Z == 1 # 4) by reflexivity.
      rewrite E2. change (inject_Z 1) with 1.
      change (inject_Z 4) with 4. field. }
    assert (Ed : 2 / inject_Z (6 + 2) == 1 # 4) by reflexivity.
    rewrite Es, Ed. lra.
  - assert (Hsafe : forall x, (1 # 10) <= x -> x <= 1048577 -> safe x).
    { intros x Hlo Hhi. right. unfold tiny, huge. split; lra. }
    assert (Hcases : (w = 2 \/ w = 3 \/ w = 4 \/ w = 5)%Z) by lia.
    destruct Hcases as [-> | [-> | [-> | ->]]];
      match goal with
      | |- _ <= rnd (_ + rnd ?g) =>
          let c := eval vm_compute in (Qred g) in
          assert (Eg : g == c) by reflexivity;
          destruct (rnd_near g ltac:(apply Hsafe; rewrite Eg; lra))
            as [Hl Hh];
          set (pco := rnd g) in *;
          rewrite Eg in Hl, Hh;
          destruct (rnd_near (inject_Z K + pco)
                      ltac:(apply Hsafe; unfold delta in *; lra)) as [Hu _]
      end;
      match goal with
      | |- _ + 2 / ?d <= _ =>
          let c := eval vm_compute in (Qred (2 / d)) in
          assert (Ed : 2 / d == c) by reflexivity; rewrite Ed
      end;
      unfold delta in *; lra.
Qed.

Variable texture_size : Z.

(** X17.  A narrow chunk.  In a chunk that is two to six pixels wide,
    the [u] of the first vertex of the chunk, less its chunk number, is
    not inside the column of the vertex in the image of the chunk: it is
    at least [2 / width], the right edge of that column, where the
    column of the next vertex begins.  (At most [2^20] vertices.) *)
Theorem narrow_chunk_first_vertex (vertex_count idx : Z) :
  (0 < texture_size)%Z ->
  (0 <= idx < vertex_count)%Z -> (vertex_count <= 2 ^ 20)%Z ->
  (idx mod texture_size = 0)%Z ->
  let chunk_number := (idx / texture_size)%Z in
  let w := current_pixel_width texture_size (vertex_count / texture_size)
             (vertex_count mod texture_size) chunk_number in
  (2 <= w <= 6)%Z ->
  exists u : Q,
    loop_uv texture_size (vertex_count / texture_size)
      (vertex_count mod texture_size) idx = Ok (u, fdiv 128 255) /\
    inject_Z chunk_number + 2 / inject_Z (w + 2) <= u.
Proof.
  intros HC Hidx Hn Hfirst cn w Hw.
  assert (Hcn : (0 <= cn <= idx)%Z).
  { unfold cn. split; [apply Z.div_pos; lia|].
    apply Z.div_le_upper_bound; nia. }
  exists (u_of (inject_Z cn) (inject_Z w) (inject_Z (w - 1)) 0).
  split.
  - rewrite loop_uv_ok; fold cn; fold w; try lia.
    rewrite Hfirst. reflexivity.
  - apply u_of_first_narrow; lia.
Qed.

End NarrowChunk.

Local Open Scope Z_scope.

Lemma narrow_chunk_first_vertex_witness :
  exists u : Q,
    loop_uv (F := binary64) 128 1 3 128
    = Ok (u, fdiv (F := binary64) 128 255) /\
    (inject_Z 1 + 2 / inject_Z 5 <= u)%Q.
Proof.
  apply (narrow_chunk_first_vertex (F := binary64) 128 131 128).
  - lia.
  - lia.
  - lia.
  - reflexivity.
  - vm_compute. split; discriminate.
Defined.

(** ** The planes fit the textures *)

Local Open Scope Z_scope.

Lemma saved_images_app (xs ys : list event) :
  saved_images (xs ++ ys) = (saved_images xs ++ saved_images ys)%list.
Proof. unfold saved_images. apply flat_map_app. Qed.

Section BakedImages.
Context {F : PyFloat} {FL : PyFloatLaws F}.
Context {V : Mathutils} {VL : MathutilsLaws V} {host : Bpy}.
Variable C : Z.
Hypothesis C_pos : 0 < C.

Lemma plane_images_well_formed (byte_list : list Q) (name dir : string)
    (W H : Z) (image : ChunkImage) :
  0 <= W -> 0 <= H ->
  Z.of_nat (List.length byte_list) = W * H * 4 ->
  In image (saved_images (plane_events C byte_list name dir W H)) ->
  Z.of_nat (List.length (img_pixels image))
  = 4 * img_width image * img_height image /\
  img_height image = H /\
  3 <= img_width image <= C + 2.
Proof.
  intros HW HH Hlen Hin. unfold plane_events in Hin.
  rewrite saved_images_map_save in Hin.
  apply in_map_iff in Hin. destruct Hin as (i & <- & Hi).
  unfold range in Hi. apply in_map_iff in Hi. destruct Hi as (k & <- & Hk).
  apply in_seq in Hk.
  assert (Hi : 0 <= Z.of_nat k < chunk_total C W) by lia.
  split; [now apply chunk_image_buffer|]. split; [reflexivity|].
  destruct (chunk_total_bounds C C_pos W _ HW Hi) as [Hlw _].
  unfold chunk_image. cbn [img_width].
  destruct (Z.of_nat k =? W / C); cbn [negb]; lia.
Qed.

Lemma length_saved_plane (byte_list : list Q) (name dir : string) (W H : Z) :
  0 <= W ->
  Z.of_nat (List.length (saved_images (plane_events C byte_list name dir W H)))
  = chunk_total C W.
Proof.
  intros HW. unfold plane_events.
  rewrite saved_images_map_save, length_map. apply length_range.
  unfold chunk_total.
  pose proof (Z.div_pos W C HW C_pos). destruct (W mod C =? 0); lia.
Qed.

(** X18.  The planes fit the textures.  For a sequence of frames of [n]
    vertices each, the planes [get_vertex_data] returns have
    [n * frameCount] pixels, so that baking them at the size
    [(n, frameCount)], as [execute] does when the selected meshes have
    [n] vertices, gives four images for each chunk whose pixel buffers
    have exactly the size of the image, [frameCount] rows high. *)
Theorem baked_images_fit (meshes : list Mesh) (n : nat) (name : string)
    (w : World) :
  meshes <> [] ->
  Forall (fun me => vertex_count_of me = n) meshes ->
  exists (offsets normals : list Q) (w1 : World) (evs : list event),
    get_vertex_data meshes w = (Ok (offsets, normals), w1) /\
    List.length offsets = (List.length meshes * (4 * n))%nat /\
    List.length normals = (List.length meshes * (4 * n))%nat /\
    bake_vertex_data C offsets normals
      (Z.of_nat n, Z.of_nat (List.length meshes)) name w1
    = (Ok tt, fold_left emit evs w1) /\
    Z.of_nat (List.length (saved_images evs))
    = 4 * chunk_total C (Z.of_nat n) /\
    forall image, In image (saved_images evs) ->
      Z.of_nat (List.length (img_pixels image))
      = 4 * img_width image * img_height image /\
      img_height image = Z.of_nat (List.length meshes) /\
      3 <= img_width image <= C + 2.
Proof.
  intros Hne Hn.
  destruct meshes as [|first rest]; [congruence|].
  assert (Hfirst : List.length (vertices first) = n)
    by (inversion Hn; assumption).
  assert (Hfit : Forall (fits (vertices first)) (first :: rest)).
  { eapply Forall_impl; [|exact Hn]. intros me Hme. cbv beta in Hme.
    unfold fits. lia. }
  destruct (get_vertex_data_ok first rest w Hfit)
    as (m & s & _ & _ & _ & Hrun).
  set (offsets := flat_map (offset_row s (vertices first))
                    (rev (first :: rest))) in *.
  set (normals := flat_map normal_row (rev (first :: rest))) in *.
  assert (Hoff : List.length offsets
                 = (List.length (first :: rest) * (4 * n))%nat).
  { unfold offsets. rewrite flat_map_concat_map.
    rewrite (concat_uniform_length (4 * n)).
    - now rewrite length_map, length_rev.
    - apply Forall_map, Forall_rev. eapply Forall_impl; [|exact Hn].
      intros me Hme. cbv beta in Hme. rewrite length_offset_row; lia. }
  assert (Hnor : List.length normals
                 = (List.length (first :: rest) * (4 * n))%nat).
  { unfold normals. rewrite flat_map_concat_map.
    rewrite (concat_uniform_length (4 * n)).
    - now rewrite length_map, length_rev.
    - apply Forall_map, Forall_rev. eapply Forall_impl; [|exact Hn].
      intros me Hme. cbv beta in Hme. rewrite length_normal_row; lia. }
  eexists offsets, normals, _, _.
  split; [exact Hrun|]. split; [exact Hoff|]. split; [exact Hnor|].
  set (W := Z.of_nat n). set (H := Z.of_nat (List.length (first :: rest))).
  assert (HW : 0 <= W) by (unfold W; lia).
  assert (HH : 0 <= H) by (unfold H; lia).
  split.
  { apply (bake_vertex_data_events C C_pos); try assumption;
      [rewrite Hoff | rewrite Hnor]; unfold W, H; lia. }
  assert (Hplanes : forall pixel_list,
            List.length pixel_list
            = (List.length (first :: rest) * (4 * n))%nat ->
            Z.of_nat (List.length (fst (byte_planes pixel_list))) = W * H * 4 /\
            Z.of_nat (List.length (snd (byte_planes pixel_list))) = W * H * 4).
  { intros pixel_list Hlen. rewrite byte_planes_map. cbn [fst snd].
    rewrite !length_map, Hlen. unfold W, H. split; lia. }
  destruct (Hplanes offsets Hoff) as [Hoh Hol].
  destruct (Hplanes normals Hnor) as [Hnh Hnl].
  unfold bake_events, image_events. rewrite !saved_images_app.
  split.
  - rewrite !length_app, !Nat2Z.inj_add, !length_saved_plane by exact HW.
    unfold W. lia.
  - intros image Hin. rewrite !in_app_iff in Hin.
    destruct Hin as [[Hin|Hin]|[Hin|Hin]];
      eapply plane_images_well_formed; try exact Hin; assumption.
Qed.

End BakedImages.

Lemma baked_images_fit_witness :
  exists (offsets normals : list Q) (w1 : World) (evs : list event),
    get_vertex_data (F := binary64) (V := exact_vectors)
      [point_mesh 0; point_mesh 1; point_mesh 4] blank_world
    = (Ok (offsets, normals), w1) /\
    List.length offsets = 12%nat /\
    List.length normals = 12%nat /\
    bake_vertex_data (F := binary64) (host := blender) 128 offsets normals
      (1, 3) "Cube" w1
    = (Ok tt, fold_left emit evs w1) /\
    Z.of_nat (List.length (saved_images evs)) = 4 /\
    forall image, In image (saved_images evs) ->
      Z.of_nat (List.length (img_pixels image))
      = 4 * img_width image * img_height image /\
      img_height image = 3 /\
      3 <= img_width image <= 130.
Proof.
  apply (baked_images_fit (F := binary64) (V := exact_vectors)
           (host := blender) 128 eq_refl
           [point_mesh 0; point_mesh 1; point_mesh 4] 1 "Cube" blank_world).
  - discriminate.
  - repeat constructor.
Defined.

(** ** From a normal to the images and back *)

Local Open Scope Q_scope.



Section Decode.
Context {F : PyFloat} {FL : PyFloatLaws F}.





End Decode.

Section NormalsRoundTrip.
Context {F : PyFloat} {FL : PyFloatLaws F}.
Context {V : Mathutils} {VL : MathutilsLaws V} {host : Bpy}.
Variable C : Z.
Hypothesis C_pos : (0 < C)%Z.



End NormalsRoundTrip.

Local Open Scope Z_scope.

